(** * Folder structure generator (cliver.py): model and verified properties

    A shallow embedding of [FolderStructureGenerator] from [src/cliver.py]:
    the recursive directory walk [get_structure], the tree printer
    [print_structure], the statistics pass [get_summary] and the structured
    value handed to [json.dump] by [export_json], with the text that
    [json.dump] writes for it; then [export_txt], [export_json] and [main]
    as programs over the console and the files written, and the walk
    [get_folder_structure] with [generate_structure] of the window in
    [src/wguiver.py].

    Conventions of the model:
    - a Python [str] is a [string] (its UTF-8 bytes; comparing the bytes
      lexicographically is comparing the code points);
    - [str.lower] is [Str.lower], which lowers the ASCII letters; where the
      order of the children is the matter, the walk is taken over the
      interpreter's own lowering, as a parameter ([get_structure_by]);
    - a Python [int] is a [Z]; the three counters of [get_summary] start at 0
      and are only incremented, they are [nat];
    - the host file system is a record of oracles, one per [os] call made by
      the source; it is a snapshot: the same query gives the same answer
      during one walk;
    - the populated dictionaries built by the source are the constructors of
      [node]; the empty dictionary [{}] returned at the depth limit is [None]
      of [structure];
    - Python's recursion has no bound in the model; the walk takes fuel, and
      running out of fuel ([None] at the outside) is not a behaviour of the
      program. *)

From Stdlib Require Import List String Ascii ZArith Bool Lia PeanoNat.
From Stdlib Require Import DecimalString.
From Stdlib Require DecimalZ DecimalPos.
From Stdlib Require Import Sorting.Sorted Sorting.Permutation.
Import ListNotations.

Set Warnings "-register-all".

Local Open Scope string_scope.
Local Open Scope Z_scope.

(* ================================================================== *)
(** * Python strings *)

Module Str.

(** [c.lower()] on the ASCII letters; bytes outside [A-Z] are kept.  (Python
    also lowers cased letters outside ASCII; names made of ASCII characters
    are lowered exactly.) *)
Definition lower_ascii (c : ascii) : ascii :=
  let n := nat_of_ascii c in
  if (65 <=? n)%nat && (n <=? 90)%nat then ascii_of_nat (n + 32) else c.

Fixpoint lower (s : string) : string :=
  match s with
  | EmptyString => EmptyString
  | String c r => String (lower_ascii c) (lower r)
  end.

(** [s.startswith(p)] *)
Definition startswith (s p : string) : bool := String.prefix p s.

(** [s.endswith("/")] *)
Fixpoint endswith_sep (s : string) : bool :=
  match s with
  | EmptyString => false
  | String c EmptyString => Ascii.eqb c "/"
  | String _ r => endswith_sep r
  end.

(** ["/" in s] *)
Fixpoint has_sep (s : string) : bool :=
  match s with
  | EmptyString => false
  | String c r => Ascii.eqb c "/" || has_sep r
  end.

End Str.

(* ================================================================== *)
(** * os.path (posixpath) *)

Module PosixPath.

(** [os.path.join(a, b)]:
    [if b.startswith(sep): path = b
     elif not path or path.endswith(sep): path += b
     else: path += sep + b] *)
Definition join (a b : string) : string :=
  if Str.startswith b "/" then b
  else if (String.eqb a "" || Str.endswith_sep a)%bool then a ++ b
  else a ++ "/" ++ b.

(** [os.path.basename(p)]: [i = p.rfind(sep) + 1; return p[i:]] *)
Fixpoint basename (p : string) : string :=
  match p with
  | EmptyString => EmptyString
  | String c r =>
      if Str.has_sep r then basename r
      else if Ascii.eqb c "/" then r else p
  end.

End PosixPath.

(* ================================================================== *)
(** * Exceptions and the file system *)

(** The two handlers of [get_structure] tell [PermissionError] from every
    other [Exception]; of the latter only [str(e)] is used. *)
Inductive exn : Type :=
| PermissionError
| OtherException (msg : string).

Inductive py_result (A : Type) : Type :=
| Ok (a : A)
| Raise (e : exn).
Arguments Ok {A} a.
Arguments Raise {A} e.

(** The [os] calls of the source.  [os.path.isdir] and [os.path.exists] never
    raise; [os.path.getsize] is only reached under [os.path.exists], and both
    are the same [stat] of the snapshot, so the size query is total here. *)
Record filesystem : Type := {
  listdir : string -> py_result (list string);
  isdir : string -> bool;
  exists_ : string -> bool;
  getsize : string -> Z
}.

(* ================================================================== *)
(** * list.sort(key=...) *)

Module PyList.

(** [a < b] on tuples [(bool, str)]: the first components decide when they
    differ ([False < True]), the second ones otherwise. *)
Definition tuple_lt (a b : bool * string) : bool :=
  match fst a, fst b with
  | false, true => true
  | true, false => false
  | _, _ => String.ltb (snd a) (snd b)
  end.

Section Sort.
Context {A : Type} (key : A -> bool * string).

(** [x] goes before the first element whose key is not below its own:
    an earlier element stays before a later one of the same key. *)
Fixpoint insert (x : A) (l : list A) : list A :=
  match l with
  | [] => [x]
  | y :: r => if tuple_lt (key y) (key x) then y :: insert x r
              else x :: y :: r
  end.

(** The stable sort of [list.sort]: the elements in ascending key order,
    those of equal keys in their original order. *)
Fixpoint sort (l : list A) : list A :=
  match l with
  | [] => []
  | x :: r => insert x (sort r)
  end.

(** [x] is not after [y] in key order. *)
Definition key_le (x y : A) : Prop := tuple_lt (key y) (key x) = false.

(** [x] has the key [k]. *)
Definition same_key (k : bool * string) (x : A) : bool :=
  Bool.eqb (fst (key x)) (fst k) && String.eqb (snd (key x)) (snd k).
End Sort.

End PyList.

(* ================================================================== *)
(** * The tree *)

(** The populated dictionaries of the source, by their ["type"] entry:
    ["directory"] (name, path, children), ["file"] (name, path, size) and
    ["error"] (name; its path is always the empty string). *)
Inductive node : Type :=
| Directory (name path : string) (children : list node)
| FileEntry (name path : string) (size : Z)
| ErrorNode (name : string).

(** What [get_structure] returns: [None] is the empty dictionary [{}]. *)
Definition structure : Type := option node.

(** The values stored in the dictionaries, as [json.dump] receives them. *)
Inductive value : Type :=
| VStr (s : string)
| VInt (z : Z)
| VList (l : list value)
| VDict (kv : list (string * value)).

(** The key/value pairs of a populated dictionary, in the order of the
    source's dictionary displays. *)
Fixpoint node_dict (n : node) : list (string * value) :=
  match n with
  | Directory name path children =>
      [("name", VStr name); ("type", VStr "directory"); ("path", VStr path);
       ("children", VList (map (fun c => VDict (node_dict c)) children))]
  | FileEntry name path size =>
      [("name", VStr name); ("type", VStr "file"); ("path", VStr path);
       ("size", VInt size)]
  | ErrorNode name =>
      [("name", VStr name); ("type", VStr "error"); ("path", VStr "")]
  end.

Definition as_dict (s : structure) : list (string * value) :=
  match s with
  | None => []
  | Some n => node_dict n
  end.

(** [bool(d)] of a dictionary: it has at least one key. *)
Definition truthy (s : structure) : bool :=
  negb (Nat.eqb (List.length (as_dict s)) 0).

(** [children.append(child_structure)], reached only for a truthy one. *)
Definition appended (children : list node) (s : structure) : list node :=
  match s with
  | Some n => children ++ [n]
  | None => children
  end.

(* ================================================================== *)
(** * FolderStructureGenerator *)

Record FolderStructureGenerator : Type := {
  exclude_hidden : bool;
  max_depth : option Z;
  include_files : bool
}.

(** [__init__]'s defaults. *)
Definition default_generator : FolderStructureGenerator :=
  {| exclude_hidden := true; max_depth := None; include_files := true |}.

(** [is_hidden]: [os.path.basename(path).startswith('.')] *)
Definition is_hidden (path : string) : bool :=
  Str.startswith (PosixPath.basename path) ".".

(** [self.max_depth is not None and current_depth >= self.max_depth] *)
Definition depth_reached (self : FolderStructureGenerator) (current_depth : Z)
  : bool :=
  match max_depth self with
  | None => false
  | Some m => m <=? current_depth
  end.

(** The node appended by the two [except] clauses. *)
Definition error_node (e : exn) : node :=
  match e with
  | PermissionError => ErrorNode "[Permission Denied]"
  | OtherException msg => ErrorNode ("[Error: " ++ msg ++ "]")
  end.

Section Walk.
Variable fs : filesystem.
Variable self : FolderStructureGenerator.

(** The key of [items.sort]:
    [(not os.path.isdir(os.path.join(root_path, x)), x.lower())] *)
Definition sort_key (root_path x : string) : bool * string :=
  (negb (isdir fs (PosixPath.join root_path x)), Str.lower x).

Section Body.
(** The recursive call [self.get_structure]; [None] when the fuel of the
    model is used up. *)
Variable rec : string -> Z -> option structure.
Variable root_path : string.
Variable current_depth : Z.

(** The [for item in items] loop; [children] is [structure["children"]]
    so far. *)
Fixpoint loop (items : list string) (children : list node)
  : option (list node) :=
  match items with
  | [] => Some children
  | item :: rest =>
      let item_path := PosixPath.join root_path item in
      if exclude_hidden self && is_hidden item_path then
        loop rest children
      else if isdir fs item_path then
        match rec item_path (current_depth + 1) with
        | None => None
        | Some child_structure =>
            if truthy child_structure
            then loop rest (appended children child_structure)
            else loop rest children
        end
      else if include_files self then
        loop rest
          (children ++
             [FileEntry item item_path
                (if exists_ fs item_path then getsize fs item_path
                 else 0)])
      else loop rest children
  end.

Definition get_structure_body : option structure :=
  if depth_reached self current_depth then Some None
  else
    let name := PosixPath.basename root_path in
    match listdir fs root_path with
    | Ok items =>
        match loop (PyList.sort (sort_key root_path) items) [] with
        | Some children => Some (Some (Directory name root_path children))
        | None => None
        end
    | Raise e => Some (Some (Directory name root_path [error_node e]))
    end.
End Body.

(** [get_structure(root_path, current_depth)] *)
Fixpoint get_structure (fuel : nat) (root_path : string) (current_depth : Z)
  : option structure :=
  match fuel with
  | O => None
  | S fuel' => get_structure_body (get_structure fuel') root_path current_depth
  end.
End Walk.

(** ** The walk over the interpreter's [str.lower]

    [x.lower()] in the key of [items.sort] is a built-in of the
    interpreter; it lowers every cased letter of Unicode.  In this second
    embedding of [get_structure] it is a parameter, [lower]; nothing else
    differs, and the loop over the items is the one above.  [Str.lower] is
    what [lower] does on names made of ASCII characters. *)
Section WalkBy.
Variable lower : string -> string.
Variable fs : filesystem.
Variable self : FolderStructureGenerator.

(** [(not os.path.isdir(os.path.join(root_path, x)), x.lower())] *)
Definition sort_key_by (root_path x : string) : bool * string :=
  (negb (isdir fs (PosixPath.join root_path x)), lower x).

Definition get_structure_body_by (rec : string -> Z -> option structure)
  (root_path : string) (current_depth : Z) : option structure :=
  if depth_reached self current_depth then Some None
  else
    let name := PosixPath.basename root_path in
    match listdir fs root_path with
    | Ok items =>
        match loop fs self rec root_path current_depth
                (PyList.sort (sort_key_by root_path) items) [] with
        | Some children => Some (Some (Directory name root_path children))
        | None => None
        end
    | Raise e => Some (Some (Directory name root_path [error_node e]))
    end.

Fixpoint get_structure_by (fuel : nat) (root_path : string)
  (current_depth : Z) : option structure :=
  match fuel with
  | O => None
  | S fuel' =>
      get_structure_body_by (get_structure_by fuel') root_path current_depth
  end.
End WalkBy.

(* ================================================================== *)
(** * print_structure *)

(** The lines written by [print_structure], in the order of the [print]
    calls. *)
Fixpoint print_structure (structure : node) (prefix : string)
  (is_last show_path : bool) {struct structure} : list string :=
  match structure with
  | ErrorNode name => [prefix ++ "└── " ++ name]
  | FileEntry name _ _ =>
      let connector := if is_last then "└── " else "├── " in
      [prefix ++ connector ++ name]
  | Directory name path children =>
      let connector := if is_last then "└── " else "├── " in
      let display_name :=
        if show_path then name ++ " (" ++ path ++ ")" else name in
      let new_prefix := prefix ++ (if is_last then "    " else "│   ") in
      (prefix ++ connector ++ display_name) ::
      (fix each (i : Z) (rest : list node) {struct rest} : list string :=
         match rest with
         | [] => []
         | child :: rest' =>
             let is_child_last :=
               (i =? Z.of_nat (List.length children) - 1) in
             (print_structure child new_prefix is_child_last show_path
                ++ each (i + 1) rest')%list
         end) 0 children
  end.

(* ================================================================== *)
(** * get_summary *)

Record stats : Type := {
  directories : nat;
  files : nat;
  errors : nat
}.

(** [count_items], threading the [stats] dictionary it updates. *)
Fixpoint count_items (n : node) (st : stats) : stats :=
  match n with
  | Directory _ _ children =>
      fold_left (fun st child => count_items child st) children
        {| directories := directories st + 1; files := files st;
           errors := errors st |}
  | FileEntry _ _ _ =>
      {| directories := directories st; files := files st + 1;
         errors := errors st |}
  | ErrorNode _ =>
      {| directories := directories st; files := files st;
         errors := errors st + 1 |}
  end.

Definition get_summary (structure : node) : stats :=
  count_items structure {| directories := 0; files := 0; errors := 0 |}.

(* ================================================================== *)
(** * export_json *)

(** The value [export_json] passes to [json.dump]: the structure itself.
    The characters that [json.dump] writes for it are [Json.dump] below, and
    the program that writes the file is [Cli.export_json]. *)
Definition export_json (s : structure) : value := VDict (as_dict s).

(* ================================================================== *)
(** * Concrete file systems *)

Fixpoint assoc {A : Type} (k : string) (l : list (string * A)) : option A :=
  match l with
  | [] => None
  | (k', a) :: r => if String.eqb k k' then Some a else assoc k r
  end.

Definition is_some {A : Type} (o : option A) : bool :=
  match o with Some _ => true | None => false end.

(** A file system given by the table of its directories (path and outcome of
    listing it) and the table of its other entries (path and size).  Listing
    a path that is not a directory fails with an error other than
    permission-denied. *)
Definition table_fs (dirs : list (string * py_result (list string)))
  (others : list (string * Z)) : filesystem :=
  {| listdir := fun p =>
       match assoc p dirs with
       | Some r => r
       | None => Raise (OtherException "[Errno 20] Not a directory")
       end;
     isdir := fun p => is_some (assoc p dirs);
     exists_ := fun p => is_some (assoc p dirs) || is_some (assoc p others);
     getsize := fun p =>
       match assoc p others with Some z => z | None => 0 end |}.

(** The tables list names without separator. *)
Definition table_names_ok (dirs : list (string * py_result (list string)))
  : bool :=
  forallb (fun entry =>
             match snd entry with
             | Ok items => forallb (fun x => negb (Str.has_sep x)) items
             | Raise _ => true
             end) dirs.

(** A root [r] holding the directory [sub], which holds the file
    [deep.txt]. *)
Definition fs_depth : filesystem :=
  table_fs [("r", Ok ["sub"]); ("r/sub", Ok ["deep.txt"])]
           [("r/sub/deep.txt", 4)].

(** A root [r] holding the directory [e], which holds nothing. *)
Definition fs_empty_sub : filesystem :=
  table_fs [("r", Ok ["e"]); ("r/e", Ok [])] [].

(** A directory [d] listed as [b.txt], [A], [a.txt], [B], where [A] and [B]
    are directories. *)
Definition fs_sorting : filesystem :=
  table_fs [("d", Ok ["b.txt"; "A"; "a.txt"; "B"]); ("d/A", Ok []);
            ("d/B", Ok [])]
           [("d/b.txt", 2); ("d/a.txt", 1)].

(** A directory [c] listed as [Zed], [B.txt], [apple], [a.txt], where [Zed]
    and [apple] are directories: the names in code-point order are not in
    the order of their lowered forms. *)
Definition fs_case : filesystem :=
  table_fs [("c", Ok ["Zed"; "B.txt"; "apple"; "a.txt"]); ("c/Zed", Ok []);
            ("c/apple", Ok [])]
           [("c/B.txt", 2); ("c/a.txt", 1)].

(** A directory [h] holding the hidden directory [.git], the hidden file
    [.env] and the file [x]. *)
Definition fs_hidden : filesystem :=
  table_fs [("h", Ok [".git"; "x"; ".env"]); ("h/.git", Ok ["HEAD"])]
           [("h/x", 1); ("h/.env", 7); ("h/.git/HEAD", 3)].

(** A directory [p] whose listing is denied, and a root [q] holding a denied
    directory [k] beside a file. *)
Definition fs_denied : filesystem :=
  table_fs [("p", Raise PermissionError); ("q", Ok ["k"; "f"]);
            ("q/k", Raise PermissionError)]
           [("q/f", 5)].

(** A hidden root [.cfg] holding one file. *)
Definition fs_hidden_root : filesystem :=
  table_fs [(".cfg", Ok ["a"])] [(".cfg/a", 6)].

(** A regular file [n.txt], next to nothing else. *)
Definition fs_file : filesystem :=
  table_fs [] [("n.txt", 12)].

Definition with_depth (m : Z) : FolderStructureGenerator :=
  {| exclude_hidden := true; max_depth := Some m; include_files := true |}.

Definition show_hidden : FolderStructureGenerator :=
  {| exclude_hidden := false; max_depth := None; include_files := true |}.

Definition show_hidden_no_files : FolderStructureGenerator :=
  {| exclude_hidden := false; max_depth := None; include_files := false |}.

(* ================================================================== *)
(** * Vocabulary of the properties *)

Definition node_path (n : node) : string :=
  match n with
  | Directory _ path _ => path
  | FileEntry _ path _ => path
  | ErrorNode _ => ""
  end.

(** The depth limit does not stop a walk at depth [d]: it is unset, or above
    [d]. *)
Definition below_limit (self : FolderStructureGenerator) (d : Z) : Prop :=
  match max_depth self with
  | None => True
  | Some m => d < m
  end.

(** The enumeration of [root_path] fails with [e] in a walk at depth [d]:
    the walk passes the depth test, calls [os.listdir(root_path)], and the
    call raises [e]. *)
Definition listing_raises (fs : filesystem) (self : FolderStructureGenerator)
  (root_path : string) (d : Z) (e : exn) : Prop :=
  depth_reached self d = false /\ listdir fs root_path = Raise e.

(** The size recorded for a file: [getsize] if the path exists, else 0. *)
Definition recorded_size (fs : filesystem) (path : string) : Z :=
  if exists_ fs path then getsize fs path else 0.

(** [c] is the file entry of one of the [items] listed in [root_path] that
    is not a directory. *)
Definition listed_file (fs : filesystem) (root_path : string)
  (items : list string) (c : node) : Prop :=
  exists item,
    In item items /\
    isdir fs (PosixPath.join root_path item) = false /\
    c = FileEntry item (PosixPath.join root_path item)
          (recorded_size fs (PosixPath.join root_path item)).


Definition node_name (n : node) : string :=
  match n with
  | Directory name _ _ => name
  | FileEntry name _ _ => name
  | ErrorNode name => name
  end.

Definition is_directory (n : node) : bool :=
  match n with Directory _ _ _ => true | _ => false end.

Definition is_file (n : node) : bool :=
  match n with FileEntry _ _ _ => true | _ => false end.

Definition is_error (n : node) : bool :=
  match n with ErrorNode _ => true | _ => false end.

(** The nodes of a tree, parent first, children in their order. *)
Fixpoint preorder (n : node) : list node :=
  match n with
  | Directory _ _ children => n :: flat_map preorder children
  | _ => [n]
  end.

(** Number of nodes of a tree of one kind. *)
Definition count_kind (kind : node -> bool) (n : node) : nat :=
  List.length (filter kind (preorder n)).

Definition is_entry (n : node) : bool := negb (is_error n).

(** The counters [st] increased by [ds], [fs] and [es]. *)
Definition add_stats (st : stats) (ds fs es : nat) : stats :=
  {| directories := directories st + ds; files := files st + fs;
     errors := errors st + es |}.

(** What a line of [print_structure] shows of a node. *)
Definition label (show_path : bool) (n : node) : string :=
  match n with
  | Directory name path _ =>
      if show_path then name ++ " (" ++ path ++ ")" else name
  | FileEntry name _ _ => name
  | ErrorNode name => name
  end.

Definition connector (is_last : bool) : string :=
  if is_last then "└── " else "├── ".

Definition extension (is_last : bool) : string :=
  if is_last then "    " else "│   ".

(** The children rendered one after the other, the flag being set for the
    final child only. *)
Fixpoint render_children (render : node -> bool -> list string)
  (children : list node) : list string :=
  match children with
  | [] => []
  | [c] => render c true
  | c :: rest => (render c false ++ render_children render rest)%list
  end.

(** A line showing a node: something followed by its label. *)
Definition shows (show_path : bool) (line : string) (n : node) : Prop :=
  exists before, line = before ++ label show_path n.



(** The same order, over the lowering function of the interpreter. *)
Definition precedes_by (lower : string -> string) (a b : node) : Prop :=
  match a, b with
  | Directory na _ _, Directory nb _ _ =>
      String.leb (lower na) (lower nb) = true
  | FileEntry na _ _, FileEntry nb _ _ =>
      String.leb (lower na) (lower nb) = true
  | FileEntry _ _ _, Directory _ _ _ => False
  | _, _ => True
  end.

Definition children_ordered_by (lower : string -> string)
  (children : list node) : Prop :=
  StronglySorted (precedes_by lower) children.

(** The names listed by the host hold no separator (as on every POSIX file
    system). *)
Definition names_wf (fs : filesystem) : Prop :=
  forall p items, listdir fs p = Ok items ->
    Forall (fun x => Str.has_sep x = false) items.

(** ** Finite descriptions of what lies under a path *)

(** An entry that is not a directory, a directory with its entries in the
    order the host lists them, or a directory whose listing raises. *)
Inductive fstree : Type :=
| TOther
| TDir (entries : list (string * fstree))
| TFail (e : exn).

Fixpoint describes (fs : filesystem) (t : fstree) (p : string) {struct t}
  : Prop :=
  match t with
  | TOther => isdir fs p = false
  | TFail e => isdir fs p = true /\ listdir fs p = Raise e
  | TDir entries =>
      isdir fs p = true /\
      listdir fs p = Ok (map fst entries) /\
      (fix all (l : list (string * fstree)) : Prop :=
         match l with
         | [] => True
         | (x, k) :: r => describes fs k (PosixPath.join p x) /\ all r
         end) entries
  end.

Definition is_tdir (t : fstree) : bool :=
  match t with TOther => false | _ => true end.

(** Levels of directories: the fuel a walk of the tree needs. *)
Fixpoint levels (t : fstree) : nat :=
  match t with
  | TOther => 0
  | TFail _ => 1
  | TDir entries =>
      S (fold_right (fun xk m => Nat.max (levels (snd xk)) m) 0%nat entries)
  end.

(** Number of entries: the root and everything reachable under it. *)
Fixpoint entry_count (t : fstree) : nat :=
  match t with
  | TDir entries =>
      S (fold_right (fun xk m => (entry_count (snd xk) + m)%nat) 0%nat entries)
  | _ => 1
  end.

(** No listing fails anywhere in the tree. *)
Fixpoint listable (t : fstree) : bool :=
  match t with
  | TOther => true
  | TFail _ => false
  | TDir entries => forallb (fun xk => listable (snd xk)) entries
  end.

(** ** Reading a tree back from the exported value *)

(** Modelled from the spec: the repository has no function that builds a
    tree from an exported value; the list of the results when each one is
    there. *)
Fixpoint all_some {A : Type} (l : list (option A)) : option (list A) :=
  match l with
  | [] => Some []
  | Some a :: r => option_map (cons a) (all_some r)
  | None :: _ => None
  end.

(** Modelled from the spec: the repository has no function that builds a
    tree from an exported value; the round trip of the export reconstructs
    one.  A node is reconstructed from a nested mapping after the data
    model: the [type] entry selects the kind of node, and the [name],
    [path], [size] and [children] entries give its fields. *)
Fixpoint reconstruct_node (v : value) : option node :=
  match v with
  | VDict kv =>
      let fields :=
        (fix fields (kv : list (string * value))
           : list (string * (value * list (option node))) :=
           match kv with
           | [] => []
           | (k, x) :: r =>
               (k, (x, match x with
                       | VList l => map reconstruct_node l
                       | _ => []
                       end)) :: fields r
           end) kv in
      match assoc "type" fields, assoc "name" fields with
      | Some (VStr ty, _), Some (VStr name, _) =>
          if String.eqb ty "directory" then
            match assoc "path" fields, assoc "children" fields with
            | Some (VStr path, _), Some (VList _, children) =>
                option_map (Directory name path) (all_some children)
            | _, _ => None
            end
          else if String.eqb ty "file" then
            match assoc "path" fields, assoc "size" fields with
            | Some (VStr path, _), Some (VInt size, _) =>
                Some (FileEntry name path size)
            | _, _ => None
            end
          else if String.eqb ty "error" then Some (ErrorNode name)
          else None
      | _, _ => None
      end
  | _ => None
  end.

(** Modelled from the spec: the repository has no function that builds a
    tree from an exported value; the empty mapping is the empty dictionary
    of the walk, any other value is a node. *)
Definition reconstruct (v : value) : option structure :=
  match v with
  | VDict [] => Some None
  | _ => option_map Some (reconstruct_node v)
  end.

(** ** What one iteration of the loop contributes *)

Section Contribution.
Variable fs : filesystem.
Variable self : FolderStructureGenerator.
Variable rec : string -> Z -> option structure.
Variable root_path : string.
Variable current_depth : Z.

(** The nodes one [item] adds to the children: none when it is skipped or
    its walk returns [{}], one otherwise ([None]: the fuel is used up). *)
Definition item_children (item : string) : option (list node) :=
  let item_path := PosixPath.join root_path item in
  if exclude_hidden self && is_hidden item_path then Some []
  else if isdir fs item_path then
    match rec item_path (current_depth + 1) with
    | None => None
    | Some child_structure => Some (appended [] child_structure)
    end
  else if include_files self then
    Some [FileEntry item item_path
            (if exists_ fs item_path then getsize fs item_path else 0)]
  else Some [].
End Contribution.

(* ================================================================== *)
(** * Vocabulary of the further properties of the walk *)

(** Levels of directory nodes in a tree: 0 for a leaf. *)
Fixpoint node_levels (n : node) : nat :=
  match n with
  | Directory _ _ children =>
      S (fold_right (fun c m => Nat.max (node_levels c) m) 0%nat children)
  | _ => 0%nat
  end.

(** A configuration with one option replaced. *)
Definition set_exclude_hidden (self : FolderStructureGenerator) (b : bool)
  : FolderStructureGenerator :=
  {| exclude_hidden := b; max_depth := max_depth self;
     include_files := include_files self |}.

Definition set_include_files (self : FolderStructureGenerator) (b : bool)
  : FolderStructureGenerator :=
  {| exclude_hidden := exclude_hidden self; max_depth := max_depth self;
     include_files := b |}.

Definition set_max_depth (self : FolderStructureGenerator) (m : option Z)
  : FolderStructureGenerator :=
  {| exclude_hidden := exclude_hidden self; max_depth := m;
     include_files := include_files self |}.

(** The tree without the nodes whose path has a hidden base name, at every
    level below the root. *)
Fixpoint prune_hidden (n : node) : node :=
  match n with
  | Directory name path children =>
      Directory name path
        ((fix prune (l : list node) : list node :=
            match l with
            | [] => []
            | c :: r =>
                if is_hidden (node_path c) then prune r
                else prune_hidden c :: prune r
            end) children)
  | _ => n
  end.

(** The tree without its file entries. *)
Fixpoint drop_files (n : node) : node :=
  match n with
  | Directory name path children =>
      Directory name path
        ((fix drop (l : list node) : list node :=
            match l with
            | [] => []
            | c :: r =>
                if is_file c then drop r else drop_files c :: drop r
            end) children)
  | _ => n
  end.

(** The tree cut after [k] levels of directories: with no level left a
    directory becomes the empty dictionary, which its parent leaves out;
    leaves are kept by their parent. *)
Fixpoint truncate (k : nat) (n : node) : structure :=
  match k with
  | O => None
  | S k' =>
      match n with
      | Directory name path children =>
          Some (Directory name path
                  (flat_map (fun c => if is_directory c
                                      then appended [] (truncate k' c)
                                      else [c]) children))
      | _ => Some n
      end
  end.

(** [line] begins with [prefix]. *)
Definition starts_with (prefix line : string) : Prop :=
  exists tail, line = prefix ++ tail.

(** The same prunings, on a list of children. *)
Definition prune_children (l : list node) : list node :=
  flat_map (fun c => if is_hidden (node_path c) then []
                     else [prune_hidden c]) l.

Definition drop_children (l : list node) : list node :=
  flat_map (fun c => if is_file c then [] else [drop_files c]) l.

Definition truncate_children (k : nat) (l : list node) : list node :=
  flat_map (fun c => if is_directory c then appended [] (truncate k c)
                     else [c]) l.

(** The listed entries that get a node in a walk at depth [d]: not
    filtered as hidden, and a directory whose walk is below the depth limit
    or another entry when files are included. *)
Definition kept (fs : filesystem) (self : FolderStructureGenerator)
  (root_path : string) (d : Z) (item : string) : bool :=
  let item_path := PosixPath.join root_path item in
  negb (exclude_hidden self && is_hidden item_path) &&
  (if isdir fs item_path then negb (depth_reached self (d + 1))
   else include_files self).

(** The directory nodes of a tree whose path cannot be listed. *)
Definition listing_fails (fs : filesystem) (n : node) : bool :=
  match n with
  | Directory _ path _ =>
      match listdir fs path with Raise _ => true | Ok _ => false end
  | _ => false
  end.

(* ================================================================== *)
(** * The walk of the window (wguiver.py) *)

Module Text.

(** The line feed written as [\n] in the source. *)
Definition nl : string := String (ascii_of_nat 10) EmptyString.

(** [s * n] for a string and an [int]: empty when [n] is not positive. *)
Definition mul (s : string) (n : Z) : string :=
  (fix rep (k : nat) : string :=
     match k with
     | O => EmptyString
     | S k' => s ++ rep k'
     end) (Z.to_nat n).

End Text.

Module Gui.

(** The values of the three check boxes of [FolderStructureGUI]. *)
Record FolderStructureGUI : Type := {
  include_hidden : bool;
  show_paths : bool;
  include_files : bool
}.

Section Walk.
Variable fs : filesystem.
Variable self : FolderStructureGUI.

Section Body.
(** The recursive call; [None] when the fuel of the model is used up. *)
Variable rec : string -> Z -> option string.
Variable path : string.
Variable depth : Z.

(** The [for item in items] loop; [result] is the text so far. *)
Fixpoint loop (items : list string) (result : string) : option string :=
  match items with
  | [] => Some result
  | item :: rest =>
      let indent := Text.mul "    " depth in
      let item_path := PosixPath.join path item in
      if negb (include_hidden self) && Str.startswith item "." then
        loop rest result
      else if isdir fs item_path then
        match rec item_path (depth + 1) with
        | None => None
        | Some text => loop rest (result ++ text)
        end
      else if include_files self then
        let display_name :=
          if show_paths self then item ++ " (" ++ item_path ++ ")"
          else item in
        loop rest (result ++ indent ++ "    ├── " ++ display_name ++ Text.nl)
      else loop rest result
  end.

Definition get_folder_structure_body : option string :=
  let indent := Text.mul "    " depth in
  let result := indent ++ PosixPath.basename path ++ "/" ++ Text.nl in
  match listdir fs path with
  | Ok items =>
      loop (PyList.sort
              (fun x => (negb (isdir fs (PosixPath.join path x)),
                         Str.lower x)) items) result
  | Raise PermissionError =>
      Some (result ++ indent ++ "    └── [Permission Denied]" ++ Text.nl)
  | Raise (OtherException msg) =>
      Some (result ++ indent ++ "    └── [Error: " ++ msg ++ "]" ++ Text.nl)
  end.
End Body.

(** [get_folder_structure(path, depth)] *)
Fixpoint get_folder_structure (fuel : nat) (path : string) (depth : Z)
  : option string :=
  match fuel with
  | O => None
  | S fuel' => get_folder_structure_body (get_folder_structure fuel') path depth
  end.
End Walk.

(** What [generate_structure] changes of the window ([output_text] and
    [status_bar]) and the dialog it may show. *)
Record window : Type := {
  output_text : string;
  status_bar : string
}.

Inductive dialog : Type :=
| NoDialog
| ShowError (title message : string).

(** [generate_structure()], for the content [folder] of the entry field. *)
Definition generate_structure (fs : filesystem) (self : FolderStructureGUI)
  (fuel : nat) (folder : string) (win : window)
  : option (window * dialog) :=
  if String.eqb folder "" || negb (exists_ fs folder) then
    Some (win, ShowError "Error" "Please select a valid folder!")
  else
    match get_folder_structure fs self fuel folder 0 with
    | None => None
    | Some structure_text =>
        Some ({| output_text := structure_text;
                 status_bar := "Done. Folder: " ++ folder |}, NoDialog)
    end.

End Gui.

(** The generator that walks as the window does: hidden entries excluded
    unless the box is ticked, files included if the box is ticked, no depth
    limit. *)
Definition generator_of_gui (g : Gui.FolderStructureGUI)
  : FolderStructureGenerator :=
  {| exclude_hidden := negb (Gui.include_hidden g); max_depth := None;
     include_files := Gui.include_files g |}.

(** A tree written the way the window writes: a directory as its name and a
    slash under the indentation of its depth, followed by its children one
    level deeper; a file entry with the connector of a child that is not
    last, an error node with the connector of a last child, both under the
    indentation of the directory that holds them. *)
Fixpoint gui_text (show_paths : bool) (depth : Z) (n : node) : string :=
  match n with
  | Directory name _ children =>
      Text.mul "    " depth ++ name ++ "/" ++ Text.nl ++
      fold_right
        (fun c rest =>
           (if is_directory c then gui_text show_paths (depth + 1) c
            else gui_text show_paths depth c) ++ rest)
        EmptyString children
  | FileEntry name path _ =>
      Text.mul "    " depth ++ "    ├── " ++
      (if show_paths then name ++ " (" ++ path ++ ")" else name) ++ Text.nl
  | ErrorNode name =>
      Text.mul "    " depth ++ "    └── " ++ name ++ Text.nl
  end.

(* ================================================================== *)
(** * The command line: export_txt, export_json and main *)

Module Cli.

(** Where [sys.stdout] points, and what a written file holds: the lines
    printed into it, or the value given to [json.dump]. *)
Inductive target : Type :=
| Console
| ToFile (name : string).

Inductive content : Type :=
| Text (lines : list string)
| Json (v : value).

(** The observable state: the texts printed on the console (one per
    [print] call), the files written (the latest binding of a name first)
    and the current [sys.stdout].  Opening a file for writing succeeds. *)
Record world : Type := {
  console : list string;
  disk : list (string * content);
  stdout : target
}.

Definition file_set (name : string) (c : content) (w : world) : world :=
  {| console := console w; disk := (name, c) :: disk w; stdout := stdout w |}.

Definition lines_of (w : world) (name : string) : list string :=
  match assoc name (disk w) with
  | Some (Text lines) => lines
  | _ => []
  end.

(** What a [print] call does to the state. *)
Definition write_line (text : string) (w : world) : world :=
  match stdout w with
  | Console =>
      {| console := console w ++ [text]; disk := disk w; stdout := Console |}
  | ToFile name => file_set name (Text (lines_of w name ++ [text])) w
  end.

(** A run ends normally or with the [KeyError] of a missing key. *)
Inductive outcome (A : Type) : Type :=
| Return (a : A)
| RaiseKeyError (key : string).
Arguments Return {A} a.
Arguments RaiseKeyError {A} key.

Definition prog (A : Type) : Type := world -> world * outcome A.

Definition ret {A : Type} (a : A) : prog A := fun w => (w, Return a).

Definition raise {A : Type} (key : string) : prog A :=
  fun w => (w, RaiseKeyError key).

Definition bind {A B : Type} (m : prog A) (k : A -> prog B) : prog B :=
  fun w =>
    match m w with
    | (w', Return a) => k a w'
    | (w', RaiseKeyError key) => (w', RaiseKeyError key)
    end.

Notation "x <- m ;; k" := (bind m (fun x => k))
  (at level 61, m at next level, right associativity).
Notation "m ;; k" := (bind m (fun _ => k))
  (at level 61, right associativity).

Definition print (text : string) : prog unit :=
  fun w => (write_line text w, Return tt).

Fixpoint print_all (lines : list string) : prog unit :=
  match lines with
  | [] => ret tt
  | line :: rest => print line ;; print_all rest
  end.

Definition get_stdout : prog target := fun w => (w, Return (stdout w)).

Definition set_stdout (t : target) : prog unit :=
  fun w => ({| console := console w; disk := disk w; stdout := t |},
            Return tt).

(** [open(output_file, 'w')]: the file is created or emptied. *)
Definition open_w (name : string) : prog unit :=
  fun w => (file_set name (Text []) w, Return tt).

(** [print_structure(structure, show_path=...)] on what [get_structure]
    returned: [structure["type"]] raises on the empty dictionary. *)
Definition print_structure_dict (s : structure) (show_path : bool)
  : prog unit :=
  match s with
  | None => raise "type"
  | Some n => print_all (print_structure n "" true show_path)
  end.

(** [get_summary(structure)]: [node["type"]] raises on the empty
    dictionary. *)
Definition get_summary_dict (s : structure) : prog stats :=
  match s with
  | None => raise "type"
  | Some n => ret (get_summary n)
  end.

(** The value [json.dump] receives for a structure. *)
Definition dumped (s : structure) : value := export_json s.

(** [export_json(structure, output_file)] *)
Definition export_json (s : structure) (output_file : string) : prog unit :=
  (fun w => (file_set output_file (Json (dumped s)) w, Return tt)) ;;
  print (Text.nl ++ "Structure exported to: " ++ output_file).

(** [export_txt(structure, output_file, show_path)] *)
Definition export_txt (s : structure) (output_file : string)
  (show_path : bool) : prog unit :=
  original_stdout <- get_stdout ;;
  open_w output_file ;;
  set_stdout (ToFile output_file) ;;
  print_structure_dict s show_path ;;
  set_stdout original_stdout ;;
  print (Text.nl ++ "Structure exported to: " ++ output_file).

(** [str(n)] of a counter. *)
Definition str_of_nat (n : nat) : string :=
  NilEmpty.string_of_uint (Nat.to_uint n).

(** The parsed arguments of [main]. *)
Record args : Type := {
  folder : string;
  output : option string;
  show_path : bool;
  all : bool;
  depth : option Z;
  no_files : bool;
  summary : bool
}.

Section Main.
(** [Path(name).suffix] of [pathlib]. *)
Variable suffix : string -> string.
Variable fs : filesystem.

Definition generator_of (a : args) : FolderStructureGenerator :=
  {| exclude_hidden := negb (all a); max_depth := depth a;
     include_files := negb (no_files a) |}.

Definition print_summary (s : structure) : prog unit :=
  stats <- get_summary_dict s ;;
  print (Text.nl ++ "Summary:") ;;
  print ("  Directories: " ++ str_of_nat (directories stats)) ;;
  print ("  Files: " ++ str_of_nat (files stats)) ;;
  if (0 <? errors stats)%nat
  then print ("  Errors: " ++ str_of_nat (errors stats))
  else ret tt.

Definition export (a : args) (s : structure) : prog unit :=
  match output a with
  | None => ret tt
  | Some out =>
      if String.eqb out "" then ret tt
      else if String.eqb (Str.lower (suffix out)) ".json"
      then export_json s out
      else
        export_txt s
          (if String.eqb (Str.lower (suffix out)) ".txt" then out
           else out ++ ".txt")
          (show_path a)
  end.

(** [main] from the walk on. *)
Definition report (a : args) (s : structure) : prog unit :=
  print (Text.nl ++ "Folder Structure:" ++ Text.nl) ;;
  print_structure_dict s (show_path a) ;;
  (if summary a then print_summary s else ret tt) ;;
  export a s.

(** [main()], the arguments parsed; [None] when the fuel of the walk is
    used up. *)
Definition main (fuel : nat) (a : args) (w : world)
  : option (world * outcome unit) :=
  if negb (exists_ fs (folder a)) then
    Some (print ("Error: Folder '" ++ folder a ++ "' does not exist!") w)
  else if negb (isdir fs (folder a)) then
    Some (print ("Error: '" ++ folder a ++ "' is not a folder!") w)
  else
    let w1 :=
      write_line (Text.nl ++ "Analyzing folder: " ++ folder a) w in
    match get_structure fs (generator_of a) fuel (folder a) 0 with
    | None => None
    | Some s => Some (report a s w1)
    end.
End Main.

(** The lines [main] prints for the summary of a tree. *)
Definition summary_lines (n : node) : list string :=
  let stats := get_summary n in
  let head :=
    [Text.nl ++ "Summary:";
     "  Directories: " ++ str_of_nat (directories stats);
     "  Files: " ++ str_of_nat (files stats)] in
  let tail :=
    if (0 <? errors stats)%nat
    then ["  Errors: " ++ str_of_nat (errors stats)]
    else [] in
  (head ++ tail)%list.

(** The name [main] writes the text export to. *)
Definition text_name (suffix : string -> string) (out : string) : string :=
  if String.eqb (Str.lower (suffix out)) ".txt" then out else out ++ ".txt".

(** The line [main] prints after an export, if any. *)
Definition export_lines (suffix : string -> string) (a : args)
  : list string :=
  match output a with
  | None => []
  | Some out =>
      if String.eqb out "" then []
      else if String.eqb (Str.lower (suffix out)) ".json"
      then [Text.nl ++ "Structure exported to: " ++ out]
      else [Text.nl ++ "Structure exported to: " ++ text_name suffix out]
  end.

(** What a run of [main] that shows the tree [n] leaves on the disk: nothing
    new without an output name; the value of the tree under the given name
    for a [.json] name; otherwise the lines of the tree, as they are shown,
    under the text name, the other files being untouched. *)
Definition exported (suffix : string -> string) (a : args) (n : node)
  (before after : list (string * content)) : Prop :=
  match output a with
  | None => after = before
  | Some out =>
      if String.eqb out "" then after = before
      else if String.eqb (Str.lower (suffix out)) ".json"
      then after = (out, Json (dumped (Some n))) :: before
      else
        assoc (text_name suffix out) after =
          Some (Text (print_structure n "" true (show_path a))) /\
        forall other, other <> text_name suffix out ->
          assoc other after = assoc other before
  end.

(** The console of a fresh run. *)
Definition start : world :=
  {| console := []; disk := []; stdout := Console |}.

(** A suffix in the manner of [pathlib] for names without separator: from
    the last dot on, when that dot is neither first nor last. *)
Fixpoint after_last_dot (s : string) : option string :=
  match s with
  | EmptyString => None
  | String c r =>
      match after_last_dot r with
      | Some t => Some t
      | None => if Ascii.eqb c "." then Some s else None
      end
  end.

Definition name_suffix (name : string) : string :=
  match name with
  | EmptyString => EmptyString
  | String c r =>
      match after_last_dot r with
      | Some (String _ (String x t)) => String "." (String x t)
      | _ => EmptyString
      end
  end.

End Cli.

(* ================================================================== *)
(** * json.dump(structure, f, indent=2, ensure_ascii=False)

    The characters written into the file by [export_json]: the chunks of
    [JSONEncoder(indent=2, ensure_ascii=False).iterencode(structure)], one
    after the other.  The file is opened with [encoding='utf-8'], so a
    character outside ASCII is written as its bytes in the [str]. *)

Module Json.

(** The double quote and the backslash. *)
Definition quote : ascii := "034"%char.
Definition backslash : ascii := "092"%char.

(** One digit of ['{0:04x}'.format(i)]. *)
Definition hex_digit (n : nat) : ascii :=
  match n with
  | 0 => "0" | 1 => "1" | 2 => "2" | 3 => "3" | 4 => "4" | 5 => "5"
  | 6 => "6" | 7 => "7" | 8 => "8" | 9 => "9" | 10 => "a" | 11 => "b"
  | 12 => "c" | 13 => "d" | 14 => "e" | _ => "f"
  end%nat%char.

(** [ESCAPE_DCT]: what [ESCAPE.sub] puts for a character that [ESCAPE]
    matches: the double quote, the backslash and the characters below
    [0x20], of which backspace, form feed, line feed, carriage return and
    tab have a letter and the others the form [u00XX]; every other
    character is kept. *)
Definition escape_char (c : ascii) : string :=
  if Ascii.eqb c quote then String backslash (String quote "")
  else if Ascii.eqb c backslash then String backslash (String backslash "")
  else if Ascii.eqb c "008" then String backslash "b"
  else if Ascii.eqb c "012" then String backslash "f"
  else if Ascii.eqb c "010" then String backslash "n"
  else if Ascii.eqb c "013" then String backslash "r"
  else if Ascii.eqb c "009" then String backslash "t"
  else
    let n := nat_of_ascii c in
    if (n <? 32)%nat
    then String backslash
           ("u00" ++ String (hex_digit (n / 16))
                       (String (hex_digit (n mod 16)) ""))
    else String c "".

Fixpoint escape (s : string) : string :=
  match s with
  | EmptyString => EmptyString
  | String c r => escape_char c ++ escape r
  end.

(** [py_encode_basestring(s)]: [ESCAPE.sub(replace, s)] between two double
    quotes. *)
Definition encode_basestring (s : string) : string :=
  String quote (escape s ++ String quote "").

(** [int.__repr__(o)] *)
Definition intstr (z : Z) : string := NilZero.string_of_int (Z.to_int z).

(** ['\n' + _indent * _current_indent_level], with [_indent = ' ' * 2] *)
Definition newline_indent (level : Z) : string :=
  Text.nl ++ Text.mul "  " level.

Section Items.
Context {A : Type}.
Variable encode : A -> string.
Variable separator : string.

(** The chunks of a loop over the items: the separator before every item
    but the first. *)
Fixpoint items (l : list A) : string :=
  match l with
  | [] => ""
  | x :: r =>
      match r with
      | [] => encode x
      | _ => encode x ++ separator ++ items r
      end
  end.
End Items.

(** [_iterencode(o, _current_indent_level)] of [_make_iterencode], for
    [indent=2] (item separator [','], key separator [': ']) and
    [ensure_ascii=False]; the chunks yielded, one after the other. *)
Fixpoint iterencode (level : Z) (o : value) {struct o} : string :=
  match o with
  | VStr s => encode_basestring s
  | VInt z => intstr z
  | VList lst =>
      match lst with
      | [] => "[]"
      | _ =>
          "[" ++ newline_indent (level + 1)
              ++ items (iterencode (level + 1))
                   ("," ++ newline_indent (level + 1)) lst
              ++ newline_indent level ++ "]"
      end
  | VDict dct =>
      match dct with
      | [] => "{}"
      | _ =>
          "{" ++ newline_indent (level + 1)
              ++ items (fun kv => encode_basestring (fst kv) ++ ": "
                                    ++ iterencode (level + 1) (snd kv))
                   ("," ++ newline_indent (level + 1)) dct
              ++ newline_indent level ++ "}"
      end
  end.

(** The text written by [json.dump(o, f, indent=2, ensure_ascii=False)]. *)
Definition dump (o : value) : string := iterencode 0 o.

(** ** Reading the text back

    The repository writes the file and never reads it.  The reader below is
    the counterpart that the round trip of the export needs: it reads one
    value of the grammar that [iterencode] writes (strings with their
    escapes, integers, lists, dictionaries, white space between the
    tokens). *)

(** Modelled from the spec: the repository has no reader; the white space
    between tokens. *)
Definition is_ws (c : ascii) : bool :=
  Ascii.eqb c " " || Ascii.eqb c "010" || Ascii.eqb c "013"
  || Ascii.eqb c "009".

(** Modelled from the spec: the repository has no reader; the text from
    its first character that is not white space. *)
Fixpoint skip_ws (s : string) : string :=
  match s with
  | EmptyString => EmptyString
  | String c r => if is_ws c then skip_ws r else s
  end.

(** Modelled from the spec: the repository has no reader; the value of a
    hexadecimal digit. *)
Definition hex_value (c : ascii) : option nat :=
  let n := nat_of_ascii c in
  if (48 <=? n)%nat && (n <=? 57)%nat then Some (n - 48)%nat
  else if (97 <=? n)%nat && (n <=? 102)%nat then Some (n - 87)%nat
  else if (65 <=? n)%nat && (n <=? 70)%nat then Some (n - 55)%nat
  else None.

(** Modelled from the spec: the repository has no reader; the character
    that the letter of an escape stands for. *)
Definition unescape (e : ascii) : option ascii :=
  if Ascii.eqb e quote then Some quote
  else if Ascii.eqb e backslash then Some backslash
  else if Ascii.eqb e "/" then Some "/"%char
  else if Ascii.eqb e "b" then Some "008"%char
  else if Ascii.eqb e "f" then Some "012"%char
  else if Ascii.eqb e "n" then Some "010"%char
  else if Ascii.eqb e "r" then Some "013"%char
  else if Ascii.eqb e "t" then Some "009"%char
  else None.

(** Modelled from the spec: the repository has no reader; one more
    character in front of what was read. *)
Definition prepend (c : ascii) (x : string * string) : string * string :=
  (String c (fst x), snd x).

(** Modelled from the spec: the repository has no reader; the characters
    of a string up to its closing quote, escapes undone (an escape [uXXXX]
    is read for the characters below 128, the only ones written so). *)
Fixpoint read_string (s : string) : option (string * string) :=
  match s with
  | EmptyString => None
  | String c r =>
      if Ascii.eqb c quote then Some (EmptyString, r)
      else if Ascii.eqb c backslash then
        match r with
        | EmptyString => None
        | String e r1 =>
            if Ascii.eqb e "u" then
              match r1 with
              | String h1 (String h2 (String h3 (String h4 r2))) =>
                  match hex_value h1, hex_value h2, hex_value h3,
                        hex_value h4 with
                  | Some 0%nat, Some 0%nat, Some a, Some b =>
                      if (a <? 8)%nat
                      then option_map (prepend (ascii_of_nat (16 * a + b)))
                             (read_string r2)
                      else None
                  | _, _, _, _ => None
                  end
              | _ => None
              end
            else
              match unescape e with
              | Some c' => option_map (prepend c') (read_string r1)
              | None => None
              end
        end
      else option_map (prepend c) (read_string r)
  end.

(** Modelled from the spec: the repository has no reader; the decimal
    digits. *)
Definition is_digit (c : ascii) : bool :=
  let n := nat_of_ascii c in (48 <=? n)%nat && (n <=? 57)%nat.

(** Modelled from the spec: the repository has no reader; the longest
    prefix of digits, and what follows it. *)
Fixpoint digits (s : string) : string * string :=
  match s with
  | EmptyString => (EmptyString, EmptyString)
  | String c r => if is_digit c then prepend c (digits r) else (EmptyString, s)
  end.

(** Modelled from the spec: the repository has no reader; a sequence of
    at least one digit. *)
Definition read_uint (s : string) : option (Decimal.uint * string) :=
  let (ds, rest) := digits s in
  match ds with
  | EmptyString => None
  | _ => option_map (fun d => (d, rest)) (NilEmpty.uint_of_string ds)
  end.

(** Modelled from the spec: the repository has no reader; an integer,
    with its minus sign if it has one. *)
Definition read_int (s : string) : option (Z * string) :=
  match s with
  | EmptyString => None
  | String c r =>
      if Ascii.eqb c "-"
      then option_map (fun dr => (Z.of_int (Decimal.Neg (fst dr)), snd dr))
             (read_uint r)
      else option_map (fun dr => (Z.of_int (Decimal.Pos (fst dr)), snd dr))
             (read_uint s)
  end.

(** Modelled from the spec: the repository has no reader; a value, the
    elements of a list after its bracket, and the members of a dictionary
    after its brace.  The fuel bounds the nesting and the number of
    items. *)
Fixpoint read_value (fuel : nat) (s : string) {struct fuel}
  : option (value * string) :=
  match fuel with
  | O => None
  | S fuel' =>
      match skip_ws s with
      | EmptyString => None
      | String c r =>
          if Ascii.eqb c quote then
            option_map (fun xr => (VStr (fst xr), snd xr)) (read_string r)
          else if Ascii.eqb c "[" then
            match skip_ws r with
            | EmptyString => None
            | String c' r' =>
                if Ascii.eqb c' "]" then Some (VList [], r')
                else option_map (fun lr => (VList (fst lr), snd lr))
                       (read_elements fuel' r)
            end
          else if Ascii.eqb c "{" then
            match skip_ws r with
            | EmptyString => None
            | String c' r' =>
                if Ascii.eqb c' "}" then Some (VDict [], r')
                else option_map (fun lr => (VDict (fst lr), snd lr))
                       (read_members fuel' r)
            end
          else
            option_map (fun zr => (VInt (fst zr), snd zr))
              (read_int (String c r))
      end
  end
with read_elements (fuel : nat) (s : string) {struct fuel}
  : option (list value * string) :=
  match fuel with
  | O => None
  | S fuel' =>
      match read_value fuel' s with
      | None => None
      | Some (x, r) =>
          match skip_ws r with
          | EmptyString => None
          | String c r' =>
              if Ascii.eqb c "," then
                option_map (fun lr => (x :: fst lr, snd lr))
                  (read_elements fuel' r')
              else if Ascii.eqb c "]" then Some ([x], r')
              else None
          end
      end
  end
with read_members (fuel : nat) (s : string) {struct fuel}
  : option (list (string * value) * string) :=
  match fuel with
  | O => None
  | S fuel' =>
      match skip_ws s with
      | EmptyString => None
      | String c r =>
          if Ascii.eqb c quote then
            match read_string r with
            | None => None
            | Some (k, r1) =>
                match skip_ws r1 with
                | EmptyString => None
                | String c1 r2 =>
                    if Ascii.eqb c1 ":" then
                      match read_value fuel' r2 with
                      | None => None
                      | Some (x, r3) =>
                          match skip_ws r3 with
                          | EmptyString => None
                          | String c3 r4 =>
                              if Ascii.eqb c3 "," then
                                option_map
                                  (fun lr => ((k, x) :: fst lr, snd lr))
                                  (read_members fuel' r4)
                              else if Ascii.eqb c3 "}"
                                   then Some ([(k, x)], r4)
                              else None
                          end
                      end
                    else None
                end
            end
          else None
      end
  end.

(** Modelled from the spec: the repository has no reader; the value a text
    stands for: one value, then nothing but white space. *)
Definition load (text : string) : option value :=
  match read_value (S (String.length text)) text with
  | Some (v, rest) =>
      match skip_ws rest with
      | EmptyString => Some v
      | _ => None
      end
  | None => None
  end.

End Json.

(** The characters of a file of the disk: the text of [json.dump] for the
    value it was given, or the printed texts, each with the line feed that
    [print] puts after it. *)
Definition file_characters (c : Cli.content) : string :=
  match c with
  | Cli.Text lines =>
      String.concat "" (map (fun line => line ++ Text.nl) lines)
  | Cli.Json v => Json.dump v
  end.

(** The characters of the file that [export_json] writes for a structure. *)
Definition export_json_text (s : structure) : string :=
  Json.dump (export_json s).

(** Modelled from the spec: the repository has no function that builds a
    tree from an exported file; the tree that the text of a file stands
    for. *)
Definition reconstruct_text (text : string) : option structure :=
  match Json.load text with
  | Some v => reconstruct v
  | None => None
  end.

(** A string between two double quotes. *)
Definition quoted (s : string) : string :=
  String Json.quote (s ++ String Json.quote "").

(* ================================================================== *)
(** * Strings and paths *)

Module StrFacts.
Import Str PosixPath.

Lemma has_sep_app (a b : string) :
  has_sep (a ++ b) = has_sep a || has_sep b.
Proof.
  induction a as [|c a IH]; simpl; [reflexivity|].
  now rewrite IH, orb_assoc.
Qed.

Lemma endswith_has_sep (a : string) :
  endswith_sep a = true -> has_sep a = true.
Proof.
  induction a as [|c a IH]; simpl; [discriminate|].
  destruct a as [|c' a'].
  - intros ->. reflexivity.
  - intros H. rewrite (IH H). apply orb_true_r.
Qed.

Lemma basename_no_sep (x : string) :
  has_sep x = false -> basename x = x.
Proof.
  destruct x as [|c x]; simpl; [reflexivity|].
  intros H. apply orb_false_elim in H as [Hc Hx].
  now rewrite Hx, Hc.
Qed.

Lemma basename_app_sep (a x : string) :
  has_sep x = false -> basename (a ++ "/" ++ x) = x.
Proof.
  intros Hx. induction a as [|c a IH]; simpl.
  - now rewrite Hx.
  - rewrite has_sep_app. simpl. rewrite orb_true_r. exact IH.
Qed.

Lemma basename_app_endswith (a x : string) :
  endswith_sep a = true -> has_sep x = false -> basename (a ++ x) = x.
Proof.
  intros Ha Hx. induction a as [|c a IH]; [discriminate|].
  destruct a as [|c' a'].
  - simpl in Ha. simpl. now rewrite Hx, Ha.
  - change (endswith_sep (String c' a') = true) in Ha.
    change (String c (String c' a') ++ x)
      with (String c (String c' a' ++ x)).
    cbn [basename]. rewrite has_sep_app, (endswith_has_sep _ Ha).
    simpl. now apply IH.
Qed.

Lemma startswith_sep_has_sep (x : string) :
  startswith x "/" = true -> has_sep x = true.
Proof.
  destruct x as [|c x]; [discriminate|].
  unfold startswith. cbn [String.prefix].
  destruct (ascii_dec "/" c) as [Hc|Hc]; [|discriminate].
  intros _. subst c. reflexivity.
Qed.

(** A listed name is the base name of its joined path. *)
Lemma basename_join (root x : string) :
  has_sep x = false -> basename (join root x) = x.
Proof.
  intros Hx. unfold join.
  destruct (startswith x "/") eqn:Hs.
  - apply startswith_sep_has_sep in Hs. congruence.
  - destruct (String.eqb root "") eqn:He; simpl.
    + apply String.eqb_eq in He. subst. simpl. now apply basename_no_sep.
    + destruct (endswith_sep root) eqn:Hend.
      * now apply basename_app_endswith.
      * now apply basename_app_sep.
Qed.

End StrFacts.

(* ================================================================== *)
(** * The order of the sort keys *)

Module OrderFacts.
Import PyList.

Lemma compare_refl (s : string) : String.compare s s = Eq.
Proof.
  induction s as [|c s IH]; simpl; [reflexivity|].
  unfold Ascii.compare. now rewrite N.compare_refl.
Qed.

Lemma compare_le_trans (a b c : string) :
  String.compare a b <> Gt -> String.compare b c <> Gt ->
  String.compare a c <> Gt.
Proof.
  revert b c.
  induction a as [|x a IH]; intros [|y b] [|z c]; simpl;
    try congruence.
  unfold Ascii.compare.
  destruct (N.compare_spec (N_of_ascii x) (N_of_ascii y)) as [E1|L1|G1];
    destruct (N.compare_spec (N_of_ascii y) (N_of_ascii z)) as [E2|L2|G2];
    destruct (N.compare_spec (N_of_ascii x) (N_of_ascii z)) as [E3|L3|G3];
    try congruence; try lia.
  apply IH.
Qed.

Lemma ltb_false_leb (a b : string) :
  String.ltb a b = false <-> String.leb b a = true.
Proof.
  unfold String.ltb, String.leb. rewrite (String.compare_antisym a b).
  destruct (String.compare b a); simpl; split; congruence.
Qed.

Lemma leb_trans (a b c : string) :
  String.leb a b = true -> String.leb b c = true -> String.leb a c = true.
Proof.
  unfold String.leb. intros H1 H2.
  assert (H : String.compare a c <> Gt).
  { apply (compare_le_trans a b c).
    - destruct (String.compare a b); congruence.
    - destruct (String.compare b c); congruence. }
  destruct (String.compare a c); congruence.
Qed.

Lemma ltb_irrefl (a : string) : String.ltb a a = false.
Proof. unfold String.ltb. now rewrite compare_refl. Qed.

Lemma ltb_asym (a b : string) :
  String.ltb a b = true -> String.ltb b a = false.
Proof.
  unfold String.ltb. rewrite (String.compare_antisym b a).
  destruct (String.compare a b); simpl; congruence.
Qed.

Lemma tuple_lt_irrefl (a : bool * string) : tuple_lt a a = false.
Proof.
  destruct a as [[] s]; unfold tuple_lt; simpl; apply ltb_irrefl.
Qed.

Lemma tuple_lt_asym (a b : bool * string) :
  tuple_lt a b = true -> tuple_lt b a = false.
Proof.
  destruct a as [[] s], b as [[] s']; unfold tuple_lt; simpl;
    try congruence; apply ltb_asym.
Qed.

(** "Not below" is transitive: the keys are totally pre-ordered. *)
Lemma tuple_ge_trans (a b c : bool * string) :
  tuple_lt b a = false -> tuple_lt c b = false -> tuple_lt c a = false.
Proof.
  destruct a as [[] s], b as [[] s'], c as [[] s'']; unfold tuple_lt;
    simpl; try congruence;
    rewrite !ltb_false_leb; intros H1 H2; eapply leb_trans; eauto.
Qed.

End OrderFacts.

(* ================================================================== *)
(** * list.sort: permutation, order, stability *)

Module SortFacts.
Import PyList OrderFacts.

Section WithKey.
Context {A : Type} (key : A -> bool * string).

Lemma insert_perm (x : A) (l : list A) :
  Permutation (insert key x l) (x :: l).
Proof.
  induction l as [|y l IH]; simpl; [reflexivity|].
  destruct (tuple_lt (key y) (key x)); [|reflexivity].
  rewrite IH. apply perm_swap.
Qed.

Lemma sort_perm (l : list A) : Permutation (sort key l) l.
Proof.
  induction l as [|x l IH]; simpl; [reflexivity|].
  rewrite insert_perm. now apply perm_skip.
Qed.

Lemma sort_In (l : list A) (x : A) : In x (sort key l) <-> In x l.
Proof.
  split; apply Permutation_in;
    [apply sort_perm | apply Permutation_sym, sort_perm].
Qed.

Lemma sort_Forall (P : A -> Prop) (l : list A) :
  Forall P l -> Forall P (sort key l).
Proof.
  intros H. eapply Permutation_Forall; [|exact H].
  apply Permutation_sym, sort_perm.
Qed.

Lemma insert_sorted (x : A) (l : list A) :
  StronglySorted (key_le key) l -> StronglySorted (key_le key) (insert key x l).
Proof.
  induction 1 as [|y l Hs IH Hy]; simpl.
  - repeat constructor.
  - destruct (tuple_lt (key y) (key x)) eqn:E.
    + constructor; [exact IH|].
      eapply Permutation_Forall;
        [apply Permutation_sym, insert_perm|].
      constructor; [|exact Hy].
      unfold key_le. now apply tuple_lt_asym.
    + constructor; [now constructor|].
      constructor; [exact E|].
      eapply Forall_impl; [|exact Hy].
      intros z Hz. unfold key_le in *.
      eapply tuple_ge_trans; eauto.
Qed.

Lemma sort_sorted (l : list A) : StronglySorted (key_le key) (sort key l).
Proof.
  induction l as [|x l IH]; simpl; [constructor|].
  now apply insert_sorted.
Qed.

(** Stability: the elements of one key keep their original order. *)
Lemma insert_filter (f : A -> bool) (x : A) (l : list A) :
  (forall y, tuple_lt (key y) (key x) = true -> f x = true -> f y = false) ->
  filter f (insert key x l) = filter f (x :: l).
Proof.
  intros Hf. induction l as [|y l IH]; [reflexivity|].
  simpl. destruct (tuple_lt (key y) (key x)) eqn:E; [|reflexivity].
  simpl. rewrite IH. simpl.
  destruct (f x) eqn:Fx; [|reflexivity].
  now rewrite (Hf y E eq_refl).
Qed.

Lemma sort_stable (k : bool * string) (l : list A) :
  filter (same_key key k) (sort key l) = filter (same_key key k) l.
Proof.
  induction l as [|x l IH]; [reflexivity|].
  simpl sort. rewrite insert_filter.
  - simpl. now rewrite IH.
  - intros y Hlt Hx. unfold same_key in *.
    apply andb_true_iff in Hx as [H1 H2].
    apply Bool.eqb_prop in H1. apply String.eqb_eq in H2.
    destruct (Bool.eqb (fst (key y)) (fst k)) eqn:E1; [|reflexivity].
    destruct (String.eqb (snd (key y)) (snd k)) eqn:E2; [|reflexivity].
    apply Bool.eqb_prop in E1. apply String.eqb_eq in E2.
    assert (key y = key x) as Heq.
    { destruct (key y), (key x); simpl in *; congruence. }
    rewrite Heq, tuple_lt_irrefl in Hlt. discriminate.
Qed.
End WithKey.

(** Sorting the names is sorting anything that carries them. *)
Lemma sort_map {A B : Type} (key : B -> bool * string) (f : A -> B)
  (l : list A) :
  sort key (map f l) = map f (sort (fun a => key (f a)) l).
Proof.
  induction l as [|x l IH]; [reflexivity|].
  simpl. rewrite IH. clear IH.
  induction (sort (fun a => key (f a)) l) as [|y r IHr]; [reflexivity|].
  simpl. destruct (tuple_lt (key (f y)) (key (f x))); [|reflexivity].
  simpl. now rewrite IHr.
Qed.

End SortFacts.

(* ================================================================== *)
(** * The walk *)

Lemma truthy_is_some (s : structure) : truthy s = is_some s.
Proof. destruct s as [[| |]|]; reflexivity. Qed.

Lemma appended_app (children : list node) (s : structure) :
  appended children s = (children ++ appended [] s)%list.
Proof. destruct s; simpl; [reflexivity|now rewrite app_nil_r]. Qed.

Section WalkFacts.
Variable fs : filesystem.
Variable self : FolderStructureGenerator.

Section LoopFacts.
Variable rec : string -> Z -> option structure.
Variable root_path : string.
Variable current_depth : Z.

Local Abbreviation loop' := (loop fs self rec root_path current_depth).
Local Abbreviation item_children' :=
  (item_children fs self rec root_path current_depth).

(** One iteration appends what the item contributes. *)
Lemma loop_step (item : string) (rest : list string)
  (children : list node) :
  loop' (item :: rest) children =
  match item_children' item with
  | None => None
  | Some c => loop' rest (children ++ c)
  end.
Proof.
  cbn [loop]. unfold item_children.
  destruct (exclude_hidden self &&
            is_hidden (PosixPath.join root_path item)).
  - now rewrite app_nil_r.
  - destruct (isdir fs (PosixPath.join root_path item)).
    + destruct (rec _ _) as [s|]; [|reflexivity].
      rewrite truthy_is_some. destruct s; simpl; [reflexivity|].
      now rewrite app_nil_r.
    + destruct (include_files self); [reflexivity|].
      now rewrite app_nil_r.
Qed.

(** The children so far are only extended. *)
Lemma loop_acc (items : list string) (children : list node) :
  loop' items children = option_map (app children) (loop' items []).
Proof.
  revert children.
  induction items as [|item rest IH]; intros children.
  - simpl. now rewrite app_nil_r.
  - rewrite !loop_step. destruct (item_children' item) as [c|];
      [|reflexivity].
    rewrite (IH (children ++ c)%list), (IH ([] ++ c)%list). simpl.
    destruct (loop' rest []); simpl; [|reflexivity].
    now rewrite app_assoc.
Qed.

Lemma loop_cons (item : string) (rest : list string) :
  loop' (item :: rest) [] =
  match item_children' item with
  | None => None
  | Some c => option_map (app c) (loop' rest [])
  end.
Proof.
  rewrite loop_step. destruct (item_children' item) as [c|];
    [|reflexivity].
  apply loop_acc.
Qed.

(** Every child comes from one of the items. *)
Lemma loop_In (items : list string) (children : list node) (n : node) :
  loop' items [] = Some children -> In n children ->
  exists item c, In item items /\ item_children' item = Some c /\ In n c.
Proof.
  revert children.
  induction items as [|item rest IH]; intros children.
  - simpl. intros [= <-] [].
  - rewrite loop_cons.
    destruct (item_children' item) as [c|] eqn:Hc; [|discriminate].
    destruct (loop' rest []) as [cs|] eqn:Hr; [|discriminate].
    simpl. intros [= <-] Hin. apply in_app_or in Hin as [Hin|Hin].
    + exists item, c. auto.
    + destruct (IH cs eq_refl Hin) as (item' & c' & H1 & H2 & H3).
      exists item', c'. auto.
Qed.

(** Every contribution of an item is among the children. *)
Lemma loop_complete (items : list string) (children : list node)
  (item : string) (c : list node) (n : node) :
  loop' items [] = Some children -> In item items ->
  item_children' item = Some c -> In n c -> In n children.
Proof.
  revert children.
  induction items as [|item' rest IH]; intros children; [intros _ []|].
  rewrite loop_cons.
  destruct (item_children' item') as [c'|] eqn:Hc'; [|discriminate].
  destruct (loop' rest []) as [cs|] eqn:Hr; [|discriminate].
  simpl. intros [= <-] [->|Hin] Hc Hn; apply in_or_app.
  - left. congruence.
  - right. eapply IH; eauto.
Qed.
End LoopFacts.

Local Abbreviation walk := (get_structure fs self).

Lemma get_structure_S (fuel : nat) (root_path : string) (d : Z) :
  walk (S fuel) root_path d =
  get_structure_body fs self (walk fuel) root_path d.
Proof. reflexivity. Qed.

(** At the depth limit the walk returns [{}], with any fuel at all. *)
Lemma get_structure_reached (fuel : nat) (root_path : string) (d : Z) :
  depth_reached self d = true -> walk (S fuel) root_path d = Some None.
Proof.
  intros H. rewrite get_structure_S. unfold get_structure_body.
  now rewrite H.
Qed.

(** The two shapes of a result: [{}] at the depth limit, and below it a
    directory named and located after the path walked. *)
Lemma get_structure_shape (fuel : nat) (root_path : string) (d : Z)
  (r : structure) :
  walk fuel root_path d = Some r ->
  (depth_reached self d = true /\ r = None) \/
  (depth_reached self d = false /\
   exists children,
     r = Some (Directory (PosixPath.basename root_path) root_path children)).
Proof.
  destruct fuel as [|fuel]; [discriminate|].
  rewrite get_structure_S. unfold get_structure_body.
  destruct (depth_reached self d).
  - intros [= <-]. now left.
  - right. split; [reflexivity|].
    destruct (listdir fs root_path) as [items|e].
    + destruct (loop _ _ _ _ _ _ _) as [children|]; [|discriminate].
      injection H as <-. now exists children.
    + injection H as <-. now eexists.
Qed.

(** More fuel does not change a result. *)
Lemma loop_rec_mono (rec rec' : string -> Z -> option structure)
  (root_path : string) (d : Z) :
  (forall p d' r, rec p d' = Some r -> rec' p d' = Some r) ->
  forall items children cs,
    loop fs self rec root_path d items children = Some cs ->
    loop fs self rec' root_path d items children = Some cs.
Proof.
  intros Hrec items.
  induction items as [|item rest IH]; intros children cs; [auto|].
  rewrite !loop_step. unfold item_children.
  destruct (exclude_hidden self && is_hidden _); [apply IH|].
  destruct (isdir fs _); [|destruct (include_files self); apply IH].
  destruct (rec _ _) as [s|] eqn:Hs; [|discriminate].
  rewrite (Hrec _ _ _ Hs). apply IH.
Qed.

Lemma get_structure_mono_S (fuel : nat) :
  forall root_path d r,
    walk fuel root_path d = Some r -> walk (S fuel) root_path d = Some r.
Proof.
  induction fuel as [|fuel IH]; intros root_path d r; [discriminate|].
  rewrite (get_structure_S (S fuel)), (get_structure_S fuel).
  unfold get_structure_body.
  destruct (depth_reached self d); [auto|].
  destruct (listdir fs root_path) as [items|e]; [|auto].
  destruct (loop fs self (walk fuel) _ _ _ _) as [cs|] eqn:Hl;
    [|discriminate].
  now rewrite (loop_rec_mono _ _ _ _ IH _ _ _ Hl).
Qed.

Lemma get_structure_mono (fuel fuel' : nat) (root_path : string) (d : Z)
  (r : structure) :
  (fuel <= fuel')%nat ->
  walk fuel root_path d = Some r -> walk fuel' root_path d = Some r.
Proof.
  induction 1 as [|fuel' _ IH]; [auto|].
  intros H. now apply get_structure_mono_S, IH.
Qed.
End WalkFacts.


(* ================================================================== *)
(** * Trees: induction and nodes *)

Section NodeInduction.
Variable P : node -> Prop.
Hypothesis P_directory :
  forall name path children,
    Forall P children -> P (Directory name path children).
Hypothesis P_file : forall name path size, P (FileEntry name path size).
Hypothesis P_error : forall name, P (ErrorNode name).

Fixpoint node_induction (n : node) : P n :=
  match n with
  | Directory name path children =>
      P_directory name path children
        ((fix all (l : list node) : Forall P l :=
            match l with
            | [] => Forall_nil P
            | c :: r => Forall_cons c (node_induction c) (all r)
            end) children)
  | FileEntry name path size => P_file name path size
  | ErrorNode name => P_error name
  end.
End NodeInduction.

Lemma error_node_is_error (e : exn) : is_error (error_node e) = true.
Proof. destruct e; reflexivity. Qed.

Lemma preorder_leaf (n : node) :
  is_directory n = false -> preorder n = [n].
Proof. destruct n; [discriminate|reflexivity|reflexivity]. Qed.

(* ================================================================== *)
(** * Where the children come from *)

Section Origins.
Variable fs : filesystem.
Variable self : FolderStructureGenerator.
Variable rec : string -> Z -> option structure.
Variable root_path : string.
Variable current_depth : Z.

(** A contributed node is the walk of a sub-directory or the entry of a
    file; the item was not filtered as hidden. *)
Lemma item_children_inv (item : string) (c : list node) (n : node) :
  item_children fs self rec root_path current_depth item = Some c ->
  In n c ->
  (exclude_hidden self && is_hidden (PosixPath.join root_path item)) = false
  /\
  ((isdir fs (PosixPath.join root_path item) = true /\
    rec (PosixPath.join root_path item) (current_depth + 1) = Some (Some n))
   \/
   (isdir fs (PosixPath.join root_path item) = false /\
    include_files self = true /\
    n = FileEntry item (PosixPath.join root_path item)
          (if exists_ fs (PosixPath.join root_path item)
           then getsize fs (PosixPath.join root_path item) else 0))).
Proof.
  unfold item_children.
  destruct (exclude_hidden self && is_hidden _); [intros [= <-] []|].
  destruct (isdir fs _).
  - destruct (rec _ _) as [[m|]|]; simpl; try discriminate.
    + intros [= <-] [<-|[]]. auto.
    + intros [= <-] [].
  - destruct (include_files self); [|intros [= <-] []].
    intros [= <-] [<-|[]]. auto.
Qed.
End Origins.

(* ================================================================== *)
(** * An invariant of every directory of a result *)

Section Invariant.
Variable fs : filesystem.
Variable self : FolderStructureGenerator.

(** [Q path children] is to hold of every directory node of a result. *)
Variable Q : string -> list node -> Prop.

Hypothesis Q_listed :
  forall rec root_path d items children,
    listdir fs root_path = Ok items ->
    (forall p d' r, rec p d' = Some (Some r) ->
       exists cs, r = Directory (PosixPath.basename p) p cs) ->
    loop fs self rec root_path d
      (PyList.sort (sort_key fs root_path) items) [] = Some children ->
    Q root_path children.

Hypothesis Q_failed :
  forall root_path e,
    listdir fs root_path = Raise e -> Q root_path [error_node e].

Lemma get_structure_invariant (fuel : nat) :
  forall root_path d t,
    get_structure fs self fuel root_path d = Some (Some t) ->
    forall name path children,
      In (Directory name path children) (preorder t) -> Q path children.
Proof.
  induction fuel as [|fuel IH]; intros root_path d t; [discriminate|].
  rewrite get_structure_S. unfold get_structure_body.
  destruct (depth_reached self d); [discriminate|].
  destruct (listdir fs root_path) as [items|e] eqn:Hls.
  - destruct (loop _ _ _ _ _ _ _) as [cs|] eqn:Hloop; [|discriminate].
    intros [= <-] name path children [Heq|Hin].
    + injection Heq as <- <- <-.
      eapply Q_listed; eauto.
      intros p d' r Hr.
      destruct (get_structure_shape _ _ _ _ _ _ Hr) as [[_ ?]|[_ ?]];
        [discriminate|].
      destruct H as [cs' [= ->]]. now exists cs'.
    + apply in_flat_map in Hin as (c & Hc & Hin).
      destruct (loop_In _ _ _ _ _ _ _ _ Hloop Hc) as (item & cl & _ & H1 & H2).
      destruct (item_children_inv _ _ _ _ _ _ _ _ H1 H2)
        as [_ [[_ Hrec]|(_ & _ & ->)]].
      * eapply IH; eauto.
      * destruct Hin as [[=]|[]].
  - intros [= <-] name path children [Heq|Hin].
    + injection Heq as <- <- <-. now apply Q_failed.
    + simpl in Hin. rewrite app_nil_r in Hin.
      rewrite preorder_leaf in Hin by
        (pose proof (error_node_is_error e); now destruct (error_node e)).
      destruct Hin as [Heq|[]].
      pose proof (error_node_is_error e) as He. rewrite Heq in He.
      discriminate.
Qed.
End Invariant.


(* ================================================================== *)
(** * Finite file systems: the walk returns *)

Section Finite.
Variable fs : filesystem.
Variable self : FolderStructureGenerator.

Lemma describes_isdir (t : fstree) (p : string) :
  describes fs t p -> isdir fs p = is_tdir t.
Proof. destruct t; simpl; tauto. Qed.

Lemma describes_entries (entries : list (string * fstree)) (p : string) :
  describes fs (TDir entries) p ->
  Forall (fun xk => describes fs (snd xk) (PosixPath.join p (fst xk))) entries.
Proof.
  intros (_ & _ & H).
  induction entries as [|[x k] r IH]; constructor.
  - exact (proj1 H).
  - exact (IH (proj2 H)).
Qed.

Lemma levels_entries (entries : list (string * fstree)) (fuel : nat) :
  (levels (TDir entries) <= S fuel)%nat ->
  Forall (fun xk => (levels (snd xk) <= fuel)%nat) entries.
Proof.
  cbn [levels]. intros H. apply le_S_n in H.
  induction entries as [|xk r IH]; constructor; simpl in H.
  - lia.
  - apply IH. lia.
Qed.

Lemma loop_total (fuel : nat) (root_path : string) (d : Z) :
  (forall t p d', describes fs t p -> is_tdir t = true ->
     (levels t <= fuel)%nat ->
     exists r, get_structure fs self fuel p d' = Some r) ->
  forall (es : list (string * fstree)) (children : list node),
    Forall (fun xk => describes fs (snd xk) (PosixPath.join root_path (fst xk)))
      es ->
    Forall (fun xk => (levels (snd xk) <= fuel)%nat) es ->
    exists cs,
      loop fs self (get_structure fs self fuel) root_path d (map fst es)
        children = Some cs.
Proof.
  intros Hrec es.
  induction es as [|[x k] es IH]; intros children Hd Hl.
  - now exists children.
  - inversion Hd as [|? ? Hk Hd']; inversion Hl as [|? ? Lk Hl']; subst.
    simpl in Hk, Lk. cbn [map fst]. rewrite loop_step.
    unfold item_children.
    destruct (exclude_hidden self && is_hidden _); [now apply IH|].
    destruct (isdir fs _) eqn:Hdir.
    + rewrite (describes_isdir _ _ Hk) in Hdir.
      destruct (Hrec k _ (d + 1) Hk Hdir Lk) as [r ->]. now apply IH.
    + destruct (include_files self); now apply IH.
Qed.

(** With fuel for its levels, the walk of a described directory returns. *)
Lemma get_structure_terminates (fuel : nat) :
  forall t p d, describes fs t p -> is_tdir t = true ->
    (levels t <= fuel)%nat ->
    exists r, get_structure fs self fuel p d = Some r.
Proof.
  induction fuel as [|fuel IH]; intros t p d Hd Ht Hl.
  - destruct t; simpl in *; try discriminate; lia.
  - rewrite get_structure_S. unfold get_structure_body.
    destruct (depth_reached self d); [now eexists|].
    destruct t as [|entries|e]; [discriminate| |].
    + destruct Hd as (Hdir & Hls & Hall). rewrite Hls.
      rewrite SortFacts.sort_map.
      destruct (loop_total fuel p d IH
                  (PyList.sort (fun a => sort_key fs p (fst a)) entries) [])
        as [cs ->].
      * apply SortFacts.sort_Forall.
        now apply describes_entries; repeat split.
      * apply SortFacts.sort_Forall. now apply levels_entries.
      * now eexists.
    + destruct Hd as [_ ->]. now eexists.
Qed.

(** Below the depth limit the result is the directory node of the path. *)
Lemma get_structure_directory (fuel : nat) (t : fstree) (p : string) (d : Z) :
  describes fs t p -> is_tdir t = true -> (levels t <= fuel)%nat ->
  depth_reached self d = false ->
  exists children,
    get_structure fs self fuel p d =
    Some (Some (Directory (PosixPath.basename p) p children)).
Proof.
  intros Hd Ht Hl Hopen.
  destruct (get_structure_terminates fuel t p d Hd Ht Hl) as [r Hr].
  destruct (get_structure_shape _ _ _ _ _ _ Hr) as [[H _]|[_ [cs ->]]];
    [congruence|].
  now exists cs.
Qed.
End Finite.


(* ================================================================== *)
(** * With a depth limit the walk returns on every file system *)

Section Limited.
Variable fs : filesystem.
Variable self : FolderStructureGenerator.

Lemma loop_returns (rec : string -> Z -> option structure)
  (root_path : string) (d : Z) :
  (forall p, exists r, rec p (d + 1) = Some r) ->
  forall items children,
    exists cs, loop fs self rec root_path d items children = Some cs.
Proof.
  intros Hrec items.
  induction items as [|item rest IH]; intros children; [now eexists|].
  rewrite loop_step. unfold item_children.
  destruct (exclude_hidden self && is_hidden _); [apply IH|].
  destruct (isdir fs _); [|destruct (include_files self); apply IH].
  destruct (Hrec (PosixPath.join root_path item)) as [r ->]. apply IH.
Qed.

(** Fuel beyond the levels left above the limit is enough. *)
Lemma get_structure_terminates_limited (m : Z) :
  max_depth self = Some m ->
  forall fuel root_path d,
    (Z.to_nat (m - d) < fuel)%nat ->
    exists r, get_structure fs self fuel root_path d = Some r.
Proof.
  intros Hm fuel.
  induction fuel as [|fuel IH]; intros root_path d Hfuel; [lia|].
  rewrite get_structure_S. unfold get_structure_body.
  destruct (depth_reached self d) eqn:Hreach; [now eexists|].
  destruct (listdir fs root_path) as [items|e]; [|now eexists].
  assert (Hd : d < m).
  { unfold depth_reached in Hreach. rewrite Hm in Hreach.
    now apply Z.leb_gt in Hreach. }
  destruct (loop_returns (get_structure fs self fuel) root_path d
              (fun p => IH p (d + 1) ltac:(lia))
              (PyList.sort (sort_key fs root_path) items) []) as [cs ->].
  now eexists.
Qed.

Lemma get_structure_directory_limited (m : Z) (fuel : nat)
  (root_path : string) (d : Z) :
  max_depth self = Some m -> d < m -> (Z.to_nat (m - d) < fuel)%nat ->
  exists children,
    get_structure fs self fuel root_path d =
    Some (Some (Directory (PosixPath.basename root_path) root_path children)).
Proof.
  intros Hm Hd Hfuel.
  destruct (get_structure_terminates_limited m Hm fuel root_path d Hfuel)
    as [r Hr].
  destruct (get_structure_shape _ _ _ _ _ _ Hr) as [[H _]|[_ [cs ->]]];
    [|now exists cs].
  unfold depth_reached in H. rewrite Hm in H. apply Z.leb_le in H. lia.
Qed.
End Limited.

(* ================================================================== *)
(** * The children of a result, item by item *)

Section Children.
Variable fs : filesystem.
Variable self : FolderStructureGenerator.

Lemma depth_reached_false (d : Z) :
  depth_reached self d = false <-> below_limit self d.
Proof.
  unfold depth_reached, below_limit. destruct (max_depth self) as [m|].
  - rewrite Z.leb_gt. tauto.
  - tauto.
Qed.

Lemma depth_reached_true (d : Z) :
  depth_reached self d = true <-> ~ below_limit self d.
Proof.
  rewrite <- depth_reached_false. destruct (depth_reached self d);
    split; congruence.
Qed.

(** How a directory node came out of the walk. *)
Lemma get_structure_directory_inv (fuel : nat) (root_path : string) (d : Z)
  (name path : string) (children : list node) :
  get_structure fs self (S fuel) root_path d =
    Some (Some (Directory name path children)) ->
  name = PosixPath.basename root_path /\ path = root_path /\
  depth_reached self d = false /\
  ((exists items,
      listdir fs root_path = Ok items /\
      loop fs self (get_structure fs self fuel) root_path d
        (PyList.sort (sort_key fs root_path) items) [] = Some children) \/
   (exists e, listdir fs root_path = Raise e /\ children = [error_node e])).
Proof.
  rewrite get_structure_S. unfold get_structure_body.
  destruct (depth_reached self d); [discriminate|].
  destruct (listdir fs root_path) as [items|e].
  - destruct (loop _ _ _ _ _ _ _) as [cs|] eqn:Hl; [|discriminate].
    intros [= <- <- <-]. repeat split. left. now exists items.
  - intros [= <- <- <-]. repeat split. right. now exists e.
Qed.

Lemma loop_item_some (rec : string -> Z -> option structure)
  (root_path : string) (d : Z) (items : list string) (children : list node)
  (item : string) :
  loop fs self rec root_path d items [] = Some children -> In item items ->
  exists c, item_children fs self rec root_path d item = Some c.
Proof.
  revert children.
  induction items as [|item' rest IH]; intros children; [intros _ []|].
  rewrite loop_cons.
  destruct (item_children fs self rec root_path d item') as [c|] eqn:Hc;
    [|discriminate].
  destruct (loop fs self rec root_path d rest []) as [cs|]; [|discriminate].
  intros _ [->|Hin]; [now exists c|]. now apply (IH cs).
Qed.

(** An item that is not filtered is in the children: a directory when its
    walk is below the depth limit, a file when files are included. *)
Lemma children_present (fuel : nat) (root_path : string) (d : Z)
  (name path : string) (children : list node) (items : list string)
  (item : string) :
  get_structure fs self (S fuel) root_path d =
    Some (Some (Directory name path children)) ->
  listdir fs root_path = Ok items -> In item items ->
  (exclude_hidden self && is_hidden (PosixPath.join root_path item)) = false ->
  let item_path := PosixPath.join root_path item in
  (isdir fs item_path = true -> depth_reached self (d + 1) = false ->
   exists cs,
     get_structure fs self fuel item_path (d + 1) =
       Some (Some (Directory (PosixPath.basename item_path) item_path cs)) /\
     In (Directory (PosixPath.basename item_path) item_path cs) children) /\
  (isdir fs item_path = false -> include_files self = true ->
   In (FileEntry item item_path (recorded_size fs item_path)) children).
Proof.
  intros Hw Hls Hin Hvis item_path.
  destruct (get_structure_directory_inv _ _ _ _ _ _ Hw)
    as (_ & _ & _ & [(items' & Hls' & Hloop)|(e & Hls' & _)]);
    [|congruence].
  assert (items' = items) as -> by congruence.
  apply (SortFacts.sort_In (sort_key fs root_path)) in Hin.
  destruct (loop_item_some _ _ _ _ _ _ Hloop Hin) as [c Hc].
  pose proof (fun n => loop_complete _ _ _ _ _ _ _ _ c n Hloop Hin Hc)
    as Hall.
  unfold item_children in Hc. rewrite Hvis in Hc. fold item_path in Hc.
  split.
  - intros Hdir Hopen. rewrite Hdir in Hc.
    destruct (get_structure fs self fuel item_path (d + 1)) as [r|] eqn:Hr;
      [|discriminate].
    destruct (get_structure_shape _ _ _ _ _ _ Hr) as [[H _]|[_ [cs ->]]];
      [congruence|].
    exists cs. split; [reflexivity|].
    injection Hc as <-. apply Hall. now left.
  - intros Hdir Hfiles. rewrite Hdir, Hfiles in Hc.
    injection Hc as <-. apply Hall. now left.
Qed.

(** A child is the walk of a listed directory or the entry of a listed
    file, and its item was not filtered. *)
Lemma children_origin (fuel : nat) (root_path : string) (d : Z)
  (name path : string) (children : list node) (items : list string)
  (c : node) :
  get_structure fs self (S fuel) root_path d =
    Some (Some (Directory name path children)) ->
  listdir fs root_path = Ok items -> In c children ->
  exists item,
    In item items /\
    (exclude_hidden self && is_hidden (PosixPath.join root_path item)) = false
    /\
    ((isdir fs (PosixPath.join root_path item) = true /\
      get_structure fs self fuel (PosixPath.join root_path item) (d + 1) =
        Some (Some c)) \/
     (isdir fs (PosixPath.join root_path item) = false /\
      include_files self = true /\
      c = FileEntry item (PosixPath.join root_path item)
            (recorded_size fs (PosixPath.join root_path item)))).
Proof.
  intros Hw Hls Hin.
  destruct (get_structure_directory_inv _ _ _ _ _ _ Hw)
    as (_ & _ & _ & [(items' & Hls' & Hloop)|(e & Hls' & _)]);
    [|congruence].
  assert (items' = items) as -> by congruence.
  destruct (loop_In _ _ _ _ _ _ _ _ Hloop Hin) as (item & cl & Hi & H1 & H2).
  exists item. split; [now apply (SortFacts.sort_In (sort_key fs root_path))|].
  exact (item_children_inv _ _ _ _ _ _ _ _ H1 H2).
Qed.

(** One level above the depth limit nothing is walked: the loop ends, and
    every child is the entry of a listed file. *)
Lemma loop_at_limit (rec : string -> Z -> option structure)
  (root_path : string) (d : Z) (items : list string) :
  (forall p, rec p (d + 1) = Some None) ->
  exists cs,
    loop fs self rec root_path d items [] = Some cs /\
    Forall (listed_file fs root_path items) cs.
Proof.
  intros Hrec. induction items as [|item rest (cs & Hcs & Hall)].
  - exists []. split; [reflexivity|constructor].
  - assert (Hrest : Forall (listed_file fs root_path (item :: rest)) cs).
    { eapply Forall_impl; [|exact Hall].
      intros c (i & H1 & H2 & H3). exists i. simpl. auto. }
    rewrite loop_cons, Hcs. unfold item_children.
    destruct (exclude_hidden self && is_hidden _);
      [exists cs; now split|].
    destruct (isdir fs (PosixPath.join root_path item)) eqn:Hdir.
    + rewrite Hrec. exists cs. now split.
    + destruct (include_files self); [|exists cs; now split].
      eexists. split; [reflexivity|]. simpl. constructor; [|exact Hrest].
      exists item. simpl. auto.
Qed.

Lemma listed_file_sorted (root_path : string) (items : list string)
  (cs : list node) :
  Forall (listed_file fs root_path
            (PyList.sort (sort_key fs root_path) items)) cs ->
  Forall (listed_file fs root_path items) cs.
Proof.
  apply Forall_impl. intros c (i & H1 & H2 & H3). exists i.
  split; [|auto]. now apply (SortFacts.sort_In (sort_key fs root_path)).
Qed.

Lemma files_preorder (cs : list node) :
  Forall (fun c => is_directory c = false) cs -> flat_map preorder cs = cs.
Proof.
  induction 1 as [|c cs Hc _ IH]; [reflexivity|].
  simpl. now rewrite (preorder_leaf c Hc), IH.
Qed.
End Children.


(* ================================================================== *)
(** * C1: the walk with a depth limit of 1 *)

(** C1, at an explicit input.  The root [r] holds the directory [sub], which
    holds [deep.txt]; with [max_depth = 1] the walk returns the root with
    no child at all: there is no directory node for [sub], with or without
    children. *)
Lemma C1_counterexample :
  exists children,
    get_structure fs_depth (with_depth 1) 2 "r" 0 =
      Some (Some (Directory "r" "r" children)) /\
    ~ (exists name path, In (Directory name path []) children).
Proof.
  exists []. split; [vm_compute; reflexivity|].
  intros (name & path & []).
Qed.

(** C1, as amended.  For every root directory whose listing succeeds, the
    walk with [max_depth = 1] returns the root directory node, and every
    one of its children is the file entry of a listed entry that is not a
    directory: each sub-directory is left out (its walk returns the empty
    dictionary, which is not appended), and nothing below a sub-directory,
    such as [sub/deep.txt], is in the tree, whose nodes are the root and
    these children. *)
Theorem C1_depth_one_keeps_only_root_files (fs : filesystem)
  (self : FolderStructureGenerator) (root_path : string)
  (items : list string) (fuel : nat) :
  max_depth self = Some 1 ->
  listdir fs root_path = Ok items ->
  exists children,
    get_structure fs self (S (S fuel)) root_path 0 =
      Some (Some (Directory (PosixPath.basename root_path) root_path
                    children)) /\
    Forall (listed_file fs root_path items) children /\
    preorder (Directory (PosixPath.basename root_path) root_path children) =
      Directory (PosixPath.basename root_path) root_path children :: children.
Proof.
  intros Hmax Hls.
  assert (Hcut : forall p,
             get_structure fs self (S fuel) p (0 + 1) = Some None).
  { intros p. apply get_structure_reached. unfold depth_reached.
    now rewrite Hmax. }
  destruct (loop_at_limit fs self _ root_path 0
              (PyList.sort (sort_key fs root_path) items) Hcut)
    as (cs & Hloop & Hall).
  exists cs. split; [|split].
  - rewrite get_structure_S. unfold get_structure_body, depth_reached.
    rewrite Hmax. change (1 <=? 0) with false. cbv iota.
    now rewrite Hls, Hloop.
  - now apply listed_file_sorted.
  - simpl. f_equal. apply files_preorder.
    eapply Forall_impl; [|exact Hall].
    now intros c (i & _ & _ & ->).
Qed.

(** The theorem at the root [r] of [fs_depth]. *)
Lemma C1_witness :
  exists children,
    get_structure fs_depth (with_depth 1) 2 "r" 0 =
      Some (Some (Directory (PosixPath.basename "r") "r" children)) /\
    Forall (listed_file fs_depth "r" ["sub"]) children /\
    preorder (Directory (PosixPath.basename "r") "r" children) =
      Directory (PosixPath.basename "r") "r" children :: children.
Proof.
  apply (C1_depth_one_keeps_only_root_files fs_depth (with_depth 1) "r"
           ["sub"] 0); reflexivity.
Defined.

(* ================================================================== *)
(** * C2: what the walk of the root returns *)

(** Below the depth limit the walk of a root returns its directory node:
    for every existing directory described by a finite tree and walked with
    fuel for its levels, when the depth limit is unset or at least 1; and
    with a depth limit of at least 1 on every file system, finite or not. *)
Lemma root_is_directory_below_limit :
  (forall (fs : filesystem) (self : FolderStructureGenerator) (t : fstree)
          (root_path : string) (fuel : nat),
     describes fs t root_path -> is_tdir t = true ->
     (levels t <= fuel)%nat ->
     below_limit self 0 ->
     exists children,
       get_structure fs self fuel root_path 0 =
         Some (Some (Directory (PosixPath.basename root_path) root_path
                       children))) /\
  (forall (fs : filesystem) (self : FolderStructureGenerator) (m : Z)
          (root_path : string) (fuel : nat),
     max_depth self = Some m -> 1 <= m -> (Z.to_nat m < fuel)%nat ->
     exists children,
       get_structure fs self fuel root_path 0 =
         Some (Some (Directory (PosixPath.basename root_path) root_path
                       children))).
Proof.
  split.
  - intros fs self t root_path fuel Hd Ht Hl Hopen.
    apply depth_reached_false in Hopen.
    now apply (get_structure_directory fs self fuel t).
  - intros fs self m root_path fuel Hm Hpos Hfuel.
    apply (get_structure_directory_limited fs self m); try assumption; lia.
Qed.

(** C2, at the input where the code departs from it.  The existing
    directory [r] is walked with [max_depth = 0], the configuration that
    [main] builds for [-d 0]: the walk returns the empty dictionary, which
    has no key at all, so it is no directory node and carries no name, path
    or children; and [main], which reads [structure['type']] of what the
    walk returns, raises [KeyError] after its two heading lines, before any
    tree, summary or file. *)
Theorem C2_depth_zero_root_is_empty_dictionary :
  exists_ fs_depth "r" = true /\
  isdir fs_depth "r" = true /\
  get_structure fs_depth (with_depth 0) 2 "r" 0 = Some None /\
  as_dict None = [] /\
  (forall name path children,
     get_structure fs_depth (with_depth 0) 2 "r" 0 <>
       Some (Some (Directory name path children))) /\
  Cli.generator_of
    {| Cli.folder := "r"; Cli.output := None; Cli.show_path := false;
       Cli.all := false; Cli.depth := Some 0; Cli.no_files := false;
       Cli.summary := false |} = with_depth 0 /\
  Cli.main Cli.name_suffix fs_depth 2
    {| Cli.folder := "r"; Cli.output := None; Cli.show_path := false;
       Cli.all := false; Cli.depth := Some 0; Cli.no_files := false;
       Cli.summary := false |} Cli.start =
    Some ({| Cli.console :=
               [Text.nl ++ "Analyzing folder: " ++ "r";
                Text.nl ++ "Folder Structure:" ++ Text.nl];
             Cli.disk := [];
             Cli.stdout := Cli.Console |},
          Cli.RaiseKeyError "type").
Proof.
  repeat split; try reflexivity.
  intros name path children. discriminate.
Qed.

(* ================================================================== *)
(** * C3: which sub-directories are left out of the children *)

(** C3, at an explicit input.  The directory [r/e] lists to zero entries;
    its walk returns a populated dictionary (four keys, so it is truthy) and
    the parent appends it: [e] is among the children of [r], with an empty
    list of children. *)
Lemma C3_counterexample :
  listdir fs_empty_sub "r/e" = Ok [] /\
  truthy (Some (Directory "e" "r/e" [])) = true /\
  get_structure fs_empty_sub default_generator 2 "r" 0 =
    Some (Some (Directory "r" "r" [Directory "e" "r/e" []])).
Proof. repeat split; reflexivity. Qed.

(** C3, as amended.  The walk of a directory (described by a finite tree,
    walked below the depth limit with fuel for its levels) returns its
    directory node, and a listed sub-directory that is not filtered as
    hidden is among the children of that node whenever its own walk is below
    the depth limit, also when its listing yields zero entries (it is then a
    directory node with no children); only when its walk is cut at the depth
    limit (it returns the empty dictionary, which is falsy) is it left out,
    and then no child is a directory. *)
Theorem C3_only_depth_cut_drops (fs : filesystem)
  (self : FolderStructureGenerator) (t : fstree) (fuel : nat)
  (root_path : string) (d : Z) (items : list string) (item : string) :
  describes fs t root_path -> is_tdir t = true -> (levels t <= fuel)%nat ->
  below_limit self d ->
  listdir fs root_path = Ok items -> In item items ->
  isdir fs (PosixPath.join root_path item) = true ->
  (exclude_hidden self && is_hidden (PosixPath.join root_path item)) = false ->
  exists children,
    get_structure fs self fuel root_path d =
      Some (Some (Directory (PosixPath.basename root_path) root_path
                    children)) /\
    (below_limit self (d + 1) ->
     exists cs,
       In (Directory (PosixPath.basename (PosixPath.join root_path item))
             (PosixPath.join root_path item) cs) children /\
       (listdir fs (PosixPath.join root_path item) = Ok [] -> cs = [])) /\
    (~ below_limit self (d + 1) ->
     Forall (fun c => is_directory c = false) children).
Proof.
  intros Hdesc Ht Hlev Hbelow Hls Hin Hdir Hvis.
  apply depth_reached_false in Hbelow.
  destruct (get_structure_directory fs self fuel t root_path d Hdesc Ht Hlev
              Hbelow) as [children Hw].
  exists children. split; [exact Hw|].
  destruct fuel as [|fuel]; [discriminate|]. split.
  - intros Hopen. apply depth_reached_false in Hopen.
    destruct (children_present fs self fuel root_path d _ _ children
                items item Hw Hls Hin Hvis) as [Hd _].
    destruct (Hd Hdir Hopen) as (cs & Hcw & Hc).
    exists cs. split; [exact Hc|]. intros Hempty.
    destruct fuel as [|fuel]; [discriminate|].
    destruct (get_structure_directory_inv _ _ _ _ _ _ _ _ Hcw)
      as (_ & _ & _ & [(its & Hl & Hloop)|(e & Hl & _)]); [|congruence].
    rewrite Hempty in Hl. injection Hl as <-. simpl in Hloop. congruence.
  - intros Hcut. apply depth_reached_true in Hcut.
    apply Forall_forall. intros c Hc.
    destruct (children_origin fs self fuel root_path d _ _ children
                items c Hw Hls Hc)
      as (it & _ & _ & [[_ Hr]|(_ & _ & ->)]); [|reflexivity].
    destruct (get_structure_shape _ _ _ _ _ _ Hr) as [[_ ?]|[? _]];
      congruence.
Qed.

(** The theorem at the root [r] holding the empty directory [e]. *)
Lemma C3_witness :
  exists children,
    get_structure fs_empty_sub default_generator 2 "r" 0 =
      Some (Some (Directory (PosixPath.basename "r") "r" children)) /\
    (below_limit default_generator (0 + 1) ->
     exists cs,
       In (Directory (PosixPath.basename (PosixPath.join "r" "e"))
             (PosixPath.join "r" "e") cs) children /\
       (listdir fs_empty_sub (PosixPath.join "r" "e") = Ok [] -> cs = [])) /\
    (~ below_limit default_generator (0 + 1) ->
     Forall (fun c => is_directory c = false) children).
Proof.
  apply (C3_only_depth_cut_drops fs_empty_sub default_generator
           (TDir [("e", TDir [])]) 2 "r" 0 ["e"] "e").
  - simpl. repeat split; reflexivity.
  - reflexivity.
  - simpl. lia.
  - exact I.
  - reflexivity.
  - simpl. auto.
  - reflexivity.
  - reflexivity.
Defined.

(* ================================================================== *)
(** * C4: a listing that fails *)

(** A denied directory below the root: the failure stays in the node of the
    directory that could not be listed, and the walk of the parent goes on. *)
Example nested_permission_denied :
  get_structure fs_denied default_generator 2 "q" 0 =
    Some (Some (Directory "q" "q"
                  [Directory "k" "q/k" [ErrorNode "[Permission Denied]"];
                   FileEntry "f" "q/f" 5])).
Proof. reflexivity. Qed.

(** C4.  When the enumeration of a directory fails, the walk returns
    normally: its result is the directory node of the path with exactly one
    child, an error node, whose message is ["[Permission Denied]"] for a
    permission error and ["[Error: <description>]"] for any other failure,
    and the summary of that result counts one error.  (And on a path whose
    listing raises the walk returns a result under every configuration: no
    exception leaves it.) *)
Theorem C4_listing_failure_is_recorded (fs : filesystem)
  (self : FolderStructureGenerator) (fuel : nat) (root_path : string)
  (d : Z) (e : exn) :
  (listing_raises fs self root_path d e ->
   exists message,
     get_structure fs self (S fuel) root_path d =
       Some (Some (Directory (PosixPath.basename root_path) root_path
                     [ErrorNode message])) /\
     (e = PermissionError -> message = "[Permission Denied]") /\
     (forall msg, e = OtherException msg ->
        message = "[Error: " ++ msg ++ "]") /\
     get_summary (Directory (PosixPath.basename root_path) root_path
                    [ErrorNode message]) =
       {| directories := 1; files := 0; errors := 1 |}) /\
  (listdir fs root_path = Raise e ->
   exists r, get_structure fs self (S fuel) root_path d = Some r).
Proof.
  assert (Hbody : listdir fs root_path = Raise e ->
                  get_structure fs self (S fuel) root_path d =
                  if depth_reached self d then Some None
                  else Some (Some (Directory (PosixPath.basename root_path)
                                     root_path [error_node e]))).
  { intros Hls. rewrite get_structure_S. unfold get_structure_body.
    now rewrite Hls. }
  split.
  - intros [Hopen Hls]. rewrite (Hbody Hls), Hopen.
    destruct e as [|msg]; simpl; eexists; (split; [reflexivity|]);
      repeat split; congruence.
  - intros Hls. rewrite (Hbody Hls).
    destruct (depth_reached self d); now eexists.
Qed.

(** The theorem at the denied directory [p]. *)
Lemma C4_witness :
  exists message,
    get_structure fs_denied default_generator 1 "p" 0 =
      Some (Some (Directory (PosixPath.basename "p") "p"
                    [ErrorNode message])) /\
    (PermissionError = PermissionError -> message = "[Permission Denied]") /\
    (forall msg, PermissionError = OtherException msg ->
       message = "[Error: " ++ msg ++ "]") /\
    get_summary (Directory (PosixPath.basename "p") "p"
                   [ErrorNode message]) =
      {| directories := 1; files := 0; errors := 1 |}.
Proof.
  apply (proj1 (C4_listing_failure_is_recorded fs_denied default_generator
                  0 "p" 0 PermissionError)).
  split; reflexivity.
Defined.

(* ================================================================== *)
(** * C5: the order of the children *)

Lemma table_fs_names_wf (dirs : list (string * py_result (list string)))
  (others : list (string * Z)) :
  table_names_ok dirs = true -> names_wf (table_fs dirs others).
Proof.
  intros Hok p items. simpl.
  induction dirs as [|[k r] dirs IH]; simpl in *; [discriminate|].
  apply andb_true_iff in Hok as [Hr Hok].
  destruct (String.eqb p k); [|now apply IH].
  intros ->. apply Forall_forall. intros x Hx.
  rewrite forallb_forall in Hr. specialize (Hr x Hx).
  now destruct (Str.has_sep x).
Qed.

Section Order.
Variable fs : filesystem.
Variable self : FolderStructureGenerator.
Variable rec : string -> Z -> option structure.
Variable root_path : string.
Variable d : Z.

Hypothesis rec_shape :
  forall p d' r, rec p d' = Some (Some r) ->
    exists cs, r = Directory (PosixPath.basename p) p cs.

(** A contributed node carries the name of its item, and is a directory
    node exactly when the item is a directory. *)
Lemma contribution_shape (item : string) (c : list node) (n : node) :
  Str.has_sep item = false ->
  item_children fs self rec root_path d item = Some c -> In n c ->
  (isdir fs (PosixPath.join root_path item) = true /\
   exists path cs, n = Directory item path cs) \/
  (isdir fs (PosixPath.join root_path item) = false /\
   exists path size, n = FileEntry item path size).
Proof.
  intros Hsep Hc Hn.
  destruct (item_children_inv _ _ _ _ _ _ _ _ Hc Hn)
    as [_ [[Hdir Hr]|(Hdir & _ & ->)]].
  - left. split; [exact Hdir|].
    destruct (rec_shape _ _ _ Hr) as [cs ->].
    rewrite (StrFacts.basename_join _ _ Hsep). eauto.
  - right. split; [exact Hdir|]. eauto.
Qed.

End Order.


(** ** The order under the interpreter's lowering *)

Section WalkByFacts.
Variable lower : string -> string.
Variable fs : filesystem.
Variable self : FolderStructureGenerator.

Local Abbreviation walk_by := (get_structure_by lower fs self).

Lemma get_structure_by_S (fuel : nat) (root_path : string) (d : Z) :
  walk_by (S fuel) root_path d =
  get_structure_body_by lower fs self (walk_by fuel) root_path d.
Proof. reflexivity. Qed.

Lemma get_structure_by_shape (fuel : nat) (root_path : string) (d : Z)
  (r : structure) :
  walk_by fuel root_path d = Some r ->
  (depth_reached self d = true /\ r = None) \/
  (depth_reached self d = false /\
   exists children,
     r = Some (Directory (PosixPath.basename root_path) root_path children)).
Proof.
  destruct fuel as [|fuel]; [discriminate|].
  rewrite get_structure_by_S. unfold get_structure_body_by.
  destruct (depth_reached self d).
  - intros [= <-]. now left.
  - right. split; [reflexivity|].
    destruct (listdir fs root_path) as [items|e].
    + destruct (loop _ _ _ _ _ _ _) as [children|]; [|discriminate].
      injection H as <-. now exists children.
    + injection H as <-. now eexists.
Qed.

Lemma walk_by_rec_shape (fuel : nat) (p : string) (d : Z) (r : node) :
  walk_by fuel p d = Some (Some r) ->
  exists cs, r = Directory (PosixPath.basename p) p cs.
Proof.
  intros Hr.
  destruct (get_structure_by_shape _ _ _ _ Hr) as [[_ ?]|[_ [cs [= ->]]]];
    [discriminate|].
  now exists cs.
Qed.

(** Items in the order of their keys contribute children in the order of
    [precedes_by]. *)
Lemma loop_ordered_by (rec : string -> Z -> option structure)
  (root_path : string) (d : Z) (items : list string) (children : list node) :
  (forall p d' r, rec p d' = Some (Some r) ->
     exists cs, r = Directory (PosixPath.basename p) p cs) ->
  Forall (fun x => Str.has_sep x = false) items ->
  StronglySorted (PyList.key_le (sort_key_by lower fs root_path)) items ->
  loop fs self rec root_path d items [] = Some children ->
  children_ordered_by lower children.
Proof.
  intros Hrec Hsep Hsorted. revert children.
  induction Hsorted as [|x rest Hrest IH Hx]; intros children.
  - intros [= <-]. constructor.
  - rewrite loop_cons.
    destruct (item_children fs self rec root_path d x) as [c|] eqn:Hc;
      [|discriminate].
    destruct (loop fs self rec root_path d rest []) as [cs|] eqn:Hl;
      [|discriminate].
    intros [= <-]. inversion Hsep as [|? ? Sx Srest]; subst.
    specialize (IH Srest cs eq_refl).
    destruct c as [|n c]; [exact IH|].
    assert (c = []) as ->.
    { unfold item_children in Hc.
      destruct (exclude_hidden self && is_hidden _); [discriminate|].
      destruct (isdir fs _).
      - destruct (rec _ _) as [[m|]|]; [|discriminate|discriminate].
        now injection Hc.
      - destruct (include_files self); [|discriminate]. now injection Hc. }
    simpl. constructor; [exact IH|].
    apply Forall_forall. intros m Hm.
    destruct (loop_In _ _ _ _ _ _ _ _ Hl Hm) as (y & cl & Hy & Hcl & Hmcl).
    rewrite Forall_forall in Hx, Srest.
    specialize (Hx y Hy).
    unfold PyList.key_le, sort_key_by, PyList.tuple_lt in Hx. simpl in Hx.
    destruct (contribution_shape fs self rec root_path d Hrec x [n] n Sx Hc
                (or_introl eq_refl))
      as [(Dx & px & csx & ->)|(Dx & px & zx & ->)];
      destruct (contribution_shape fs self rec root_path d Hrec y cl m
                  (Srest y Hy) Hcl Hmcl)
        as [(Dy & py & csy & ->)|(Dy & py & zy & ->)];
      rewrite Dx, Dy in Hx; simpl in Hx; simpl; try exact I;
      try discriminate; now apply OrderFacts.ltb_false_leb.
Qed.

(** Under [names_wf], every directory node of a result has its children in
    the order of [precedes_by]. *)
Lemma get_structure_by_ordered :
  names_wf fs ->
  forall fuel root_path d t,
    walk_by fuel root_path d = Some (Some t) ->
    forall name path children,
      In (Directory name path children) (preorder t) ->
      children_ordered_by lower children.
Proof.
  intros Hwf fuel.
  induction fuel as [|fuel IH]; intros root_path d t; [discriminate|].
  rewrite get_structure_by_S. unfold get_structure_body_by.
  destruct (depth_reached self d); [discriminate|].
  destruct (listdir fs root_path) as [items|e] eqn:Hls.
  - destruct (loop _ _ _ _ _ _ _) as [cs|] eqn:Hloop; [|discriminate].
    intros [= <-] name path children [Heq|Hin].
    + injection Heq as <- <- <-.
      apply (loop_ordered_by (walk_by fuel) root_path d
               (PyList.sort (sort_key_by lower fs root_path) items) cs).
      * apply walk_by_rec_shape.
      * apply SortFacts.sort_Forall. now apply (Hwf root_path).
      * apply SortFacts.sort_sorted.
      * exact Hloop.
    + apply in_flat_map in Hin as (c & Hc & Hin).
      destruct (loop_In _ _ _ _ _ _ _ _ Hloop Hc) as (item & cl & _ & H1 & H2).
      destruct (item_children_inv _ _ _ _ _ _ _ _ H1 H2)
        as [_ [[_ Hrec]|(_ & _ & ->)]].
      * eapply IH; eauto.
      * destruct Hin as [[=]|[]].
  - intros [= <-] name path children [Heq|Hin].
    + injection Heq as <- <- <-. repeat constructor.
    + simpl in Hin. rewrite app_nil_r in Hin.
      rewrite preorder_leaf in Hin by
        (pose proof (error_node_is_error e); now destruct (error_node e)).
      destruct Hin as [Heq|[]].
      pose proof (error_node_is_error e) as He. rewrite Heq in He.
      discriminate.
Qed.

(** The loop ends when the walks of the described entries do. *)
Lemma loop_described (rec : string -> Z -> option structure) (fuel : nat)
  (root_path : string) (d : Z) :
  (forall t p d', describes fs t p -> is_tdir t = true ->
     (levels t <= fuel)%nat -> exists r, rec p d' = Some r) ->
  forall (es : list (string * fstree)) (children : list node),
    Forall (fun xk => describes fs (snd xk) (PosixPath.join root_path (fst xk)))
      es ->
    Forall (fun xk => (levels (snd xk) <= fuel)%nat) es ->
    exists cs,
      loop fs self rec root_path d (map fst es) children = Some cs.
Proof.
  intros Hrec es.
  induction es as [|[x k] es IH]; intros children Hd Hl.
  - now exists children.
  - inversion Hd as [|? ? Hk Hd']; inversion Hl as [|? ? Lk Hl']; subst.
    simpl in Hk, Lk. cbn [map fst]. rewrite loop_step.
    unfold item_children.
    destruct (exclude_hidden self && is_hidden _); [now apply IH|].
    destruct (isdir fs _) eqn:Hdir.
    + rewrite (describes_isdir _ _ _ Hk) in Hdir.
      destruct (Hrec k _ (d + 1) Hk Hdir Lk) as [r ->]. now apply IH.
    + destruct (include_files self); now apply IH.
Qed.

(** With fuel for its levels, the walk of a described directory returns,
    whatever the lowering. *)
Lemma get_structure_by_terminates (fuel : nat) :
  forall t p d, describes fs t p -> is_tdir t = true ->
    (levels t <= fuel)%nat ->
    exists r, walk_by fuel p d = Some r.
Proof.
  induction fuel as [|fuel IH]; intros t p d Hd Ht Hl.
  - destruct t; simpl in *; try discriminate; lia.
  - rewrite get_structure_by_S. unfold get_structure_body_by.
    destruct (depth_reached self d); [now eexists|].
    destruct t as [|entries|e]; [discriminate| |].
    + destruct Hd as (Hdir & Hls & Hall). rewrite Hls.
      rewrite SortFacts.sort_map.
      destruct (loop_described (walk_by fuel) fuel p d IH
                  (PyList.sort (fun a => sort_key_by lower fs p (fst a))
                     entries) [])
        as [cs ->].
      * apply SortFacts.sort_Forall.
        now apply describes_entries; repeat split.
      * apply SortFacts.sort_Forall. now apply levels_entries.
      * now eexists.
    + destruct Hd as [_ ->]. now eexists.
Qed.
End WalkByFacts.

Lemma loop_rec_ext (fs : filesystem) (self : FolderStructureGenerator)
  (rec rec' : string -> Z -> option structure) (root_path : string) (d : Z) :
  (forall p d', rec p d' = rec' p d') ->
  forall items children,
    loop fs self rec root_path d items children =
    loop fs self rec' root_path d items children.
Proof.
  intros Hrec items.
  induction items as [|item rest IH]; intros children; [reflexivity|].
  rewrite !loop_step. unfold item_children. rewrite Hrec.
  destruct (exclude_hidden self && is_hidden _); [apply IH|].
  destruct (isdir fs _); [|destruct (include_files self); apply IH].
  destruct (rec' _ _); [apply IH|reflexivity].
Qed.

Lemma sort_key_ext {A : Type} (key key' : A -> bool * string) (l : list A) :
  Forall (fun x => key x = key' x) l -> PyList.sort key l = PyList.sort key' l.
Proof.
  intros H.
  assert (Hins : forall x r, key x = key' x ->
            Forall (fun y => key y = key' y) r ->
            PyList.insert key x r = PyList.insert key' x r).
  { intros x r Hx Hr. induction Hr as [|y r Hy _ IH]; [reflexivity|].
    simpl. now rewrite Hx, Hy, IH. }
  induction H as [|x l Hx Hl IH]; [reflexivity|].
  simpl. rewrite <- IH. apply Hins; [exact Hx|].
  apply SortFacts.sort_Forall. exact Hl.
Qed.

(** The walk depends on the lowering through the listed names only: two
    lowering functions that agree on every name the file system lists give
    the same walk. *)
Lemma get_structure_by_ext (lower lower' : string -> string)
  (fs : filesystem) (self : FolderStructureGenerator) :
  (forall p items, listdir fs p = Ok items ->
     Forall (fun x => lower x = lower' x) items) ->
  forall fuel root_path d,
    get_structure_by lower fs self fuel root_path d =
    get_structure_by lower' fs self fuel root_path d.
Proof.
  intros Hlow fuel.
  induction fuel as [|fuel IH]; intros root_path d; [reflexivity|].
  rewrite !get_structure_by_S. unfold get_structure_body_by.
  destruct (depth_reached self d); [reflexivity|].
  destruct (listdir fs root_path) as [items|e] eqn:Hls; [|reflexivity].
  rewrite (sort_key_ext (sort_key_by lower fs root_path)
             (sort_key_by lower' fs root_path) items).
  - now rewrite (loop_rec_ext fs self _ _ root_path d IH).
  - eapply Forall_impl; [|exact (Hlow _ _ Hls)].
    intros x Hx. unfold sort_key_by. now rewrite Hx.
Qed.

(** With [Str.lower] for the lowering, the walk is [get_structure]. *)
Lemma get_structure_by_lower (fs : filesystem)
  (self : FolderStructureGenerator) (fuel : nat) :
  get_structure_by Str.lower fs self fuel = get_structure fs self fuel.
Proof.
  induction fuel as [|fuel IH]; [reflexivity|].
  cbn [get_structure_by get_structure]. rewrite IH. reflexivity.
Qed.

(** So on a file system whose listed names the interpreter lowers as
    [Str.lower] does (names of ASCII characters), the walk is
    [get_structure]. *)
Lemma get_structure_by_agrees (lower : string -> string) (fs : filesystem)
  (self : FolderStructureGenerator) :
  (forall p items, listdir fs p = Ok items ->
     Forall (fun x => lower x = Str.lower x) items) ->
  forall fuel root_path d,
    get_structure_by lower fs self fuel root_path d =
    get_structure fs self fuel root_path d.
Proof.
  intros Hlow fuel root_path d.
  rewrite (get_structure_by_ext lower Str.lower fs self Hlow).
  now rewrite get_structure_by_lower.
Qed.

(** The names listed in a table, lowered alike by two functions. *)
Lemma table_fs_lowered (lower lower' : string -> string)
  (dirs : list (string * py_result (list string)))
  (others : list (string * Z)) :
  Forall (fun entry =>
            match snd entry with
            | Ok items => Forall (fun x => lower x = lower' x) items
            | Raise _ => True
            end) dirs ->
  forall p items, listdir (table_fs dirs others) p = Ok items ->
    Forall (fun x => lower x = lower' x) items.
Proof.
  intros Hall p items. simpl.
  induction Hall as [|[k r] dirs Hr _ IH]; simpl; [discriminate|].
  destruct (String.eqb p k); [|exact IH].
  intros ->. exact Hr.
Qed.

Lemma fs_sorting_names_wf : names_wf fs_sorting.
Proof. apply table_fs_names_wf. reflexivity. Qed.

Lemma fs_case_names_wf : names_wf fs_case.
Proof. apply table_fs_names_wf. reflexivity. Qed.

(** C5.  [lower] is the interpreter's [str.lower], whatever it does to a
    name.  On a file system whose listed names hold no separator, in every
    directory node of every tree returned by the walk the children are in
    order: no file entry stands before a directory node, and two directory
    nodes, or two file entries, stand in the ascending order of their
    lowered names; and the walk of a directory described by a finite tree
    does return such a tree.  The tree is a value that the printer, the
    summary and the export only read.  In particular, as soon as [lower]
    lowers the four names as ASCII letters are lowered, the directory
    listed as [b.txt], [A], [a.txt], [B], with [A] and [B] directories,
    gets the children [A], [B], [a.txt], [b.txt] in this order; and the
    directory listed as [Zed], [B.txt], [apple], [a.txt], with [Zed] and
    [apple] directories, gets [apple], [Zed], [a.txt], [B.txt]: the order
    of the lowered names, not that of the names themselves. *)
Theorem C5_children_are_ordered (lower : string -> string) :
  (forall (fs : filesystem) (self : FolderStructureGenerator),
     names_wf fs ->
     forall fuel root_path d t,
       get_structure_by lower fs self fuel root_path d = Some (Some t) ->
       forall name path children,
         In (Directory name path children) (preorder t) ->
         children_ordered_by lower children) /\
  (forall (fs : filesystem) (self : FolderStructureGenerator) (t : fstree)
          (root_path : string) (fuel : nat) (d : Z),
     names_wf fs -> describes fs t root_path -> is_tdir t = true ->
     (levels t <= fuel)%nat -> below_limit self d ->
     exists n,
       get_structure_by lower fs self fuel root_path d = Some (Some n) /\
       forall name path children,
         In (Directory name path children) (preorder n) ->
         children_ordered_by lower children) /\
  (lower "b.txt" = "b.txt" -> lower "A" = "a" ->
   lower "a.txt" = "a.txt" -> lower "B" = "b" ->
   exists children,
     listdir fs_sorting "d" = Ok ["b.txt"; "A"; "a.txt"; "B"] /\
     get_structure_by lower fs_sorting default_generator 2 "d" 0 =
       Some (Some (Directory "d" "d" children)) /\
     map node_name children = ["A"; "B"; "a.txt"; "b.txt"] /\
     map is_directory children = [true; true; false; false]) /\
  (lower "Zed" = "zed" -> lower "B.txt" = "b.txt" ->
   lower "apple" = "apple" -> lower "a.txt" = "a.txt" ->
   exists children,
     listdir fs_case "c" = Ok ["Zed"; "B.txt"; "apple"; "a.txt"] /\
     get_structure_by lower fs_case default_generator 2 "c" 0 =
       Some (Some (Directory "c" "c" children)) /\
     map node_name children = ["apple"; "Zed"; "a.txt"; "B.txt"] /\
     map is_directory children = [true; true; false; false]).
Proof.
  split; [exact (get_structure_by_ordered lower)|]. split; [|split].
  - intros fs self t root_path fuel d Hwf Hd Ht Hl Hopen.
    apply depth_reached_false in Hopen.
    destruct (get_structure_by_terminates lower fs self fuel t root_path d
                Hd Ht Hl) as [r Hr].
    destruct (get_structure_by_shape _ _ _ _ _ _ _ Hr)
      as [[H _]|[_ [cs ->]]]; [congruence|].
    eexists. split; [exact Hr|].
    now apply (get_structure_by_ordered lower fs self Hwf fuel root_path d).
  - intros H1 H2 H3 H4. eexists. split; [reflexivity|].
    split.
    + rewrite (get_structure_by_ext lower Str.lower);
        [vm_compute; reflexivity|].
      apply table_fs_lowered. repeat constructor; assumption.
    + split; reflexivity.
  - intros H1 H2 H3 H4. eexists. split; [reflexivity|].
    split.
    + rewrite (get_structure_by_ext lower Str.lower);
        [vm_compute; reflexivity|].
      apply table_fs_lowered. repeat constructor; assumption.
    + split; reflexivity.
Qed.

(** [Str.lower] lowers the names of the two examples as the theorem asks;
    the identity does not. *)
Lemma lower_examples :
  Str.lower "b.txt" = "b.txt" /\ Str.lower "A" = "a" /\
  Str.lower "a.txt" = "a.txt" /\ Str.lower "B" = "b" /\
  Str.lower "Zed" = "zed" /\ Str.lower "B.txt" = "b.txt" /\
  Str.lower "apple" = "apple" /\ Str.lower "README.md" = "readme.md".
Proof. repeat split; reflexivity. Qed.

(** The theorem with [Str.lower], at the directory [c] of [fs_case]: the
    children of the walk that the other properties are about, and their
    order. *)
Lemma C5_witness :
  (forall name path children,
     In (Directory name path children)
        (preorder
           (Directory "c" "c"
              [Directory "apple" "c/apple" []; Directory "Zed" "c/Zed" [];
               FileEntry "a.txt" "c/a.txt" 1;
               FileEntry "B.txt" "c/B.txt" 2])) ->
     children_ordered_by Str.lower children) /\
  (exists children,
     listdir fs_case "c" = Ok ["Zed"; "B.txt"; "apple"; "a.txt"] /\
     get_structure_by Str.lower fs_case default_generator 2 "c" 0 =
       Some (Some (Directory "c" "c" children)) /\
     map node_name children = ["apple"; "Zed"; "a.txt"; "B.txt"] /\
     map is_directory children = [true; true; false; false]).
Proof.
  split.
  - apply (proj1 (C5_children_are_ordered Str.lower) fs_case
             default_generator fs_case_names_wf 2%nat "c" 0).
    reflexivity.
  - apply (proj2 (proj2 (proj2 (C5_children_are_ordered Str.lower))));
      reflexivity.
Defined.

(* ================================================================== *)
(** * C6: hidden entries *)

Section Hidden.
Variable fs : filesystem.
Variable self : FolderStructureGenerator.
Hypothesis filtering : exclude_hidden self = true.


End Hidden.

Lemma fs_hidden_names_wf : names_wf fs_hidden.
Proof. apply table_fs_names_wf. reflexivity. Qed.

(** The directory [h] walked with the defaults: [.git] and [.env] leave no
    node; with hidden entries shown they stand among the children, in the
    common order. *)
Example hidden_entries_filtered :
  get_structure fs_hidden default_generator 2 "h" 0 =
    Some (Some (Directory "h" "h" [FileEntry "x" "h/x" 1])) /\
  get_structure fs_hidden show_hidden 2 "h" 0 =
    Some (Some (Directory "h" "h"
                  [Directory ".git" "h/.git"
                     [FileEntry "HEAD" "h/.git/HEAD" 3];
                   FileEntry ".env" "h/.env" 7; FileEntry "x" "h/x" 1])).
Proof. split; reflexivity. Qed.




(* ================================================================== *)
(** * C7: the summary *)

Lemma add_stats_zero (st : stats) : add_stats st 0 0 0 = st.
Proof.
  destruct st. unfold add_stats. simpl. now rewrite !Nat.add_0_r.
Qed.

Lemma add_stats_add (st : stats) (a b c a' b' c' : nat) :
  add_stats (add_stats st a b c) a' b' c' =
  add_stats st (a + a') (b + b') (c + c').
Proof. unfold add_stats. simpl. f_equal; lia. Qed.

Lemma count_kind_directory (kind : node -> bool) (name path : string)
  (children : list node) :
  count_kind kind (Directory name path children) =
  ((if kind (Directory name path children) then 1 else 0) +
   List.length (filter kind (flat_map preorder children)))%nat.
Proof.
  unfold count_kind. simpl.
  now destruct (kind (Directory name path children)).
Qed.

(** [count_items] adds to each counter the number of nodes of its kind. *)
Lemma count_items_spec (n : node) :
  forall st,
    count_items n st =
    add_stats st (count_kind is_directory n) (count_kind is_file n)
      (count_kind is_error n).
Proof.
  induction n as [name path children IH|name path size|name]
    using node_induction; intros st;
    [|unfold add_stats, count_kind; simpl; f_equal; lia ..].
  rewrite !count_kind_directory.
  cbn [count_items is_directory is_file is_error].
  assert (H : forall st',
             fold_left (fun st0 child => count_items child st0) children st' =
             add_stats st'
               (List.length (filter is_directory (flat_map preorder children)))
               (List.length (filter is_file (flat_map preorder children)))
               (List.length (filter is_error (flat_map preorder children)))).
  { clear st. induction IH as [|c cs Hc _ IHcs]; intros st'.
    - simpl. now rewrite add_stats_zero.
    - cbn [fold_left flat_map]. rewrite Hc, IHcs, add_stats_add.
      unfold count_kind. now rewrite !filter_app, !length_app. }
  rewrite H. unfold add_stats. simpl. f_equal; lia.
Qed.

Lemma kinds_partition (l : list node) :
  (List.length (filter is_directory l) + List.length (filter is_file l) +
   List.length (filter is_error l) = List.length l)%nat.
Proof.
  induction l as [|n l IH]; [reflexivity|].
  destruct n; simpl; lia.
Qed.

Lemma entries_split (l : list node) :
  (List.length (filter is_directory l) + List.length (filter is_file l) =
   List.length (filter is_entry l))%nat.
Proof.
  induction l as [|n l IH]; [reflexivity|].
  destruct n; simpl; lia.
Qed.

Lemma fold_add_perm {A : Type} (f : A -> nat) (l l' : list A) :
  Permutation l l' ->
  fold_right (fun x m => (f x + m)%nat) 0%nat l =
  fold_right (fun x m => (f x + m)%nat) 0%nat l'.
Proof. induction 1; simpl; lia. Qed.

Lemma listable_entries (entries : list (string * fstree)) :
  listable (TDir entries) = true ->
  Forall (fun xk => listable (snd xk) = true) entries.
Proof.
  cbn [listable]. rewrite forallb_forall. intros H.
  now apply Forall_forall.
Qed.

Section Counting.
Variable fs : filesystem.
Variable self : FolderStructureGenerator.
Hypothesis show_all : exclude_hidden self = false.
Hypothesis with_files : include_files self = true.
Hypothesis unlimited : max_depth self = None.

Lemma loop_counts (fuel : nat) (root_path : string) (d : Z) :
  (forall t p d', describes fs t p -> is_tdir t = true ->
     listable t = true -> (levels t <= fuel)%nat ->
     exists n, get_structure fs self fuel p d' = Some (Some n) /\
               count_kind is_entry n = entry_count t /\
               count_kind is_error n = 0%nat) ->
  forall es : list (string * fstree),
    Forall (fun xk => describes fs (snd xk) (PosixPath.join root_path (fst xk)))
      es ->
    Forall (fun xk => listable (snd xk) = true) es ->
    Forall (fun xk => (levels (snd xk) <= fuel)%nat) es ->
    exists cs,
      loop fs self (get_structure fs self fuel) root_path d (map fst es) [] =
        Some cs /\
      List.length (filter is_entry (flat_map preorder cs)) =
        fold_right (fun xk m => (entry_count (snd xk) + m)%nat) 0%nat es /\
      List.length (filter is_error (flat_map preorder cs)) = 0%nat.
Proof.
  intros Hrec es.
  induction es as [|[x k] es IH]; intros Hd Hl Hv.
  - exists []. repeat split.
  - inversion Hd as [|? ? Hk Hd']; inversion Hl as [|? ? Lk Hl'];
      inversion Hv as [|? ? Vk Hv']; subst.
    simpl in Hk, Lk, Vk.
    destruct (IH Hd' Hl' Hv') as (cs & Hcs & Hent & Herr).
    cbn [map fst]. rewrite loop_cons, Hcs. unfold item_children.
    rewrite show_all, with_files. cbn [andb].
    rewrite (describes_isdir _ _ _ Hk).
    destruct (is_tdir k) eqn:Hdir.
    + destruct (Hrec k _ (d + 1) Hk Hdir Lk Vk) as (n & -> & Hn & He).
      exists (n :: cs). split; [reflexivity|].
      cbn [flat_map fold_right snd]. rewrite !filter_app, !length_app.
      unfold count_kind in Hn, He. now rewrite Hn, He, Hent, Herr.
    + destruct k; try discriminate.
      eexists. split; [reflexivity|].
      cbn [app flat_map fold_right snd preorder filter is_entry is_error
           negb entry_count List.length]. now rewrite Hent, Herr.
Qed.

(** The walk of a tree without failures returns one node per entry. *)
Lemma get_structure_counts (fuel : nat) :
  forall t p d, describes fs t p -> is_tdir t = true ->
    listable t = true -> (levels t <= fuel)%nat ->
    exists n, get_structure fs self fuel p d = Some (Some n) /\
              count_kind is_entry n = entry_count t /\
              count_kind is_error n = 0%nat.
Proof.
  induction fuel as [|fuel IH]; intros t p d Hd Ht Hl Hv.
  - destruct t; simpl in *; try discriminate; lia.
  - destruct t as [|entries|e]; try discriminate.
    rewrite get_structure_S. unfold get_structure_body, depth_reached.
    rewrite unlimited.
    destruct Hd as (Hdir & Hls & Hall). rewrite Hls, SortFacts.sort_map.
    set (sorted := PyList.sort (fun a => sort_key fs p (fst a)) entries).
    assert (Hperm : Permutation sorted entries) by apply SortFacts.sort_perm.
    destruct (loop_counts fuel p d IH sorted) as (cs & -> & Hent & Herr).
    + apply SortFacts.sort_Forall. now apply describes_entries; repeat split.
    + apply SortFacts.sort_Forall. now apply listable_entries.
    + apply SortFacts.sort_Forall. now apply levels_entries.
    + eexists. split; [reflexivity|].
      rewrite !count_kind_directory. cbn [is_entry is_error negb entry_count].
      rewrite Hent, Herr.
      rewrite (fold_add_perm (fun xk => entry_count (snd xk)) _ _ Hperm).
      split; reflexivity.
Qed.
End Counting.

Lemma get_summary_spec (n : node) :
  get_summary n =
  {| directories := count_kind is_directory n;
     files := count_kind is_file n;
     errors := count_kind is_error n |}.
Proof. unfold get_summary. now rewrite count_items_spec. Qed.

(** C7.  The summary of a tree holds, for each kind, the number of nodes of
    that kind in the tree, and the three counters add up to the number of
    nodes: every node is counted once, under its kind.  And for a directory
    described by a finite tree in which no listing fails, walked with hidden
    entries shown, files included and no depth limit, the walk returns a
    tree whose counts of files and directories add up to the number of
    entries of the described tree, the root being one of them, and no error
    is counted. *)
Theorem C7_summary_counts :
  (forall n : node,
     get_summary n =
       {| directories := count_kind is_directory n;
          files := count_kind is_file n;
          errors := count_kind is_error n |} /\
     (directories (get_summary n) + files (get_summary n) +
      errors (get_summary n) = List.length (preorder n))%nat) /\
  (forall (fs : filesystem) (self : FolderStructureGenerator) (t : fstree)
          (root_path : string) (fuel : nat),
     exclude_hidden self = false -> include_files self = true ->
     max_depth self = None ->
     describes fs t root_path -> is_tdir t = true -> listable t = true ->
     (levels t <= fuel)%nat ->
     exists n,
       get_structure fs self fuel root_path 0 = Some (Some n) /\
       (files (get_summary n) + directories (get_summary n))%nat =
         entry_count t /\
       errors (get_summary n) = 0%nat).
Proof.
  split.
  - intros n. split; [apply get_summary_spec|].
    rewrite get_summary_spec. simpl. unfold count_kind.
    apply kinds_partition.
  - intros fs self t root_path fuel Hs Hf Hu Hd Ht Hl Hv.
    destruct (get_structure_counts fs self Hs Hf Hu fuel t root_path 0
                Hd Ht Hl Hv) as (n & Hw & Hent & Herr).
    exists n. split; [exact Hw|].
    rewrite get_summary_spec. simpl. split; [|exact Herr].
    rewrite <- Hent. unfold count_kind.
    rewrite Nat.add_comm. apply entries_split.
Qed.

(** The second part of the theorem at the root [r] of [fs_depth]. *)
Lemma C7_witness :
  exists n,
    get_structure fs_depth show_hidden 2 "r" 0 = Some (Some n) /\
    (files (get_summary n) + directories (get_summary n))%nat =
      entry_count (TDir [("sub", TDir [("deep.txt", TOther)])]) /\
    errors (get_summary n) = 0%nat.
Proof.
  apply (proj2 C7_summary_counts fs_depth show_hidden
           (TDir [("sub", TDir [("deep.txt", TOther)])]) "r" 2%nat);
    simpl; repeat split; reflexivity.
Defined.

(* ================================================================== *)
(** * C8: the printed lines *)

Lemma string_app_assoc (a b c : string) : (a ++ b) ++ c = a ++ (b ++ c).
Proof. induction a as [|x a IH]; simpl; [reflexivity|now rewrite IH]. Qed.

(** The indexed loop over the children sets the flag exactly at the final
    child. *)
Lemma each_child (show_path : bool) (new_prefix : string) (total : nat) :
  forall (rest : list node) (i : Z),
    i = Z.of_nat total - Z.of_nat (List.length rest) ->
    (fix each (i : Z) (rest : list node) {struct rest} : list string :=
       match rest with
       | [] => []
       | child :: rest' =>
           (print_structure child new_prefix (i =? Z.of_nat total - 1)
              show_path ++ each (i + 1) rest')%list
       end) i rest =
    render_children (fun c b => print_structure c new_prefix b show_path) rest.
Proof.
  induction rest as [|c rest IH]; intros i Hi; [reflexivity|].
  destruct rest as [|c' rest'].
  - simpl in Hi. replace (i =? Z.of_nat total - 1) with true
      by (symmetry; apply Z.eqb_eq; lia).
    simpl. now rewrite app_nil_r.
  - rewrite (IH (i + 1)) by (cbn [List.length] in *; lia).
    replace (i =? Z.of_nat total - 1) with false
      by (symmetry; apply Z.eqb_neq; cbn [List.length] in Hi; lia).
    reflexivity.
Qed.

Lemma print_structure_directory (name path : string) (children : list node)
  (prefix : string) (is_last show_path : bool) :
  print_structure (Directory name path children) prefix is_last show_path =
  (prefix ++ connector is_last
     ++ label show_path (Directory name path children))
  :: render_children
       (fun c b => print_structure c (prefix ++ extension is_last) b show_path)
       children.
Proof.
  cbn [print_structure]. f_equal.
  apply (each_child show_path (prefix ++ extension is_last)
           (List.length children) children 0).
  lia.
Qed.

Lemma render_children_last (render : node -> bool -> list string)
  (cs : list node) (c : node) :
  render_children render (cs ++ [c]) =
  (flat_map (fun x => render x false) cs ++ render c true)%list.
Proof.
  induction cs as [|x cs IH]; [reflexivity|].
  cbn [app render_children flat_map]. rewrite IH, <- app_assoc.
  now destruct cs.
Qed.

Lemma render_children_shows (show_path : bool)
  (render : node -> bool -> list string) (cs : list node) :
  Forall (fun c => forall b,
            Forall2 (shows show_path) (render c b) (preorder c)) cs ->
  Forall2 (shows show_path) (render_children render cs)
    (flat_map preorder cs).
Proof.
  induction 1 as [|c cs Hc _ IH]; [constructor|].
  cbn [render_children flat_map]. destruct cs as [|c' cs'].
  - simpl. rewrite app_nil_r. apply Hc.
  - apply Forall2_app; [apply Hc|exact IH].
Qed.

(** One line per node, in pre-order, each showing its node. *)
Lemma print_structure_shows (show_path : bool) (n : node) :
  forall prefix is_last,
    Forall2 (shows show_path) (print_structure n prefix is_last show_path)
      (preorder n).
Proof.
  induction n as [name path children IH|name path size|name]
    using node_induction; intros prefix is_last.
  - rewrite print_structure_directory. cbn [preorder]. constructor.
    + exists (prefix ++ connector is_last). now rewrite string_app_assoc.
    + apply render_children_shows.
      eapply Forall_impl; [|exact IH]. intros c Hc b. apply Hc.
  - repeat constructor.
    exists (prefix ++ connector is_last). simpl.
    rewrite string_app_assoc. now destruct is_last.
  - repeat constructor.
    exists (prefix ++ "└── "). simpl. now rewrite string_app_assoc.
Qed.

(** A directory with exactly two children: the first line of the first child
    has the connector of a child that is not last, the second the one of the
    last; below a child that is not last the prefix grows by a bar. *)
Example print_two_children :
  print_structure
    (Directory "r" "/r"
       [Directory "a" "/r/a" [FileEntry "x" "/r/a/x" 1];
        FileEntry "b" "/r/b" 2]) "" true false =
  ["└── r"; "    ├── a"; "    │   └── x"; "    └── b"].
Proof. reflexivity. Qed.

(** C8.  The lines written for a node: an error node gives the single line
    made of the prefix, the connector of a last child and its message,
    whatever the flag; a file entry gives the single line made of the
    prefix, the connector chosen by the flag and its name; a directory gives
    that line for its label, followed by the lines of its children, each
    rendered under the prefix extended by four spaces when the directory was
    last and by a bar and three spaces otherwise, with the flag set for the
    final child and for no other; and the lines are one per node, in
    pre-order, each ending with the label of its node. *)
Theorem C8_print_structure_rules :
  (forall name prefix is_last show_path,
     print_structure (ErrorNode name) prefix is_last show_path =
       [prefix ++ "└── " ++ name]) /\
  (forall name path size prefix is_last show_path,
     print_structure (FileEntry name path size) prefix is_last show_path =
       [prefix ++ (if is_last then "└── " else "├── ") ++ name]) /\
  (forall name path children prefix is_last show_path,
     print_structure (Directory name path children) prefix is_last show_path =
       (prefix ++ (if is_last then "└── " else "├── ") ++
        (if show_path then name ++ " (" ++ path ++ ")" else name))
       :: render_children
            (fun child is_child_last =>
               print_structure child
                 (prefix ++ (if is_last then "    " else "│   "))
                 is_child_last show_path)
            children) /\
  (forall render children final,
     render_children render [] = [] /\
     render_children render (children ++ [final]) =
       (flat_map (fun child => render child false) children
          ++ render final true)%list) /\
  (forall n prefix is_last show_path,
     List.length (print_structure n prefix is_last show_path) =
       List.length (preorder n) /\
     Forall2 (shows show_path) (print_structure n prefix is_last show_path)
       (preorder n)).
Proof.
  split; [reflexivity|].
  split; [reflexivity|].
  split; [exact print_structure_directory|].
  split.
  - intros render children final. split; [reflexivity|].
    apply render_children_last.
  - intros n prefix is_last show_path.
    pose proof (print_structure_shows show_path n prefix is_last) as H.
    split; [|exact H]. eapply Forall2_length; eauto.
Qed.

(* ================================================================== *)
(** * C9: export and reconstruction *)

Lemma all_some_map_Some {A : Type} (l : list A) :
  all_some (map Some l) = Some l.
Proof.
  induction l as [|a l IH]; [reflexivity|]. simpl. now rewrite IH.
Qed.

Lemma reconstruct_node_dict (n : node) :
  reconstruct_node (VDict (node_dict n)) = Some n.
Proof.
  induction n as [name path children IH|name path size|name]
    using node_induction; [|reflexivity|reflexivity].
  cbn [reconstruct_node node_dict assoc String.eqb Ascii.eqb Bool.eqb].
  rewrite map_map.
  replace (map (fun c => reconstruct_node (VDict (node_dict c))) children)
    with (map Some children).
  - now rewrite all_some_map_Some.
  - induction IH as [|c cs Hc _ IHcs]; [reflexivity|].
    cbn [map]. now rewrite Hc, IHcs.
Qed.

Lemma reconstruct_export (s : structure) :
  reconstruct (export_json s) = Some s.
Proof.
  destruct s as [n|]; [|reflexivity].
  unfold export_json, as_dict, reconstruct.
  rewrite reconstruct_node_dict. now destruct n.
Qed.

(** ** The text of a value is read back as that value *)

Section ValueInduction.
Variable P : value -> Prop.
Hypothesis P_str : forall s, P (VStr s).
Hypothesis P_int : forall z, P (VInt z).
Hypothesis P_list : forall l, Forall P l -> P (VList l).
Hypothesis P_dict :
  forall kv, Forall (fun p => P (snd p)) kv -> P (VDict kv).

Fixpoint value_induction (v : value) : P v :=
  match v with
  | VStr s => P_str s
  | VInt z => P_int z
  | VList l =>
      P_list l
        ((fix all (l : list value) : Forall P l :=
            match l with
            | [] => Forall_nil P
            | x :: r => Forall_cons x (value_induction x) (all r)
            end) l)
  | VDict kv =>
      P_dict kv
        ((fix all (l : list (string * value))
            : Forall (fun p => P (snd p)) l :=
            match l with
            | [] => Forall_nil _
            | p :: r =>
                Forall_cons (P := fun p => P (snd p)) p
                  (value_induction (snd p)) (all r)
            end) kv)
  end.
End ValueInduction.

Module JsonFacts.
Import Json.

Lemma append_assoc (a b c : string) : (a ++ b) ++ c = a ++ b ++ c.
Proof. induction a as [|x a IH]; [reflexivity|]. simpl. now rewrite IH. Qed.

Lemma append_nil_r (a : string) : a ++ "" = a.
Proof. induction a as [|x a IH]; [reflexivity|]. simpl. now rewrite IH. Qed.

Lemma length_append (a b : string) :
  String.length (a ++ b) = (String.length a + String.length b)%nat.
Proof. induction a as [|x a IH]; [reflexivity|]. simpl. now rewrite IH. Qed.

(** ** Strings *)

Lemma read_string_escape_char (c : ascii) (tail : string) :
  read_string (escape_char c ++ tail) =
  option_map (prepend c) (read_string tail).
Proof.
  destruct c as [[] [] [] [] [] [] [] []]; reflexivity.
Qed.

Lemma read_string_escape (s rest : string) :
  read_string (escape s ++ String quote rest) = Some (s, rest).
Proof.
  induction s as [|c s IH]; [reflexivity|].
  cbn [escape]. rewrite append_assoc, read_string_escape_char, IH.
  reflexivity.
Qed.

Lemma read_string_encode (s rest : string) :
  exists text,
    encode_basestring s ++ rest = String quote text /\
    read_string text = Some (s, rest).
Proof.
  exists (escape s ++ String quote rest). split.
  - unfold encode_basestring. cbn [append]. now rewrite append_assoc.
  - apply read_string_escape.
Qed.

(** ** Numbers *)

Definition no_digit_head (s : string) : Prop :=
  match s with
  | EmptyString => True
  | String c _ => is_digit c = false
  end.

Lemma digits_no_digit (rest : string) :
  no_digit_head rest -> digits rest = (EmptyString, rest).
Proof. destruct rest as [|c r]; simpl; [reflexivity|]. now intros ->. Qed.

Lemma digits_uint (d : Decimal.uint) (rest : string) :
  no_digit_head rest ->
  digits (NilEmpty.string_of_uint d ++ rest) =
  (NilEmpty.string_of_uint d, rest).
Proof.
  intros H. induction d as [|d IH|d IH|d IH|d IH|d IH|d IH|d IH|d IH|d IH|d IH];
    [now apply digits_no_digit|..];
    cbn [NilEmpty.string_of_uint append digits];
    rewrite IH; reflexivity.
Qed.

Lemma read_uint_ok (d : Decimal.uint) (rest : string) :
  d <> Decimal.Nil -> no_digit_head rest ->
  read_uint (NilEmpty.string_of_uint d ++ rest) = Some (d, rest).
Proof.
  intros Hd H. unfold read_uint. rewrite (digits_uint d rest H).
  rewrite NilEmpty.usu.
  destruct d; [contradiction|..]; reflexivity.
Qed.

Lemma read_int_pos (d : Decimal.uint) (rest : string) :
  d <> Decimal.Nil -> no_digit_head rest ->
  read_int (NilEmpty.string_of_uint d ++ rest) =
  Some (Z.of_int (Decimal.Pos d), rest).
Proof.
  intros Hd H. pose proof (read_uint_ok d rest Hd H) as Hr.
  destruct d; [contradiction|..];
    cbn [NilEmpty.string_of_uint append] in *;
    unfold read_int; cbn [Ascii.eqb Bool.eqb]; cbv iota;
    now rewrite Hr.
Qed.

Lemma read_int_neg (d : Decimal.uint) (rest : string) :
  d <> Decimal.Nil -> no_digit_head rest ->
  read_int (String "-" (NilEmpty.string_of_uint d ++ rest)) =
  Some (Z.of_int (Decimal.Neg d), rest).
Proof.
  intros Hd H. unfold read_int. cbn [Ascii.eqb Bool.eqb]. cbv iota.
  now rewrite (read_uint_ok d rest Hd H).
Qed.

Lemma string_of_uint_nonnil (d : Decimal.uint) :
  d <> Decimal.Nil -> NilZero.string_of_uint d = NilEmpty.string_of_uint d.
Proof. destruct d; [contradiction|..]; reflexivity. Qed.

Lemma read_int_intstr (z : Z) (rest : string) :
  no_digit_head rest -> read_int (intstr z ++ rest) = Some (z, rest).
Proof.
  intros H. unfold intstr.
  rewrite <- (DecimalZ.of_to z) at 2.
  destruct z as [|p|p]; cbn [Z.to_int NilZero.string_of_int].
  - apply (read_int_pos (Decimal.D0 Decimal.Nil)); [discriminate|exact H].
  - rewrite string_of_uint_nonnil by apply DecimalPos.Unsigned.to_uint_nonnil.
    apply read_int_pos; [apply DecimalPos.Unsigned.to_uint_nonnil|exact H].
  - rewrite string_of_uint_nonnil by apply DecimalPos.Unsigned.to_uint_nonnil.
    cbn [append].
    apply read_int_neg; [apply DecimalPos.Unsigned.to_uint_nonnil|exact H].
Qed.

(** ** White space and first characters *)

Lemma skip_ws_newline_indent (level : Z) (s : string) :
  skip_ws (newline_indent level ++ s) = skip_ws s.
Proof.
  unfold newline_indent, Text.nl, Text.mul. cbn [append].
  change (is_ws (ascii_of_nat 10)) with true. cbv iota.
  induction (Z.to_nat level) as [|k IH]; [reflexivity|].
  cbn [append]. change (is_ws " ") with true. cbv iota. exact IH.
Qed.

(** The first character of a value: a double quote, a bracket, a brace, a
    digit or the minus sign. *)
Definition starts_value (c : ascii) : bool :=
  Ascii.eqb c quote || Ascii.eqb c "[" || Ascii.eqb c "{" || is_digit c
  || Ascii.eqb c "-".

Definition starts_number (c : ascii) : bool :=
  is_digit c || Ascii.eqb c "-".

Lemma starts_value_facts (c : ascii) :
  starts_value c = true ->
  is_ws c = false /\ Ascii.eqb c "]" = false /\ Ascii.eqb c "}" = false.
Proof.
  destruct c as [[] [] [] [] [] [] [] []]; intros H;
    first [discriminate H | repeat split].
Qed.

Lemma starts_number_facts (c : ascii) :
  starts_number c = true ->
  is_ws c = false /\ Ascii.eqb c quote = false /\
  Ascii.eqb c "[" = false /\ Ascii.eqb c "{" = false.
Proof.
  destruct c as [[] [] [] [] [] [] [] []]; intros H;
    first [discriminate H | repeat split].
Qed.

Lemma string_of_uint_head (d : Decimal.uint) :
  d <> Decimal.Nil ->
  exists c r, NilEmpty.string_of_uint d = String c r /\ starts_number c = true.
Proof.
  destruct d; [contradiction|..]; intros _; eexists; eexists;
    (split; [reflexivity|reflexivity]).
Qed.

Lemma intstr_head (z : Z) :
  exists c r, intstr z = String c r /\ starts_number c = true.
Proof.
  unfold intstr. destruct z as [|p|p]; cbn [Z.to_int NilZero.string_of_int].
  - now exists "0"%char, "".
  - rewrite string_of_uint_nonnil by apply DecimalPos.Unsigned.to_uint_nonnil.
    apply string_of_uint_head, DecimalPos.Unsigned.to_uint_nonnil.
  - now eexists; eexists.
Qed.

Lemma iterencode_head (level : Z) (v : value) :
  exists c r, iterencode level v = String c r /\ starts_value c = true.
Proof.
  destruct v as [s|z|l|kv].
  - now eexists; eexists.
  - destruct (intstr_head z) as (c & r & H & Hc). exists c, r.
    split; [exact H|]. unfold starts_value.
    unfold starts_number in Hc. apply orb_true_iff in Hc as [Hc|Hc];
      rewrite Hc; now rewrite ?orb_true_r.
  - destruct l; now eexists; eexists.
  - destruct kv; now eexists; eexists.
Qed.

(** The readers look at their text from its first character that is not
    white space. *)
Lemma read_value_ws (fuel : nat) (s s' : string) :
  skip_ws s = skip_ws s' -> read_value fuel s = read_value fuel s'.
Proof. destruct fuel; [reflexivity|]. cbn [read_value]. now intros ->. Qed.

Lemma read_elements_ws (fuel : nat) (s s' : string) :
  skip_ws s = skip_ws s' -> read_elements fuel s = read_elements fuel s'.
Proof.
  destruct fuel; [reflexivity|]. cbn [read_elements]. intros H.
  now rewrite (read_value_ws fuel s s' H).
Qed.

Lemma read_members_ws (fuel : nat) (s s' : string) :
  skip_ws s = skip_ws s' -> read_members fuel s = read_members fuel s'.
Proof. destruct fuel; [reflexivity|]. cbn [read_members]. now intros ->. Qed.

(** ** Values *)

(** Fuel that reading a value takes. *)
Fixpoint weight (v : value) : nat :=
  match v with
  | VStr _ => 1
  | VInt _ => 1
  | VList l => S (fold_right (fun x n => S (weight x + n)) 0 l)
  | VDict kv => S (fold_right (fun p n => S (weight (snd p) + n)) 0 kv)
  end%nat.

(** [v] is read back from its text, whatever follows that is not a
    digit. *)
Definition reads (v : value) : Prop :=
  forall fuel level rest,
    (weight v <= fuel)%nat -> no_digit_head rest ->
    read_value fuel (iterencode level v ++ rest) = Some (v, rest).

Lemma items_one {A : Type} (encode : A -> string) (sep : string) (x : A) :
  items encode sep [x] = encode x.
Proof. reflexivity. Qed.

Lemma items_more {A : Type} (encode : A -> string) (sep : string)
  (x y : A) (r : list A) :
  items encode sep (x :: y :: r) =
  encode x ++ sep ++ items encode sep (y :: r).
Proof. reflexivity. Qed.

Lemma reads_str (s : string) : reads (VStr s).
Proof.
  intros fuel level rest Hf _. cbn [iterencode].
  destruct (read_string_encode s rest) as (text & -> & Ht).
  destruct fuel as [|fuel]; [simpl in Hf; lia|].
  cbn [read_value skip_ws]. change (is_ws quote) with false. cbv iota.
  change (Ascii.eqb quote quote) with true. cbv iota.
  now rewrite Ht.
Qed.

Lemma reads_int (z : Z) : reads (VInt z).
Proof.
  intros fuel level rest Hf H. cbn [iterencode].
  pose proof (read_int_intstr z rest H) as Hi.
  destruct (intstr_head z) as (c & r & Hz & Hc).
  rewrite Hz in *. cbn [append] in *.
  destruct fuel as [|fuel]; [simpl in Hf; lia|].
  cbn [read_value skip_ws].
  destruct (starts_number_facts c Hc) as (-> & -> & -> & ->).
  now rewrite Hi.
Qed.

Lemma newline_indent_no_digit (level : Z) (s : string) :
  no_digit_head (newline_indent level ++ s).
Proof. reflexivity. Qed.

Lemma read_elements_items (lv lv' : Z) (l : list value) :
  Forall reads l -> l <> [] ->
  forall fuel rest,
    (fold_right (fun x n => S (weight x + n)) 0 l <= fuel)%nat ->
    read_elements fuel
      (items (iterencode lv) ("," ++ newline_indent lv) l
         ++ newline_indent lv' ++ String "]" rest) = Some (l, rest).
Proof.
  induction 1 as [|x l Hx Hl IH]; [contradiction|]. intros _ fuel rest Hf.
  destruct fuel as [|fuel]; [simpl in Hf; lia|]. cbn [fold_right] in Hf.
  cbn [read_elements].
  destruct l as [|y l'].
  - rewrite items_one.
    unfold reads in Hx. rewrite Hx; [|lia|reflexivity].
    rewrite skip_ws_newline_indent. reflexivity.
  - rewrite items_more, !append_assoc.
    unfold reads in Hx. rewrite Hx; [|lia|reflexivity].
    cbn [append skip_ws]. change (is_ws ",") with false. cbv iota.
    change (Ascii.eqb "," ",") with true. cbv iota.
    rewrite (read_elements_ws fuel _ _ (skip_ws_newline_indent lv _)).
    rewrite IH; [reflexivity|discriminate|lia].
Qed.

Lemma read_members_items (lv lv' : Z) (kv : list (string * value)) :
  Forall (fun p => reads (snd p)) kv -> kv <> [] ->
  forall fuel rest,
    (fold_right (fun p n => S (weight (snd p) + n)) 0 kv <= fuel)%nat ->
    read_members fuel
      (items (fun p => encode_basestring (fst p) ++ ": "
                         ++ iterencode lv (snd p))
         ("," ++ newline_indent lv) kv
         ++ newline_indent lv' ++ String "}" rest) = Some (kv, rest).
Proof.
  induction 1 as [|[k x] kv Hx Hl IH]; [contradiction|].
  intros _ fuel rest Hf.
  destruct fuel as [|fuel]; [simpl in Hf; lia|].
  cbn [fold_right snd] in Hf. cbn [snd] in Hx.
  assert (Hkey : forall tail,
            read_members (S fuel)
              ((encode_basestring k ++ ": " ++ iterencode lv x) ++ tail) =
            match read_value fuel (iterencode lv x ++ tail) with
            | None => None
            | Some (x', r3) =>
                match skip_ws r3 with
                | EmptyString => None
                | String c3 r4 =>
                    if Ascii.eqb c3 ","
                    then option_map (fun lr => ((k, x') :: fst lr, snd lr))
                           (read_members fuel r4)
                    else if Ascii.eqb c3 "}" then Some ([(k, x')], r4)
                    else None
                end
            end).
  { intros tail. rewrite !append_assoc.
    destruct (read_string_encode k (": " ++ iterencode lv x ++ tail))
      as (text & -> & Ht).
    cbn [read_members skip_ws]. change (is_ws quote) with false. cbv iota.
    change (Ascii.eqb quote quote) with true. cbv iota. rewrite Ht.
    cbn [append skip_ws]. change (is_ws ":") with false. cbv iota.
    change (Ascii.eqb ":" ":") with true. cbv iota.
    now rewrite (read_value_ws fuel (String " " (iterencode lv x ++ tail))
                   (iterencode lv x ++ tail) eq_refl). }
  destruct kv as [|q kv'].
  - rewrite items_one. cbn [fst snd]. rewrite Hkey.
    unfold reads in Hx. rewrite Hx; [|lia|reflexivity].
    rewrite skip_ws_newline_indent. reflexivity.
  - rewrite items_more. cbn [fst snd]. rewrite append_assoc, Hkey.
    rewrite !append_assoc.
    unfold reads in Hx. rewrite Hx; [|lia|reflexivity].
    cbn [append skip_ws]. change (is_ws ",") with false. cbv iota.
    change (Ascii.eqb "," ",") with true. cbv iota.
    rewrite (read_members_ws fuel _ _ (skip_ws_newline_indent lv _)).
    rewrite IH; [reflexivity|discriminate|lia].
Qed.

Lemma items_head {A : Type} (encode : A -> string) (sep : string)
  (l : list A) (tail : string) :
  (forall x, exists c r, encode x = String c r /\ starts_value c = true) ->
  l <> [] ->
  exists c r, items encode sep l ++ tail = String c r /\
              starts_value c = true.
Proof.
  intros Henc Hl. destruct l as [|x l]; [contradiction|].
  destruct (Henc x) as (c & r & Hx & Hc).
  destruct l as [|y l].
  - rewrite items_one, Hx. now eexists; eexists.
  - rewrite items_more, Hx. now eexists; eexists.
Qed.

(** Every value is read back from its text. *)
Lemma read_value_iterencode (v : value) : reads v.
Proof.
  induction v as [s|z|l IH|kv IH] using value_induction.
  - apply reads_str.
  - apply reads_int.
  - intros fuel level rest Hf _.
    destruct fuel as [|fuel]; [simpl in Hf; lia|].
    destruct l as [|x l]; [reflexivity|].
    cbn [weight] in Hf. cbn [iterencode]. rewrite !append_assoc.
    pose proof (read_elements_items (level + 1) level (x :: l) IH
                  ltac:(discriminate) fuel rest ltac:(lia)) as Hr.
    destruct (items_head (iterencode (level + 1))
                ("," ++ newline_indent (level + 1)) (x :: l)
                (newline_indent level ++ String "]" rest)
                (iterencode_head (level + 1)) ltac:(discriminate))
      as (c & r & Hc & Hs).
    destruct (starts_value_facts c Hs) as (Hw & Hb & _).
    cbn [append read_value skip_ws]. change (is_ws "[") with false.
    cbv iota. change (Ascii.eqb "[" quote) with false.
    change (Ascii.eqb "[" "[") with true. cbv iota.
    rewrite skip_ws_newline_indent.
    rewrite (read_elements_ws fuel _ _ (skip_ws_newline_indent _ _)).
    cbn [append] in Hr, Hc. rewrite Hr, Hc. cbn [skip_ws]. rewrite Hw, Hb. reflexivity.
  - intros fuel level rest Hf _.
    destruct fuel as [|fuel]; [simpl in Hf; lia|].
    destruct kv as [|p kv]; [reflexivity|].
    cbn [weight] in Hf. cbn [iterencode]. rewrite !append_assoc.
    pose proof (read_members_items (level + 1) level (p :: kv) IH
                  ltac:(discriminate) fuel rest ltac:(lia)) as Hr.
    destruct (items_head
                (fun p => encode_basestring (fst p) ++ ": "
                            ++ iterencode (level + 1) (snd p))
                ("," ++ newline_indent (level + 1)) (p :: kv)
                (newline_indent level ++ String "}" rest)
                (fun p => ex_intro _ quote (ex_intro _ _ (conj eq_refl eq_refl)))
                ltac:(discriminate))
      as (c & r & Hc & Hs).
    destruct (starts_value_facts c Hs) as (Hw & _ & Hb).
    cbn [append read_value skip_ws]. change (is_ws "{") with false.
    cbv iota. change (Ascii.eqb "{" quote) with false.
    change (Ascii.eqb "{" "[") with false.
    change (Ascii.eqb "{" "{") with true. cbv iota.
    rewrite skip_ws_newline_indent.
    rewrite (read_members_ws fuel _ _ (skip_ws_newline_indent _ _)).
    cbn [append] in Hr, Hc. rewrite Hr, Hc. cbn [skip_ws]. rewrite Hw, Hb. reflexivity.
Qed.

(** ** The fuel of [load] *)

Lemma items_length {A : Type} (encode : A -> string) (sep : string)
  (w : A -> nat) (l : list A) :
  Forall (fun x => (w x <= String.length (encode x))%nat) l ->
  (1 <= String.length sep)%nat ->
  (fold_right (fun x n => S (w x + n)) 0 l
   <= S (String.length (items encode sep l)))%nat.
Proof.
  intros H Hsep. induction H as [|x l Hx Hl IH]; [simpl; lia|].
  destruct l as [|y l'].
  - rewrite items_one. simpl. lia.
  - rewrite items_more, !length_append. cbn [fold_right] in *. lia.
Qed.

Lemma weight_length (v : value) :
  forall level, (weight v <= String.length (iterencode level v))%nat.
Proof.
  induction v as [s|z|l IH|kv IH] using value_induction; intros level.
  - simpl. lia.
  - cbn [weight iterencode].
    destruct (intstr_head z) as (c & r & -> & _). simpl. lia.
  - destruct l as [|x l]; [simpl; lia|].
    cbn [weight iterencode]. rewrite !length_append.
    pose proof (items_length (iterencode (level + 1))
                  ("," ++ newline_indent (level + 1)) weight (x :: l)) as H.
    cbn [String.length append] in *.
    assert (Hall : Forall (fun x => (weight x
                     <= String.length (iterencode (level + 1) x))%nat)
                     (x :: l)).
    { eapply Forall_impl; [|exact IH]. intros a Ha. apply Ha. }
    specialize (H Hall ltac:(lia)). lia.
  - destruct kv as [|p kv]; [simpl; lia|].
    cbn [weight iterencode]. rewrite !length_append.
    pose proof (items_length
                  (fun p => encode_basestring (fst p) ++ ": "
                              ++ iterencode (level + 1) (snd p))
                  ("," ++ newline_indent (level + 1))
                  (fun p => weight (snd p)) (p :: kv)) as H.
    cbn [String.length append] in *.
    assert (Hall : Forall (fun p => (weight (snd p)
                     <= String.length
                          (encode_basestring (fst p) ++ ": "
                             ++ iterencode (level + 1) (snd p)))%nat)
                     (p :: kv)).
    { eapply Forall_impl; [|exact IH]. intros a Ha. cbv beta in Ha.
      rewrite !length_append. specialize (Ha (level + 1)). lia. }
    specialize (H Hall ltac:(lia)). lia.
Qed.

(** The text of a value stands for that value. *)
Lemma load_dump (v : value) : load (dump v) = Some v.
Proof.
  unfold load, dump.
  pose proof (read_value_iterencode v
                (S (String.length (iterencode 0 v))) 0 ""
                (le_S _ _ (weight_length v 0)) I) as H.
  rewrite append_nil_r in H. now rewrite H.
Qed.

End JsonFacts.

(** What the file holds is read back as the structure that was exported. *)
Lemma reconstruct_text_export (s : structure) :
  reconstruct_text (export_json_text s) = Some s.
Proof.
  unfold reconstruct_text, export_json_text.
  rewrite JsonFacts.load_dump. apply reconstruct_export.
Qed.

(** C9.  [export_json] writes into its file the text of [json.dump] for the
    structure it is given.  Reading that text back and reconstructing a
    tree from the value read gives the structure that was exported, for
    every tree (so for every tree that the walk returns) and for the empty
    dictionary: the kinds, names, paths and sizes of the nodes and the
    order of the children are those of the original, whatever characters
    the names hold (double quotes, backslashes and control characters are
    written as escapes, the others as they are).  So two structures with
    the same text are the same, and every value is read back from its
    text.  The text has the layout of [indent=2], shown for the tree of the
    root [.cfg], and the escapes of [ensure_ascii=False], shown for a name
    holding a double quote, a backslash, a tab, the character 1 and the two
    bytes of a letter outside ASCII. *)
Theorem C9_export_round_trip :
  (forall (s : structure) (output_file : string),
     exists w' c,
       Cli.export_json s output_file Cli.start = (w', Cli.Return tt) /\
       assoc output_file (Cli.disk w') = Some c /\
       file_characters c = export_json_text s) /\
  (forall s : structure, reconstruct_text (export_json_text s) = Some s) /\
  (forall s s' : structure,
     export_json_text s = export_json_text s' -> s = s') /\
  (forall v : value, Json.load (Json.dump v) = Some v) /\
  export_json_text
    (Some (Directory ".cfg" ".cfg" [FileEntry "a" ".cfg/a" 6])) =
    String.concat Text.nl
      ["{";
       "  " ++ quoted "name" ++ ": " ++ quoted ".cfg" ++ ",";
       "  " ++ quoted "type" ++ ": " ++ quoted "directory" ++ ",";
       "  " ++ quoted "path" ++ ": " ++ quoted ".cfg" ++ ",";
       "  " ++ quoted "children" ++ ": [";
       "    {";
       "      " ++ quoted "name" ++ ": " ++ quoted "a" ++ ",";
       "      " ++ quoted "type" ++ ": " ++ quoted "file" ++ ",";
       "      " ++ quoted "path" ++ ": " ++ quoted ".cfg/a" ++ ",";
       "      " ++ quoted "size" ++ ": 6";
       "    }";
       "  ]";
       "}"] /\
  export_json_text None = "{}" /\
  Json.encode_basestring
    (String Json.quote
       (String Json.backslash
          (String "009" (String "001" (String "195" (String "169" "")))))) =
    quoted
      (String Json.backslash
         (String Json.quote
            (String Json.backslash
               (String Json.backslash
                  (String Json.backslash
                     ("t" ++ String Json.backslash
                               ("u0001" ++ String "195" (String "169" "")))))))).
Proof.
  split; [|split; [|split; [|split; [|split; [|split]]]]].
  - intros s output_file. eexists. exists (Cli.Json (export_json s)).
    split; [reflexivity|]. split; [|reflexivity].
    cbn [Cli.disk Cli.write_line Cli.file_set Cli.start Cli.stdout assoc
         fst snd].
    now rewrite String.eqb_refl.
  - exact reconstruct_text_export.
  - intros s s' H.
    pose proof (reconstruct_text_export s) as Hs. rewrite H in Hs.
    rewrite reconstruct_text_export in Hs. congruence.
  - exact JsonFacts.load_dump.
  - vm_compute. reflexivity.
  - reflexivity.
  - vm_compute. reflexivity.
Qed.

(** The theorem at the tree of the walk of [h] with its hidden entries. *)
Lemma C9_witness :
  Some (Directory "h" "h"
          [Directory ".git" "h/.git" [FileEntry "HEAD" "h/.git/HEAD" 3];
           FileEntry ".env" "h/.env" 7; FileEntry "x" "h/x" 1]) =
  Some (Directory "h" "h"
          [Directory ".git" "h/.git" [FileEntry "HEAD" "h/.git/HEAD" 3];
           FileEntry ".env" "h/.env" 7; FileEntry "x" "h/x" 1]).
Proof.
  apply (proj1 (proj2 (proj2 C9_export_round_trip))).
  reflexivity.
Defined.

(* ================================================================== *)
(** * C10: a root whose own name is hidden *)

(** The hidden test is applied to the listed entries only, not to the root
    path.  For every root directory whose base name starts with a dot
    (described by a finite tree, walked with fuel for its levels) and every
    configuration that excludes hidden entries, a walk that passes the depth
    test returns the root directory node, populated as for any root: each
    listed entry that is not itself hidden is among the children (a
    directory when its walk is below the depth limit, another entry when
    files are included), and a failed listing gives the single error
    node. *)
Lemma hidden_root_is_walked (fs : filesystem)
  (self : FolderStructureGenerator) (t : fstree) (root_path : string)
  (fuel : nat) :
  is_hidden root_path = true ->
  exclude_hidden self = true ->
  below_limit self 0 ->
  describes fs t root_path -> is_tdir t = true -> (levels t <= fuel)%nat ->
  exists children,
    get_structure fs self fuel root_path 0 =
      Some (Some (Directory (PosixPath.basename root_path) root_path
                    children)) /\
    (forall items item,
       listdir fs root_path = Ok items -> In item items ->
       is_hidden (PosixPath.join root_path item) = false ->
       let item_path := PosixPath.join root_path item in
       (isdir fs item_path = true -> below_limit self (0 + 1) ->
        exists cs,
          In (Directory (PosixPath.basename item_path) item_path cs) children)
       /\
       (isdir fs item_path = false -> include_files self = true ->
        In (FileEntry item item_path (recorded_size fs item_path)) children))
    /\
    (forall e, listdir fs root_path = Raise e -> children = [error_node e]).
Proof.
  intros _ Hf Hopen Hd Ht Hl. apply depth_reached_false in Hopen.
  destruct (get_structure_directory fs self fuel t root_path 0 Hd Ht Hl Hopen)
    as [children Hw].
  exists children. split; [exact Hw|].
  destruct fuel as [|fuel]; [discriminate|]. split.
  - intros items item Hls Hin Hvis item_path.
    assert (Hvis' : (exclude_hidden self &&
                     is_hidden (PosixPath.join root_path item)) = false)
      by (rewrite Hvis; apply andb_false_r).
    destruct (children_present fs self fuel root_path 0 _ _ children
                items item Hw Hls Hin Hvis') as [Hdir Hfile].
    split; [|exact Hfile].
    intros Hi Hbelow. apply depth_reached_false in Hbelow.
    destruct (Hdir Hi Hbelow) as (cs & _ & Hc). now exists cs.
  - intros e Hls.
    destruct (get_structure_directory_inv _ _ _ _ _ _ _ _ Hw)
      as (_ & _ & _ & [(items & Hls' & _)|(e' & Hls' & ->)]); congruence.
Qed.

(** The lemma at the hidden root [.cfg]. *)
Lemma hidden_root_is_walked_cfg :
  exists children,
    get_structure fs_hidden_root default_generator 1 ".cfg" 0 =
      Some (Some (Directory (PosixPath.basename ".cfg") ".cfg" children)) /\
    (forall items item,
       listdir fs_hidden_root ".cfg" = Ok items -> In item items ->
       is_hidden (PosixPath.join ".cfg" item) = false ->
       let item_path := PosixPath.join ".cfg" item in
       (isdir fs_hidden_root item_path = true ->
        below_limit default_generator (0 + 1) ->
        exists cs,
          In (Directory (PosixPath.basename item_path) item_path cs) children)
       /\
       (isdir fs_hidden_root item_path = false ->
        include_files default_generator = true ->
        In (FileEntry item item_path (recorded_size fs_hidden_root item_path))
           children))
    /\
    (forall e, listdir fs_hidden_root ".cfg" = Raise e ->
               children = [error_node e]).
Proof.
  apply (hidden_root_is_walked fs_hidden_root default_generator
           (TDir [("a", TOther)]) ".cfg" 1).
  - reflexivity.
  - reflexivity.
  - exact I.
  - simpl. repeat split; reflexivity.
  - reflexivity.
  - simpl. lia.
Qed.

(** C10, at the input where the code departs from it.  The root [.cfg] has
    a hidden base name and hidden entries are excluded.  Without a depth
    limit, and with a limit of 1, the walk returns the root directory node
    with the listed file as its child: the hidden test does not touch the
    root.  With [max_depth = 0], the configuration that [main] builds for
    [-d 0], the walk returns the empty dictionary and no root node; so it
    does for the root [r], whose name is not hidden: it is the depth test,
    the first statement of the walk, and not the hidden test.  [main] then
    raises [KeyError] on [structure['type']] after its two heading
    lines. *)
Theorem C10_hidden_root_at_depth_zero :
  is_hidden ".cfg" = true /\
  exclude_hidden (with_depth 0) = true /\
  exists_ fs_hidden_root ".cfg" = true /\
  isdir fs_hidden_root ".cfg" = true /\
  get_structure fs_hidden_root default_generator 2 ".cfg" 0 =
    Some (Some (Directory ".cfg" ".cfg" [FileEntry "a" ".cfg/a" 6])) /\
  get_structure fs_hidden_root (with_depth 1) 2 ".cfg" 0 =
    Some (Some (Directory ".cfg" ".cfg" [FileEntry "a" ".cfg/a" 6])) /\
  get_structure fs_hidden_root (with_depth 0) 2 ".cfg" 0 = Some None /\
  (forall name path children,
     get_structure fs_hidden_root (with_depth 0) 2 ".cfg" 0 <>
       Some (Some (Directory name path children))) /\
  is_hidden "r" = false /\
  get_structure fs_depth (with_depth 0) 2 "r" 0 = Some None /\
  Cli.main Cli.name_suffix fs_hidden_root 2
    {| Cli.folder := ".cfg"; Cli.output := None; Cli.show_path := false;
       Cli.all := false; Cli.depth := Some 0; Cli.no_files := false;
       Cli.summary := false |} Cli.start =
    Some ({| Cli.console :=
               [Text.nl ++ "Analyzing folder: " ++ ".cfg";
                Text.nl ++ "Folder Structure:" ++ Text.nl];
             Cli.disk := [];
             Cli.stdout := Cli.Console |},
          Cli.RaiseKeyError "type").
Proof.
  repeat split; try reflexivity.
  intros name path children. discriminate.
Qed.

(* ================================================================== *)
(** * Further properties of the walk *)

Lemma preorder_self (n : node) : In n (preorder n).
Proof. destruct n; simpl; auto. Qed.

(** A node of a tree is its root or a child of one of its directories. *)
Lemma preorder_child_of (t : node) :
  forall m, In m (preorder t) ->
    m = t \/
    exists name path children,
      In (Directory name path children) (preorder t) /\ In m children.
Proof.
  induction t as [name path children IH|name path size|name]
    using node_induction; intros m Hm;
    [|destruct Hm as [<-|[]]; now left ..].
  destruct Hm as [<-|Hm]; [now left|]. right.
  apply in_flat_map in Hm as (c & Hc & Hm).
  rewrite Forall_forall in IH.
  destruct (IH c Hc m Hm) as [->|(n & p & cs & Hd & Hin)].
  - exists name, path, children. split; [now left|exact Hc].
  - exists n, p, cs. split; [|exact Hin].
    right. apply in_flat_map. now exists c.
Qed.

(** A property of all the children of all the directories of a tree, and of
    its root, is a property of all its nodes. *)
Lemma preorder_Forall (P : node -> Prop) (t : node) :
  P t ->
  (forall name path children,
     In (Directory name path children) (preorder t) -> Forall P children) ->
  Forall P (preorder t).
Proof.
  intros Ht Hc. apply Forall_forall. intros m Hm.
  destruct (preorder_child_of t m Hm) as [->|(n & p & cs & Hd & Hin)];
    [exact Ht|].
  specialize (Hc n p cs Hd). rewrite Forall_forall in Hc. now apply Hc.
Qed.

Lemma fs_depth_names_wf : names_wf fs_depth.
Proof. apply table_fs_names_wf. reflexivity. Qed.

Section Naming.
Variable fs : filesystem.
Variable self : FolderStructureGenerator.
Hypothesis wf : names_wf fs.

(** Every directory or file child is named after its item and located by
    joining the path of its parent and its name. *)
Lemma get_structure_child_paths (fuel : nat) (root_path : string) (d : Z)
  (t : node) :
  get_structure fs self fuel root_path d = Some (Some t) ->
  forall name path children,
    In (Directory name path children) (preorder t) ->
    Forall (fun c => is_error c = false ->
                     node_name c = PosixPath.basename (node_path c) /\
                     node_path c = PosixPath.join path (node_name c))
      children.
Proof.
  intros Hw name path children Hin.
  apply (get_structure_invariant fs self
           (fun p cs =>
              Forall (fun c => is_error c = false ->
                        node_name c = PosixPath.basename (node_path c) /\
                        node_path c = PosixPath.join p (node_name c)) cs))
    with (fuel := fuel) (root_path := root_path) (d := d) (t := t)
         (name := name) (path := path); try assumption.
  - intros rec root d' items cs Hls Hrec Hloop.
    apply Forall_forall. intros c Hc _.
    destruct (loop_In _ _ _ _ _ _ _ _ Hloop Hc) as (item & cl & Hi & H1 & H2).
    apply (proj1 (SortFacts.sort_In (sort_key fs root) items item)) in Hi.
    pose proof (wf root items Hls) as Hsep. rewrite Forall_forall in Hsep.
    pose proof (StrFacts.basename_join root item (Hsep item Hi)) as Hbase.
    destruct (item_children_inv _ _ _ _ _ _ _ _ H1 H2)
      as [_ [[_ Hr]|(_ & _ & ->)]].
    + destruct (Hrec _ _ _ Hr) as [cs' ->]. simpl.
      split; [reflexivity|now rewrite Hbase].
    + simpl. split; [now rewrite Hbase|reflexivity].
  - intros root e _. constructor; [|constructor].
    rewrite error_node_is_error. discriminate.
Qed.
End Naming.

(** X1.  On a file system whose listed names hold no separator, the tree
    returned by a walk is named and located consistently: the root node
    carries the base name of the path walked and that path; every directory
    node carries the base name of its own path; and every directory or file
    child carries the base name of its path, which is the path of its parent
    joined with its name. *)
Theorem X1_names_and_paths (fs : filesystem)
  (self : FolderStructureGenerator) (fuel : nat) (root_path : string)
  (d : Z) (t : node) :
  names_wf fs ->
  get_structure fs self fuel root_path d = Some (Some t) ->
  node_name t = PosixPath.basename root_path /\
  node_path t = root_path /\
  forall name path children,
    In (Directory name path children) (preorder t) ->
    name = PosixPath.basename path /\
    Forall (fun c => is_error c = false ->
                     node_name c = PosixPath.basename (node_path c) /\
                     node_path c = PosixPath.join path (node_name c))
      children.
Proof.
  intros Hwf Hw.
  destruct (get_structure_shape _ _ _ _ _ _ Hw) as [[_ ?]|[_ [cs0 Ht]]];
    [discriminate|].
  injection Ht as ->.
  split; [reflexivity|]. split; [reflexivity|].
  intros name path children Hin. split.
  - destruct (preorder_child_of _ _ Hin) as [Heq|(n & p & cs & Hd & Hc)].
    + now injection Heq as -> -> _.
    + pose proof (get_structure_child_paths fs self Hwf _ _ _ _ Hw n p cs Hd)
        as Hall.
      rewrite Forall_forall in Hall.
      now destruct (Hall _ Hc eq_refl) as [Hn _].
  - now apply (get_structure_child_paths fs self Hwf _ _ _ _ Hw name).
Qed.

(** The theorem at the walk of [h], hidden entries shown. *)
Lemma X1_witness :
  node_name
    (Directory "h" "h"
       [Directory ".git" "h/.git" [FileEntry "HEAD" "h/.git/HEAD" 3];
        FileEntry ".env" "h/.env" 7; FileEntry "x" "h/x" 1]) =
    PosixPath.basename "h" /\
  node_path
    (Directory "h" "h"
       [Directory ".git" "h/.git" [FileEntry "HEAD" "h/.git/HEAD" 3];
        FileEntry ".env" "h/.env" 7; FileEntry "x" "h/x" 1]) = "h" /\
  forall name path children,
    In (Directory name path children)
       (preorder
          (Directory "h" "h"
             [Directory ".git" "h/.git" [FileEntry "HEAD" "h/.git/HEAD" 3];
              FileEntry ".env" "h/.env" 7; FileEntry "x" "h/x" 1])) ->
    name = PosixPath.basename path /\
    Forall (fun c => is_error c = false ->
                     node_name c = PosixPath.basename (node_path c) /\
                     node_path c = PosixPath.join path (node_name c))
      children.
Proof.
  apply (X1_names_and_paths fs_hidden show_hidden 2 "h" 0).
  - exact fs_hidden_names_wf.
  - reflexivity.
Defined.

Lemma fold_max_le (f : node -> nat) (k : nat) (l : list node) :
  Forall (fun c => (f c <= k)%nat) l ->
  (fold_right (fun c m => Nat.max (f c) m) 0%nat l <= k)%nat.
Proof. induction 1; simpl; lia. Qed.

Section DepthBound.
Variable fs : filesystem.
Variable self : FolderStructureGenerator.
Variable m : Z.
Hypothesis limited : max_depth self = Some m.

Lemma get_structure_levels (fuel : nat) :
  forall root_path d t,
    get_structure fs self fuel root_path d = Some (Some t) ->
    Z.of_nat (node_levels t) <= m - d.
Proof.
  induction fuel as [|fuel IH]; intros root_path d t Hw; [discriminate|].
  destruct (get_structure_shape _ _ _ _ _ _ Hw) as [[_ ?]|[Hopen [cs Ht]]];
    [discriminate|].
  injection Ht as ->.
  assert (Hd : d < m).
  { unfold depth_reached in Hopen. rewrite limited in Hopen.
    now apply Z.leb_gt in Hopen. }
  assert (Hall : Forall (fun c => (node_levels c <= Z.to_nat (m - d - 1))%nat)
                   cs).
  { destruct (get_structure_directory_inv _ _ _ _ _ _ _ _ Hw)
      as (_ & _ & _ & [(items & Hls & _)|(e & _ & ->)]).
    - apply Forall_forall. intros c Hc.
      destruct (children_origin fs self fuel root_path d _ _ cs items c
                  Hw Hls Hc) as (item & _ & _ & [[_ Hr]|(_ & _ & ->)]).
      + specialize (IH _ _ _ Hr). lia.
      + simpl. lia.
    - constructor; [|constructor]. destruct e; simpl; lia. }
  apply fold_max_le in Hall. cbn [node_levels]. lia.
Qed.
End DepthBound.

(** X2.  With a depth limit [m], a tree returned by a walk started at depth
    [d] has at most [m - d] levels of directories: from the root call, no
    directory node lies [m] or more levels below the root, and no file entry
    more than [m] levels below it. *)
Theorem X2_depth_limit_bounds_the_tree (fs : filesystem)
  (self : FolderStructureGenerator) (m : Z) (fuel : nat)
  (root_path : string) (d : Z) (t : node) :
  max_depth self = Some m ->
  get_structure fs self fuel root_path d = Some (Some t) ->
  Z.of_nat (node_levels t) <= m - d.
Proof.
  intros Hm Hw. exact (get_structure_levels fs self m Hm fuel _ _ _ Hw).
Qed.

(** The theorem at the root [r] of [fs_depth] with a limit of 1. *)
Lemma X2_witness :
  Z.of_nat (node_levels (Directory "r" "r" [])) <= 1 - 0.
Proof.
  apply (X2_depth_limit_bounds_the_tree fs_depth (with_depth 1) 1 2 "r" 0);
    reflexivity.
Defined.

Lemma filter_none {A : Type} (f : A -> bool) (l : list A) :
  Forall (fun x => f x = false) l -> filter f l = [].
Proof.
  induction 1 as [|x l Hx _ IH]; [reflexivity|]. simpl. now rewrite Hx.
Qed.

(** X3.  With [include_files = false] the tree returned by a walk holds no
    file entry at any level, and its summary counts no file. *)
Theorem X3_no_files_when_excluded (fs : filesystem)
  (self : FolderStructureGenerator) (fuel : nat) (root_path : string)
  (d : Z) (t : node) :
  include_files self = false ->
  get_structure fs self fuel root_path d = Some (Some t) ->
  Forall (fun n => is_file n = false) (preorder t) /\
  files (get_summary t) = 0%nat.
Proof.
  intros Hf Hw.
  assert (Hall : Forall (fun n => is_file n = false) (preorder t)).
  { apply preorder_Forall.
    - destruct (get_structure_shape _ _ _ _ _ _ Hw) as [[_ ?]|[_ [cs Ht]]];
        [discriminate|].
      now injection Ht as ->.
    - intros name path children Hin.
      apply (get_structure_invariant fs self
               (fun _ cs => Forall (fun c => is_file c = false) cs))
        with (fuel := fuel) (root_path := root_path) (d := d) (t := t)
             (name := name) (path := path); try assumption.
      + intros rec root d' items cs Hls Hrec Hloop.
        apply Forall_forall. intros c Hc.
        destruct (loop_In _ _ _ _ _ _ _ _ Hloop Hc)
          as (item & cl & _ & H1 & H2).
        destruct (item_children_inv _ _ _ _ _ _ _ _ H1 H2)
          as [_ [[_ Hr]|(_ & Hinc & _)]]; [|congruence].
        now destruct (Hrec _ _ _ Hr) as [cs' ->].
      + intros root e _. constructor; [|constructor]. now destruct e. }
  split; [exact Hall|].
  rewrite get_summary_spec. simpl. unfold count_kind.
  now rewrite (filter_none _ _ Hall).
Qed.

(** The theorem at the walk of [h] without files. *)
Lemma X3_witness :
  Forall (fun n => is_file n = false)
    (preorder (Directory "h" "h" [Directory ".git" "h/.git" []])) /\
  files (get_summary (Directory "h" "h" [Directory ".git" "h/.git" []])) =
    0%nat.
Proof.
  apply (X3_no_files_when_excluded fs_hidden show_hidden_no_files 2 "h" 0);
    reflexivity.
Defined.

Section ErrorNodes.
Variable fs : filesystem.

(** The children of a directory node located at [path]: the one error node
    of a listing that raises, or no error node at all. *)
Definition error_children (path : string) (children : list node) : Prop :=
  (exists e, listdir fs path = Raise e /\ children = [error_node e]) \/
  (exists items,
     listdir fs path = Ok items /\
     Forall (fun c => is_error c = false) children).

Lemma flat_map_counts (f g : node -> bool) (cs : list node) :
  Forall (fun c => List.length (filter f (preorder c)) =
                   List.length (filter g (preorder c))) cs ->
  List.length (filter f (flat_map preorder cs)) =
  List.length (filter g (flat_map preorder cs)).
Proof.
  induction 1 as [|c cs Hc _ IH]; [reflexivity|].
  simpl. now rewrite !filter_app, !length_app, Hc, IH.
Qed.

(** In a tree whose directories have such children, the error nodes are as
    many as the directories that cannot be listed. *)
Lemma error_count (t : node) :
  (forall name path children,
     In (Directory name path children) (preorder t) ->
     error_children path children) ->
  is_error t = false ->
  List.length (filter is_error (preorder t)) =
  List.length (filter (listing_fails fs) (preorder t)).
Proof.
  induction t as [name path children IH|name path size|name]
    using node_induction; intros Hinv Ht; [|reflexivity|discriminate].
  cbn [preorder filter is_error].
  destruct (Hinv name path children (preorder_self _))
    as [(e & Hls & ->)|(items & Hls & Hne)].
  - cbn [listing_fails]. rewrite Hls. destruct e; reflexivity.
  - cbn [listing_fails]. rewrite Hls. apply flat_map_counts.
    rewrite Forall_forall in IH, Hne. apply Forall_forall. intros c Hc.
    apply (IH c Hc); [|now apply Hne].
    intros n p cs Hin. apply (Hinv n). right. apply in_flat_map.
    now exists c.
Qed.
End ErrorNodes.

Lemma get_structure_error_children (fs : filesystem)
  (self : FolderStructureGenerator) (fuel : nat) (root_path : string)
  (d : Z) (t : node) :
  get_structure fs self fuel root_path d = Some (Some t) ->
  forall name path children,
    In (Directory name path children) (preorder t) ->
    error_children fs path children.
Proof.
  intros Hw name path children Hin.
  apply (get_structure_invariant fs self (error_children fs))
    with (fuel := fuel) (root_path := root_path) (d := d) (t := t)
         (name := name) (path := path); try assumption.
  - intros rec root d' items cs Hls Hrec Hloop. right. exists items.
    split; [exact Hls|]. apply Forall_forall. intros c Hc.
    destruct (loop_In _ _ _ _ _ _ _ _ Hloop Hc) as (item & cl & _ & H1 & H2).
    destruct (item_children_inv _ _ _ _ _ _ _ _ H1 H2)
      as [_ [[_ Hr]|(_ & _ & ->)]]; [|reflexivity].
    now destruct (Hrec _ _ _ Hr) as [cs' ->].
  - intros root e Hls. left. now exists e.
Qed.

(** X4.  In a tree returned by a walk, a directory node whose path cannot
    be listed has exactly one child, the error node of the failure, and a
    directory node whose path is listed has no error node among its
    children; so the summary counts as many errors as the tree has
    directories that could not be listed. *)
Theorem X4_errors_are_failed_listings (fs : filesystem)
  (self : FolderStructureGenerator) (fuel : nat) (root_path : string)
  (d : Z) (t : node) :
  get_structure fs self fuel root_path d = Some (Some t) ->
  (forall name path children,
     In (Directory name path children) (preorder t) ->
     (exists e, listdir fs path = Raise e /\ children = [error_node e]) \/
     (exists items,
        listdir fs path = Ok items /\
        Forall (fun c => is_error c = false) children)) /\
  errors (get_summary t) =
    List.length (filter (listing_fails fs) (preorder t)).
Proof.
  intros Hw. split.
  - exact (get_structure_error_children fs self fuel root_path d t Hw).
  - rewrite get_summary_spec. simpl. unfold count_kind.
    apply error_count.
    + exact (get_structure_error_children fs self fuel root_path d t Hw).
    + destruct (get_structure_shape _ _ _ _ _ _ Hw) as [[_ ?]|[_ [cs Ht]]];
        [discriminate|].
      now injection Ht as ->.
Qed.

(** The theorem at the root [q], which holds a denied directory. *)
Lemma X4_witness :
  (forall name path children,
     In (Directory name path children)
        (preorder
           (Directory "q" "q"
              [Directory "k" "q/k" [ErrorNode "[Permission Denied]"];
               FileEntry "f" "q/f" 5])) ->
     (exists e, listdir fs_denied path = Raise e /\
                children = [error_node e]) \/
     (exists items,
        listdir fs_denied path = Ok items /\
        Forall (fun c => is_error c = false) children)) /\
  errors
    (get_summary
       (Directory "q" "q"
          [Directory "k" "q/k" [ErrorNode "[Permission Denied]"];
           FileEntry "f" "q/f" 5])) =
    List.length
      (filter (listing_fails fs_denied)
         (preorder
            (Directory "q" "q"
               [Directory "k" "q/k" [ErrorNode "[Permission Denied]"];
                FileEntry "f" "q/f" 5]))).
Proof.
  apply (X4_errors_are_failed_listings fs_denied default_generator 2 "q" 0).
  reflexivity.
Defined.

Section ExactChildren.
Variable fs : filesystem.
Variable self : FolderStructureGenerator.
Variable rec : string -> Z -> option structure.
Variable root_path : string.
Variable d : Z.

Hypothesis rec_shape :
  forall p d' r, rec p d' = Some r ->
    (depth_reached self d' = true /\ r = None) \/
    (depth_reached self d' = false /\
     exists cs, r = Some (Directory (PosixPath.basename p) p cs)).

(** The paths of the children are those of the kept items, in order. *)
Lemma loop_paths (items : list string) (children : list node) :
  loop fs self rec root_path d items [] = Some children ->
  map node_path children =
  map (PosixPath.join root_path) (filter (kept fs self root_path d) items).
Proof.
  revert children.
  induction items as [|item rest IH]; intros children.
  - now intros [= <-].
  - rewrite loop_cons.
    destruct (item_children fs self rec root_path d item) as [c|] eqn:Hc;
      [|discriminate].
    destruct (loop fs self rec root_path d rest []) as [cs|]; [|discriminate].
    intros [= <-]. rewrite map_app, (IH cs eq_refl). clear IH.
    unfold item_children in Hc. cbn [filter]. unfold kept at 2.
    destruct (exclude_hidden self && is_hidden _);
      [now injection Hc as <-|].
    cbn [negb andb].
    destruct (isdir fs (PosixPath.join root_path item)).
    + destruct (rec _ _) as [r|] eqn:Hr; [|discriminate].
      injection Hc as <-.
      destruct (rec_shape _ _ _ Hr) as [[-> ->]|[-> [cs' ->]]]; reflexivity.
    + destruct (include_files self); now injection Hc as <-.
Qed.
End ExactChildren.

(** X5.  The children of a directory node returned by a walk are exactly
    the kept entries of its listing, one node each, in the sorted order:
    the sequence of their paths is that of the listed names, sorted, without
    those filtered as hidden, the directories cut at the depth limit and,
    when files are excluded, the entries that are not directories, each
    joined to the path walked. *)
Theorem X5_children_are_the_kept_entries (fs : filesystem)
  (self : FolderStructureGenerator) (fuel : nat) (root_path : string)
  (d : Z) (name path : string) (children : list node)
  (items : list string) :
  get_structure fs self (S fuel) root_path d =
    Some (Some (Directory name path children)) ->
  listdir fs root_path = Ok items ->
  map node_path children =
  map (PosixPath.join root_path)
    (filter (kept fs self root_path d)
       (PyList.sort (sort_key fs root_path) items)).
Proof.
  intros Hw Hls.
  destruct (get_structure_directory_inv _ _ _ _ _ _ _ _ Hw)
    as (_ & _ & _ & [(items' & Hls' & Hloop)|(e & Hls' & _)]);
    [|congruence].
  assert (items' = items) as -> by congruence.
  apply (loop_paths fs self (get_structure fs self fuel) root_path d);
    [|exact Hloop].
  intros p d' r Hr. exact (get_structure_shape _ _ _ _ _ _ Hr).
Qed.

(** The theorem at the directory [d] of [fs_sorting]. *)
Lemma X5_witness :
  map node_path
    [Directory "A" "d/A" []; Directory "B" "d/B" [];
     FileEntry "a.txt" "d/a.txt" 1; FileEntry "b.txt" "d/b.txt" 2] =
  map (PosixPath.join "d")
    (filter (kept fs_sorting default_generator "d" 0)
       (PyList.sort (sort_key fs_sorting "d")
          ["b.txt"; "A"; "a.txt"; "B"])).
Proof.
  apply (X5_children_are_the_kept_entries fs_sorting default_generator 1
           "d" 0 "d" "d"); reflexivity.
Defined.

(* ================================================================== *)
(** * The options as prunings of the full tree *)

Lemma prune_hidden_directory (name path : string) (children : list node) :
  prune_hidden (Directory name path children) =
  Directory name path (prune_children children).
Proof.
  cbn [prune_hidden]. f_equal. unfold prune_children.
  induction children as [|c cs IH]; [reflexivity|].
  cbn [flat_map]. rewrite IH. now destruct (is_hidden (node_path c)).
Qed.

Lemma drop_files_directory (name path : string) (children : list node) :
  drop_files (Directory name path children) =
  Directory name path (drop_children children).
Proof.
  cbn [drop_files]. f_equal. unfold drop_children.
  induction children as [|c cs IH]; [reflexivity|].
  cbn [flat_map]. rewrite IH. now destruct (is_file c).
Qed.

Section PruneHidden.
Variable fs : filesystem.
Variable self : FolderStructureGenerator.

Let shown := set_exclude_hidden self false.
Let filtered := set_exclude_hidden self true.

Lemma loop_prune (rec_s rec_f : string -> Z -> option structure)
  (root_path : string) (d : Z) :
  (forall p d' r, rec_s p d' = Some r ->
     rec_f p d' = Some (option_map prune_hidden r)) ->
  (forall p d' r, rec_s p d' = Some (Some r) -> node_path r = p) ->
  forall items cs,
    loop fs shown rec_s root_path d items [] = Some cs ->
    loop fs filtered rec_f root_path d items [] = Some (prune_children cs).
Proof.
  intros Hrec Hpath items.
  induction items as [|item rest IH]; intros cs.
  - now intros [= <-].
  - rewrite !loop_cons.
    destruct (item_children fs shown rec_s root_path d item) as [c|] eqn:Hc;
      [|discriminate].
    destruct (loop fs shown rec_s root_path d rest []) as [cs'|];
      [|discriminate].
    intros [= <-]. rewrite (IH cs' eq_refl). clear IH.
    unfold prune_children. rewrite flat_map_app.
    fold (prune_children c). fold (prune_children cs').
    assert (Hitem : item_children fs filtered rec_f root_path d item =
                    Some (prune_children c)); [|now rewrite Hitem].
    unfold item_children in *. cbn [shown filtered set_exclude_hidden
      exclude_hidden include_files andb] in *.
    destruct (isdir fs (PosixPath.join root_path item)).
    + destruct (rec_s _ _) as [r|] eqn:Hr; [|discriminate].
      injection Hc as <-. rewrite (Hrec _ _ _ Hr).
      destruct r as [n|]; cbn [option_map appended app prune_children
                                 flat_map].
      * rewrite (Hpath _ _ _ Hr), app_nil_r.
        now destruct (is_hidden (PosixPath.join root_path item)).
      * now destruct (is_hidden (PosixPath.join root_path item)).
    + destruct (include_files self); injection Hc as <-;
        cbn [prune_children flat_map node_path prune_hidden app];
        now destruct (is_hidden (PosixPath.join root_path item)).
Qed.

Lemma get_structure_prune (fuel : nat) :
  forall root_path d r,
    get_structure fs shown fuel root_path d = Some r ->
    get_structure fs filtered fuel root_path d =
      Some (option_map prune_hidden r).
Proof.
  induction fuel as [|fuel IH]; intros root_path d r; [discriminate|].
  rewrite !get_structure_S. unfold get_structure_body.
  change (depth_reached filtered d) with (depth_reached shown d).
  destruct (depth_reached shown d); [now intros [= <-]|].
  destruct (listdir fs root_path) as [items|e].
  - destruct (loop fs shown _ _ _ _ _) as [cs|] eqn:Hloop; [|discriminate].
    intros [= <-].
    rewrite (loop_prune _ (get_structure fs filtered fuel) root_path d IH)
      with (cs := cs); [now rewrite <- prune_hidden_directory| |exact Hloop].
    intros p d' n Hn.
    destruct (get_structure_shape _ _ _ _ _ _ Hn) as [[_ ?]|[_ [cs' Ht]]];
      [discriminate|].
    now injection Ht as ->.
  - intros [= <-]. cbn [option_map]. rewrite prune_hidden_directory.
    now destruct e.
Qed.
End PruneHidden.

(** X6.  Excluding hidden entries during the walk gives the tree that the
    walk with hidden entries shown returns, pruned afterwards: whenever the
    walk of the full configuration returns, the walk that excludes hidden
    entries returns the same result without the nodes (and their subtrees)
    whose path has a base name starting with a dot, the root apart. *)
Theorem X6_excluding_hidden_is_pruning (fs : filesystem)
  (self : FolderStructureGenerator) (fuel : nat) (root_path : string)
  (d : Z) (r : structure) :
  get_structure fs (set_exclude_hidden self false) fuel root_path d =
    Some r ->
  get_structure fs (set_exclude_hidden self true) fuel root_path d =
    Some (option_map prune_hidden r).
Proof. apply get_structure_prune. Qed.

(** The theorem at the walk of [h]. *)
Lemma X6_witness :
  get_structure fs_hidden (set_exclude_hidden default_generator true) 2
    "h" 0 =
  Some (option_map prune_hidden
          (Some (Directory "h" "h"
                   [Directory ".git" "h/.git"
                      [FileEntry "HEAD" "h/.git/HEAD" 3];
                    FileEntry ".env" "h/.env" 7; FileEntry "x" "h/x" 1]))).
Proof.
  apply (X6_excluding_hidden_is_pruning fs_hidden default_generator 2 "h" 0).
  reflexivity.
Defined.

Section DropFiles.
Variable fs : filesystem.
Variable self : FolderStructureGenerator.

Let with_files := set_include_files self true.
Let without_files := set_include_files self false.

Lemma loop_drop (rec_w rec_o : string -> Z -> option structure)
  (root_path : string) (d : Z) :
  (forall p d' r, rec_w p d' = Some r ->
     rec_o p d' = Some (option_map drop_files r)) ->
  (forall p d' r, rec_w p d' = Some (Some r) -> is_file r = false) ->
  forall items cs,
    loop fs with_files rec_w root_path d items [] = Some cs ->
    loop fs without_files rec_o root_path d items [] =
      Some (drop_children cs).
Proof.
  intros Hrec Hdir items.
  induction items as [|item rest IH]; intros cs.
  - now intros [= <-].
  - rewrite !loop_cons.
    destruct (item_children fs with_files rec_w root_path d item)
      as [c|] eqn:Hc; [|discriminate].
    destruct (loop fs with_files rec_w root_path d rest []) as [cs'|];
      [|discriminate].
    intros [= <-]. rewrite (IH cs' eq_refl). clear IH.
    unfold drop_children. rewrite flat_map_app.
    fold (drop_children c). fold (drop_children cs').
    assert (Hitem : item_children fs without_files rec_o root_path d item =
                    Some (drop_children c)); [|now rewrite Hitem].
    unfold item_children in *. cbn [with_files without_files
      set_include_files exclude_hidden include_files] in *.
    destruct (exclude_hidden self && is_hidden _);
      [now injection Hc as <-|].
    destruct (isdir fs (PosixPath.join root_path item)).
    + destruct (rec_w _ _) as [r|] eqn:Hr; [|discriminate].
      injection Hc as <-. rewrite (Hrec _ _ _ Hr).
      destruct r as [n|]; [|reflexivity].
      cbn [option_map appended app drop_children flat_map].
      now rewrite (Hdir _ _ _ Hr).
    + now injection Hc as <-.
Qed.

Lemma get_structure_drop (fuel : nat) :
  forall root_path d r,
    get_structure fs with_files fuel root_path d = Some r ->
    get_structure fs without_files fuel root_path d =
      Some (option_map drop_files r).
Proof.
  induction fuel as [|fuel IH]; intros root_path d r; [discriminate|].
  rewrite !get_structure_S. unfold get_structure_body.
  change (depth_reached without_files d) with (depth_reached with_files d).
  destruct (depth_reached with_files d); [now intros [= <-]|].
  destruct (listdir fs root_path) as [items|e].
  - destruct (loop fs with_files _ _ _ _ _) as [cs|] eqn:Hloop;
      [|discriminate].
    intros [= <-].
    rewrite (loop_drop _ (get_structure fs without_files fuel) root_path d
               IH) with (cs := cs);
      [now rewrite <- drop_files_directory| |exact Hloop].
    intros p d' n Hn.
    destruct (get_structure_shape _ _ _ _ _ _ Hn) as [[_ ?]|[_ [cs' Ht]]];
      [discriminate|].
    now injection Ht as ->.
  - intros [= <-]. cbn [option_map]. rewrite drop_files_directory.
    now destruct e.
Qed.
End DropFiles.

(** X7.  Excluding files during the walk gives the tree that the walk with
    files included returns, without its file entries: whenever the walk that
    includes files returns, the walk that excludes them returns the same
    result with every file entry removed, directories and error nodes
    staying where they are. *)
Theorem X7_excluding_files_is_dropping (fs : filesystem)
  (self : FolderStructureGenerator) (fuel : nat) (root_path : string)
  (d : Z) (r : structure) :
  get_structure fs (set_include_files self true) fuel root_path d = Some r ->
  get_structure fs (set_include_files self false) fuel root_path d =
    Some (option_map drop_files r).
Proof. apply get_structure_drop. Qed.

(** The theorem at the walk of [q], which holds a denied directory and a
    file. *)
Lemma X7_witness :
  get_structure fs_denied (set_include_files default_generator false) 2
    "q" 0 =
  Some (option_map drop_files
          (Some (Directory "q" "q"
                   [Directory "k" "q/k" [ErrorNode "[Permission Denied]"];
                    FileEntry "f" "q/f" 5]))).
Proof.
  apply (X7_excluding_files_is_dropping fs_denied default_generator 2 "q" 0).
  reflexivity.
Defined.

Section Truncate.
Variable fs : filesystem.
Variable self : FolderStructureGenerator.
Variable m : Z.

Let unlimited := set_max_depth self None.
Let limited := set_max_depth self (Some m).

Lemma loop_truncate (rec_u rec_l : string -> Z -> option structure)
  (root_path : string) (d d' : Z) (k : nat) :
  (forall p r, rec_u p (d' + 1) = Some r ->
     exists t, r = Some t /\ is_directory t = true /\
               rec_l p (d + 1) = Some (truncate k t)) ->
  forall items cs,
    loop fs unlimited rec_u root_path d' items [] = Some cs ->
    loop fs limited rec_l root_path d items [] =
      Some (truncate_children k cs).
Proof.
  intros Hrec items.
  induction items as [|item rest IH]; intros cs.
  - now intros [= <-].
  - rewrite !loop_cons.
    destruct (item_children fs unlimited rec_u root_path d' item)
      as [c|] eqn:Hc; [|discriminate].
    destruct (loop fs unlimited rec_u root_path d' rest []) as [cs'|];
      [|discriminate].
    intros [= <-]. rewrite (IH cs' eq_refl). clear IH.
    unfold truncate_children. rewrite flat_map_app.
    fold (truncate_children k c). fold (truncate_children k cs').
    assert (Hitem : item_children fs limited rec_l root_path d item =
                    Some (truncate_children k c)); [|now rewrite Hitem].
    unfold item_children in *. cbn [unlimited limited set_max_depth
      exclude_hidden include_files] in *.
    destruct (exclude_hidden self && is_hidden _);
      [now injection Hc as <-|].
    destruct (isdir fs (PosixPath.join root_path item)).
    + destruct (rec_u _ _) as [r|] eqn:Hr; [|discriminate].
      injection Hc as <-.
      destruct (Hrec _ _ Hr) as (t & -> & Ht & ->).
      cbn [appended app truncate_children flat_map]. rewrite Ht.
      now rewrite app_nil_r.
    + destruct (include_files self); now injection Hc as <-.
Qed.

Lemma get_structure_truncate (fuel : nat) :
  forall root_path d d' t,
    get_structure fs unlimited fuel root_path d' = Some (Some t) ->
    get_structure fs limited fuel root_path d =
      Some (truncate (Z.to_nat (m - d)) t).
Proof.
  induction fuel as [|fuel IH]; intros root_path d d' t; [discriminate|].
  rewrite !get_structure_S. unfold get_structure_body.
  change (depth_reached unlimited d') with false. cbv iota.
  unfold depth_reached. cbn [limited set_max_depth max_depth].
  destruct (m <=? d) eqn:Hreach.
  - apply Z.leb_le in Hreach.
    replace (Z.to_nat (m - d)) with 0%nat by lia.
    destruct (listdir fs root_path);
      [destruct (loop _ _ _ _ _ _ _)|]; intros [= <-]; reflexivity.
  - apply Z.leb_gt in Hreach.
    replace (Z.to_nat (m - d)) with (S (Z.to_nat (m - (d + 1)))) by lia.
    destruct (listdir fs root_path) as [items|e].
    + destruct (loop fs unlimited _ _ _ _ _) as [cs|] eqn:Hloop;
        [|discriminate].
      intros [= <-].
      rewrite (loop_truncate (get_structure fs unlimited fuel)
                 (get_structure fs limited fuel) root_path
                 d d' (Z.to_nat (m - (d + 1)))) with (cs := cs);
        [reflexivity| |exact Hloop].
      intros p r Hr.
      destruct (get_structure_shape _ _ _ _ _ _ Hr)
        as [[H _]|[_ [cs' ->]]]; [discriminate|].
      eexists. split; [reflexivity|]. split; [reflexivity|].
      exact (IH _ _ _ _ Hr).
    + intros [= <-]. cbn [truncate flat_map]. now destruct e.
Qed.
End Truncate.

(** X8.  A depth limit only cuts the tree of the unlimited walk: whenever
    the walk without depth limit returns a tree, the walk with limit [m]
    started at depth [d] returns that tree cut after [m - d] levels of
    directories (the empty dictionary when no level is left), every
    directory at the cut being left out of its parent and everything above
    the cut being unchanged. *)
Theorem X8_depth_limit_is_truncation (fs : filesystem)
  (self : FolderStructureGenerator) (m : Z) (fuel : nat)
  (root_path : string) (d d' : Z) (t : node) :
  get_structure fs (set_max_depth self None) fuel root_path d' =
    Some (Some t) ->
  get_structure fs (set_max_depth self (Some m)) fuel root_path d =
    Some (truncate (Z.to_nat (m - d)) t).
Proof. apply get_structure_truncate. Qed.

(** The theorem at the root [r] of [fs_depth], cut after one level. *)
Lemma X8_witness :
  get_structure fs_depth (set_max_depth default_generator (Some 1)) 2
    "r" 0 =
  Some (truncate (Z.to_nat (1 - 0))
          (Directory "r" "r"
             [Directory "sub" "r/sub"
                [FileEntry "deep.txt" "r/sub/deep.txt" 4]])).
Proof.
  apply (X8_depth_limit_is_truncation fs_depth default_generator 1 2 "r" 0 0).
  reflexivity.
Defined.

(* ================================================================== *)
(** * Further properties of the printer *)

Lemma starts_with_app (a b line : string) :
  starts_with (a ++ b) line -> starts_with a line.
Proof.
  intros [tail ->]. exists (b ++ tail). apply string_app_assoc.
Qed.

Lemma render_children_Forall (P : string -> Prop)
  (render : node -> bool -> list string) (cs : list node) :
  Forall (fun c => forall b, Forall P (render c b)) cs ->
  Forall P (render_children render cs).
Proof.
  induction 1 as [|c cs Hc _ IH]; [constructor|].
  cbn [render_children]. destruct cs as [|c' cs'].
  - apply Hc.
  - apply Forall_app. split; [apply Hc|exact IH].
Qed.

(** Every line of a subtree begins with the prefix it is printed under. *)
Lemma print_structure_prefixed (show_path : bool) (n : node) :
  forall prefix is_last,
    Forall (starts_with prefix)
      (print_structure n prefix is_last show_path).
Proof.
  induction n as [name path children IH|name path size|name]
    using node_induction; intros prefix is_last.
  - rewrite print_structure_directory. constructor; [now eexists|].
    apply render_children_Forall.
    eapply Forall_impl; [|exact IH]. intros c Hc b.
    eapply Forall_impl; [|apply Hc].
    intros line. apply starts_with_app.
  - constructor; [now eexists|constructor].
  - constructor; [now eexists|constructor].
Qed.

(** X9.  The lines printed for a node are nested under it: the first line
    begins with the prefix, and every line after it (the lines of the
    subtree below the node) begins with the prefix extended by four spaces
    when the node was printed as last child, and by a bar and three spaces
    otherwise. *)
Theorem X9_lines_are_nested (n : node) (prefix : string)
  (is_last show_path : bool) :
  exists first rest,
    print_structure n prefix is_last show_path = first :: rest /\
    starts_with prefix first /\
    Forall (starts_with (prefix ++ (if is_last then "    " else "│   ")))
      rest.
Proof.
  destruct n as [name path children|name path size|name].
  - rewrite print_structure_directory. do 2 eexists.
    split; [reflexivity|]. split; [now eexists|].
    apply render_children_Forall. apply Forall_forall.
    intros c _ b. apply print_structure_prefixed.
  - do 2 eexists. split; [reflexivity|]. split; [now eexists|constructor].
  - do 2 eexists. split; [reflexivity|]. split; [now eexists|constructor].
Qed.

(** X10.  The printer and the summary agree: the lines printed for a tree
    are as many as the directories, files and errors the summary counts
    together. *)
Theorem X10_lines_match_summary (n : node) (prefix : string)
  (is_last show_path : bool) :
  List.length (print_structure n prefix is_last show_path) =
  (directories (get_summary n) + files (get_summary n) +
   errors (get_summary n))%nat.
Proof.
  rewrite (Forall2_length (print_structure_shows show_path n prefix is_last)).
  rewrite get_summary_spec. simpl. unfold count_kind.
  symmetry. apply kinds_partition.
Qed.

(* ================================================================== *)
(** * The window and the generator walk alike *)

Lemma string_app_nil_r (a : string) : a ++ "" = a.
Proof. induction a as [|x a IH]; simpl; [reflexivity|now rewrite IH]. Qed.

(** On a listed name the two tests for hidden entries coincide. *)
Lemma is_hidden_join (root_path item : string) :
  Str.has_sep item = false ->
  is_hidden (PosixPath.join root_path item) = Str.startswith item ".".
Proof.
  intros Hsep. unfold is_hidden. now rewrite StrFacts.basename_join.
Qed.

Section GuiAgrees.
Variable fs : filesystem.
Variable g : Gui.FolderStructureGUI.

(** The text of the children of a directory at [depth]. *)
Definition gui_children (depth : Z) (cs : list node) : string :=
  fold_right
    (fun c rest =>
       (if is_directory c then gui_text (Gui.show_paths g) (depth + 1) c
        else gui_text (Gui.show_paths g) depth c) ++ rest)
    EmptyString cs.

Lemma gui_children_app (depth : Z) (a b : list node) :
  gui_children depth (a ++ b) = gui_children depth a ++ gui_children depth b.
Proof.
  induction a as [|c a IH]; [reflexivity|].
  cbn [app gui_children fold_right]. fold (gui_children depth (a ++ b)).
  fold (gui_children depth a). now rewrite IH, string_app_assoc.
Qed.

Lemma gui_loop (rec_c : string -> Z -> option structure)
  (rec_g : string -> Z -> option string) (path : string) (d depth : Z) :
  (forall p r, rec_c p (d + 1) = Some r ->
     exists t, r = Some t /\ is_directory t = true /\
               rec_g p (depth + 1) =
                 Some (gui_text (Gui.show_paths g) (depth + 1) t)) ->
  forall items,
    Forall (fun x => Str.has_sep x = false) items ->
    forall cs result,
      loop fs (generator_of_gui g) rec_c path d items [] = Some cs ->
      Gui.loop fs g rec_g path depth items result =
        Some (result ++ gui_children depth cs).
Proof.
  intros Hrec items Hsep.
  induction Hsep as [|item rest Hitem _ IH]; intros cs result.
  - intros [= <-]. simpl. now rewrite string_app_nil_r.
  - rewrite loop_cons.
    destruct (item_children fs (generator_of_gui g) rec_c path d item)
      as [c|] eqn:Hc; [|discriminate].
    destruct (loop fs (generator_of_gui g) rec_c path d rest [])
      as [cs'|]; [|discriminate].
    intros [= <-]. rewrite gui_children_app.
    unfold item_children in Hc.
    cbn [generator_of_gui exclude_hidden] in Hc.
    rewrite (is_hidden_join path item Hitem) in Hc.
    cbn [Gui.loop].
    destruct (negb (Gui.include_hidden g) && Str.startswith item ".").
    + injection Hc as <-. now rewrite (IH cs' result eq_refl).
    + destruct (isdir fs (PosixPath.join path item)).
      * destruct (rec_c _ _) as [r|] eqn:Hr; [|discriminate].
        injection Hc as <-.
        destruct (Hrec _ _ Hr) as (t & -> & Ht & ->).
        rewrite (IH cs' _ eq_refl).
        cbn [appended app gui_children fold_right]. rewrite Ht.
        now rewrite string_app_nil_r, string_app_assoc.
      * cbn [include_files generator_of_gui] in Hc.
        destruct (Gui.include_files g); injection Hc as <-.
        -- rewrite (IH cs' _ eq_refl).
           cbn [gui_children fold_right is_directory gui_text].
           now rewrite string_app_nil_r, !string_app_assoc.
        -- now rewrite (IH cs' result eq_refl).
Qed.
End GuiAgrees.

Section GuiWalk.
Variable fs : filesystem.
Variable g : Gui.FolderStructureGUI.
Hypothesis wf : names_wf fs.

Lemma get_folder_structure_agrees (fuel : nat) :
  forall path d depth t,
    get_structure fs (generator_of_gui g) fuel path d = Some (Some t) ->
    Gui.get_folder_structure fs g fuel path depth =
      Some (gui_text (Gui.show_paths g) depth t).
Proof.
  induction fuel as [|fuel IH]; intros path d depth t; [discriminate|].
  rewrite get_structure_S. unfold get_structure_body.
  change (depth_reached (generator_of_gui g) d) with false. cbv iota.
  cbn [Gui.get_folder_structure]. unfold Gui.get_folder_structure_body.
  destruct (listdir fs path) as [items|e] eqn:Hls.
  - destruct (loop fs _ _ _ _ _ _) as [cs|] eqn:Hloop; [|discriminate].
    intros [= <-].
    rewrite (gui_loop fs g (get_structure fs (generator_of_gui g) fuel)
               (Gui.get_folder_structure fs g fuel) path d depth)
      with (cs := cs).
    + cbn [gui_text]. fold (gui_children g depth cs).
      now rewrite !string_app_assoc.
    + intros p r Hr.
      destruct (get_structure_shape _ _ _ _ _ _ Hr)
        as [[H _]|[_ [cs' ->]]]; [discriminate|].
      eexists. split; [reflexivity|]. split; [reflexivity|].
      exact (IH _ _ _ _ Hr).
    + apply SortFacts.sort_Forall. exact (wf path items Hls).
    + exact Hloop.
  - intros [= <-]. cbn [gui_text fold_right].
    destruct e as [|msg]; cbn [error_node is_directory gui_text];
      rewrite string_app_nil_r, !string_app_assoc; reflexivity.
Qed.
End GuiWalk.

(** X11.  The window and the generator show the same tree: on a file system
    whose listed names hold no separator, whenever the generator configured
    like the window (hidden entries excluded unless the box is ticked, files
    as the box says, no depth limit) returns a tree, the text of the window
    for the same path is that tree written in the style of the window: one
    line per node, in the same order, directories as [name/] indented by
    their depth, files and errors under the indentation of their
    directory. *)
Theorem X11_window_text_is_the_tree (fs : filesystem)
  (g : Gui.FolderStructureGUI) (fuel : nat) (path : string) (d depth : Z)
  (t : node) :
  names_wf fs ->
  get_structure fs (generator_of_gui g) fuel path d = Some (Some t) ->
  Gui.get_folder_structure fs g fuel path depth =
    Some (gui_text (Gui.show_paths g) depth t).
Proof.
  intros Hwf. apply get_folder_structure_agrees. exact Hwf.
Qed.

Lemma fs_denied_names_wf : names_wf fs_denied.
Proof. apply table_fs_names_wf. reflexivity. Qed.

(** The theorem at the root [q], which holds a denied directory and a
    file. *)
Lemma X11_witness :
  Gui.get_folder_structure fs_denied
    {| Gui.include_hidden := false; Gui.show_paths := true;
       Gui.include_files := true |} 2 "q" 0 =
  Some (gui_text true 0
          (Directory "q" "q"
             [Directory "k" "q/k" [ErrorNode "[Permission Denied]"];
              FileEntry "f" "q/f" 5])).
Proof.
  apply (X11_window_text_is_the_tree fs_denied
           {| Gui.include_hidden := false; Gui.show_paths := true;
              Gui.include_files := true |} 2 "q" 0 0).
  - exact fs_denied_names_wf.
  - reflexivity.
Defined.

(** The text of the window for [q], line by line. *)
Example window_text_of_q :
  Gui.get_folder_structure fs_denied
    {| Gui.include_hidden := false; Gui.show_paths := true;
       Gui.include_files := true |} 2 "q" 0 =
  Some ("q/" ++ Text.nl ++
        "    k/" ++ Text.nl ++
        "        └── [Permission Denied]" ++ Text.nl ++
        "    ├── f (q/f)" ++ Text.nl).
Proof. reflexivity. Qed.

(* ================================================================== *)
(** * The command line *)

Module CliFacts.
Import Cli.

Lemma assoc_head {A : Type} (k : string) (a : A) (l : list (string * A)) :
  assoc k ((k, a) :: l) = Some a.
Proof. simpl. now rewrite String.eqb_refl. Qed.

Lemma assoc_other {A : Type} (k k' : string) (a : A)
  (l : list (string * A)) :
  k <> k' -> assoc k ((k', a) :: l) = assoc k l.
Proof.
  intros H. simpl. now rewrite (proj2 (String.eqb_neq k k') H).
Qed.

(** Printing on the console. *)
Lemma print_all_console (lines : list string) :
  forall w, stdout w = Console ->
    print_all lines w =
    ({| console := console w ++ lines; disk := disk w; stdout := Console |},
     Return tt).
Proof.
  induction lines as [|line rest IH]; intros w Hw.
  - simpl. unfold ret. rewrite app_nil_r. destruct w; simpl in *.
    now subst.
  - cbn [print_all]. unfold bind, print, write_line. rewrite Hw.
    rewrite IH by reflexivity. simpl. now rewrite <- app_assoc.
Qed.

(** Printing into the file [sys.stdout] points to: the lines are added to
    the file, the console and the other files are untouched. *)
Lemma print_all_file (name : string) (lines : list string) :
  forall w current,
    stdout w = ToFile name ->
    assoc name (disk w) = Some (Text current) ->
    exists w',
      print_all lines w = (w', Return tt) /\
      stdout w' = ToFile name /\
      console w' = console w /\
      assoc name (disk w') = Some (Text (current ++ lines)) /\
      (forall other, other <> name ->
         assoc other (disk w') = assoc other (disk w)).
Proof.
  induction lines as [|line rest IH]; intros w current Hw Hfile.
  - exists w. simpl. rewrite app_nil_r. now repeat split.
  - cbn [print_all]. unfold bind, print, write_line. rewrite Hw.
    assert (Hcur : lines_of w name = current)
      by (unfold lines_of; now rewrite Hfile).
    rewrite Hcur.
    destruct (IH (file_set name (Text (current ++ [line])) w)
                (current ++ [line])%list Hw (assoc_head _ _ _))
      as (w' & Hrun & Hout & Hcon & Hlines & Hother).
    exists w'. rewrite Hrun. split; [reflexivity|]. split; [exact Hout|].
    split; [exact Hcon|]. split.
    + rewrite Hlines. now rewrite <- app_assoc.
    + intros other Hne. rewrite (Hother other Hne).
      unfold file_set. cbn [disk]. now apply assoc_other.
Qed.

(** [export_txt] on a tree, from the console. *)
Lemma export_txt_tree (n : node) (output_file : string) (show_path : bool)
  (w : world) :
  stdout w = Console ->
  exists w',
    export_txt (Some n) output_file show_path w = (w', Return tt) /\
    stdout w' = Console /\
    console w' =
      (console w
         ++ [(Text.nl ++ "Structure exported to: " ++ output_file)%string])%list
    /\
    assoc output_file (disk w') =
      Some (Text (print_structure n "" true show_path)) /\
    (forall other, other <> output_file ->
       assoc other (disk w') = assoc other (disk w)).
Proof.
  intros Hw. unfold export_txt, bind, get_stdout, open_w, set_stdout.
  cbn [print_structure_dict]. rewrite Hw.
  destruct (print_all_file output_file
              (print_structure n "" true show_path)
              {| console := console (file_set output_file (Text []) w);
                 disk := disk (file_set output_file (Text []) w);
                 stdout := ToFile output_file |} [] eq_refl
              (assoc_head _ _ _))
    as (w' & Hrun & Hout & Hcon & Hlines & Hother).
  rewrite Hrun. unfold print, write_line. cbn [stdout console disk].
  eexists. split; [reflexivity|]. cbn [stdout console disk].
  split; [reflexivity|]. split; [now rewrite Hcon|]. split.
  - exact Hlines.
  - intros other Hne. rewrite (Hother other Hne). cbn [disk file_set].
    now apply assoc_other.
Qed.

Lemma print_console (text : string) (w : world) :
  stdout w = Console ->
  print text w =
  ({| console := console w ++ [text]; disk := disk w; stdout := Console |},
   Return tt).
Proof. intros Hw. unfold print, write_line. now rewrite Hw. Qed.

Lemma print_summary_tree (n : node) (w : world) :
  stdout w = Console ->
  print_summary (Some n) w =
  ({| console := console w ++ summary_lines n; disk := disk w;
      stdout := Console |}, Return tt).
Proof.
  intros Hw. unfold print_summary, bind, get_summary_dict, ret.
  rewrite (print_console _ w Hw).
  rewrite !print_console by reflexivity. cbn [console disk stdout].
  unfold summary_lines.
  destruct (0 <? errors (get_summary n))%nat.
  - rewrite print_console by reflexivity. cbn [console disk stdout].
    now rewrite <- !app_assoc.
  - now rewrite <- !app_assoc, app_nil_r.
Qed.

Section Report.
Variable suffix : string -> string.
Variable a : args.
Variable n : node.

Lemma export_tree (w : world) :
  stdout w = Console ->
  exists w',
    export suffix a (Some n) w = (w', Return tt) /\
    stdout w' = Console /\
    console w' = (console w ++ export_lines suffix a)%list /\
    exported suffix a n (disk w) (disk w').
Proof.
  intros Hw. unfold export, export_lines, exported.
  assert (Hsame : w = {| console := console w ++ []; disk := disk w;
                         stdout := Console |}).
  { rewrite app_nil_r. destruct w; simpl in *. now subst. }
  destruct (output a) as [out|].
  - destruct (String.eqb out "").
    + exists w. unfold ret. rewrite app_nil_r. now repeat split.
    + destruct (String.eqb (Str.lower (suffix out)) ".json").
      * unfold Cli.export_json, bind.
        rewrite print_console by exact Hw.
        eexists. split; [reflexivity|]. now repeat split.
      * destruct (export_txt_tree n (text_name suffix out) (show_path a)
                    w Hw) as (w' & Hrun & Hout & Hcon & Hfile & Hother).
        exists w'. unfold text_name in *. rewrite Hrun. now repeat split.
  - exists w. unfold ret. rewrite app_nil_r. now repeat split.
Qed.

(** [main] from the walk on, for a tree. *)
Lemma report_tree (w : world) :
  stdout w = Console ->
  exists w',
    report suffix a (Some n) w = (w', Return tt) /\
    stdout w' = Console /\
    console w' =
      (console w
         ++ [(Text.nl ++ "Folder Structure:" ++ Text.nl)%string]
         ++ print_structure n "" true (show_path a)
         ++ (if summary a then summary_lines n else [])
         ++ export_lines suffix a)%list /\
    exported suffix a n (disk w) (disk w').
Proof.
  intros Hw. unfold report, bind. cbn [print_structure_dict].
  rewrite (print_console _ w Hw).
  rewrite print_all_console by reflexivity. cbn [console disk stdout].
  destruct (summary a).
  - rewrite print_summary_tree by reflexivity. cbn [console disk stdout].
    destruct (export_tree
                {| console :=
                     ((console w
                         ++ [(Text.nl ++ "Folder Structure:"
                                ++ Text.nl)%string])
                        ++ print_structure n "" true (show_path a))
                       ++ summary_lines n;
                   disk := disk w; stdout := Console |} eq_refl)
      as (w' & Hrun & Hout & Hcon & Hexp).
    exists w'. rewrite Hrun. split; [reflexivity|]. split; [exact Hout|].
    split; [|exact Hexp]. rewrite Hcon. cbn [console].
    now rewrite <- !app_assoc.
  - unfold ret.
    destruct (export_tree
                {| console :=
                     (console w
                        ++ [(Text.nl ++ "Folder Structure:"
                               ++ Text.nl)%string])
                       ++ print_structure n "" true (show_path a);
                   disk := disk w; stdout := Console |} eq_refl)
      as (w' & Hrun & Hout & Hcon & Hexp).
    exists w'. rewrite Hrun. split; [reflexivity|]. split; [exact Hout|].
    split; [|exact Hexp]. rewrite Hcon. cbn [console].
    now rewrite <- !app_assoc.
Qed.
End Report.

(** A run of [main] on a directory below the depth limit. *)
Lemma main_shows_tree (suffix : string -> string) (fs : filesystem)
  (fuel : nat) (a : args) (t : fstree) :
  exists_ fs (folder a) = true ->
  describes fs t (folder a) -> is_tdir t = true -> (levels t <= fuel)%nat ->
  below_limit (generator_of a) 0 ->
  exists n w',
    get_structure fs (generator_of a) fuel (folder a) 0 = Some (Some n) /\
    main suffix fs fuel a start = Some (w', Return tt) /\
    stdout w' = Console /\
    console w' =
      ([(Text.nl ++ "Analyzing folder: " ++ folder a)%string;
        (Text.nl ++ "Folder Structure:" ++ Text.nl)%string]
         ++ print_structure n "" true (show_path a)
         ++ (if summary a then summary_lines n else [])
         ++ export_lines suffix a)%list /\
    exported suffix a n [] (disk w').
Proof.
  intros Hex Hd Ht Hl Hopen. apply depth_reached_false in Hopen.
  destruct (get_structure_directory fs (generator_of a) fuel t (folder a) 0
              Hd Ht Hl Hopen) as [children Hw].
  unfold main. rewrite Hex, (describes_isdir fs t _ Hd), Ht, Hw.
  cbn [negb].
  destruct (report_tree suffix a
              (Directory (PosixPath.basename (folder a)) (folder a) children)
              (write_line (Text.nl ++ "Analyzing folder: " ++ folder a)
                 start) eq_refl)
    as (w' & Hrun & Hout & Hcon & Hexp).
  do 2 eexists. split; [reflexivity|]. rewrite Hrun.
  split; [reflexivity|]. split; [exact Hout|]. split; [|exact Hexp].
  rewrite Hcon. reflexivity.
Qed.
End CliFacts.

(** X12.  [export_txt] of a tree, called while [sys.stdout] is the console,
    ends normally with [sys.stdout] put back to the console: the output
    file holds exactly the lines [print_structure] prints for the tree (a
    former content is replaced), the console receives the one message that
    names the file, and no other file is touched.  On the empty dictionary
    it raises [KeyError] instead, leaving the output file emptied and
    [sys.stdout] still pointing to it. *)
Theorem X12_export_txt_writes_the_printed_lines (output_file : string)
  (show_path : bool) (w : Cli.world) :
  Cli.stdout w = Cli.Console ->
  (forall n,
     exists w',
       Cli.export_txt (Some n) output_file show_path w =
         (w', Cli.Return tt) /\
       Cli.stdout w' = Cli.Console /\
       Cli.console w' =
         (Cli.console w
            ++ [(Text.nl ++ "Structure exported to: "
                   ++ output_file)%string])%list /\
       assoc output_file (Cli.disk w') =
         Some (Cli.Text (print_structure n "" true show_path)) /\
       (forall other, other <> output_file ->
          assoc other (Cli.disk w') = assoc other (Cli.disk w))) /\
  (exists w',
     Cli.export_txt None output_file show_path w =
       (w', Cli.RaiseKeyError "type") /\
     Cli.stdout w' = Cli.ToFile output_file /\
     Cli.console w' = Cli.console w /\
     assoc output_file (Cli.disk w') = Some (Cli.Text [])).
Proof.
  intros Hw. split.
  - intros n. now apply CliFacts.export_txt_tree.
  - eexists. split; [reflexivity|]. cbn.
    split; [reflexivity|]. split; [reflexivity|].
    now rewrite String.eqb_refl.
Qed.

(** The theorem for the file [out.txt], from a fresh console. *)
Lemma X12_witness :
  (forall n,
     exists w',
       Cli.export_txt (Some n) "out.txt" false Cli.start =
         (w', Cli.Return tt) /\
       Cli.stdout w' = Cli.Console /\
       Cli.console w' =
         (Cli.console Cli.start
            ++ [(Text.nl ++ "Structure exported to: "
                   ++ "out.txt")%string])%list /\
       assoc "out.txt" (Cli.disk w') =
         Some (Cli.Text (print_structure n "" true false)) /\
       (forall other, other <> "out.txt" ->
          assoc other (Cli.disk w') = assoc other (Cli.disk Cli.start))) /\
  (exists w',
     Cli.export_txt None "out.txt" false Cli.start =
       (w', Cli.RaiseKeyError "type") /\
     Cli.stdout w' = Cli.ToFile "out.txt" /\
     Cli.console w' = Cli.console Cli.start /\
     assoc "out.txt" (Cli.disk w') = Some (Cli.Text [])).
Proof.
  apply (X12_export_txt_writes_the_printed_lines "out.txt" false Cli.start).
  reflexivity.
Defined.

(** X13.  [main] on an existing directory with a depth of 0 or less does
    not show a tree: the walk returns the empty dictionary and
    [print_structure] raises [KeyError] on it, after the two heading lines
    have been printed; no summary is printed and no file is written,
    whatever the other arguments. *)
Theorem X13_main_raises_at_depth_zero (suffix : string -> string)
  (fs : filesystem) (fuel : nat) (a : Cli.args) (m : Z) :
  exists_ fs (Cli.folder a) = true ->
  isdir fs (Cli.folder a) = true ->
  Cli.depth a = Some m -> m <= 0 ->
  Cli.main suffix fs (S fuel) a Cli.start =
    Some ({| Cli.console :=
               [Text.nl ++ "Analyzing folder: " ++ Cli.folder a;
                Text.nl ++ "Folder Structure:" ++ Text.nl];
             Cli.disk := [];
             Cli.stdout := Cli.Console |},
          Cli.RaiseKeyError "type").
Proof.
  intros Hex Hdir Hm Hle. unfold Cli.main. rewrite Hex, Hdir. cbn [negb].
  rewrite get_structure_reached; [reflexivity|].
  unfold depth_reached. cbn [Cli.generator_of max_depth]. rewrite Hm.
  now apply Z.leb_le.
Qed.

(** The theorem at the directory [d] of [fs_sorting] with [--depth 0]. *)
Lemma X13_witness :
  Cli.main Cli.name_suffix fs_sorting 1
    {| Cli.folder := "d"; Cli.output := Some "tree.txt";
       Cli.show_path := false; Cli.all := false; Cli.depth := Some 0;
       Cli.no_files := false; Cli.summary := true |} Cli.start =
    Some ({| Cli.console :=
               [Text.nl ++ "Analyzing folder: " ++ "d";
                Text.nl ++ "Folder Structure:" ++ Text.nl];
             Cli.disk := [];
             Cli.stdout := Cli.Console |},
          Cli.RaiseKeyError "type").
Proof.
  apply (X13_main_raises_at_depth_zero Cli.name_suffix fs_sorting 0
           {| Cli.folder := "d"; Cli.output := Some "tree.txt";
              Cli.show_path := false; Cli.all := false; Cli.depth := Some 0;
              Cli.no_files := false; Cli.summary := true |} 0);
    first [reflexivity | lia].
Defined.

(** X14.  [main] on an existing directory (described by a finite tree,
    the depth unset or at least 1) ends normally, and its console holds, in
    this order: the two heading lines, the lines of [print_structure] for
    the tree that [get_structure] returns for the arguments, the summary of
    that same tree when asked for (its error line only when it counts an
    error), and the message of the export when a file was asked for. *)
Theorem X14_main_shows_the_walked_tree (suffix : string -> string)
  (fs : filesystem) (fuel : nat) (a : Cli.args) (t : fstree) :
  exists_ fs (Cli.folder a) = true ->
  describes fs t (Cli.folder a) -> is_tdir t = true ->
  (levels t <= fuel)%nat ->
  below_limit (Cli.generator_of a) 0 ->
  exists n w',
    get_structure fs (Cli.generator_of a) fuel (Cli.folder a) 0 =
      Some (Some n) /\
    Cli.main suffix fs fuel a Cli.start = Some (w', Cli.Return tt) /\
    Cli.stdout w' = Cli.Console /\
    Cli.console w' =
      ([(Text.nl ++ "Analyzing folder: " ++ Cli.folder a)%string;
        (Text.nl ++ "Folder Structure:" ++ Text.nl)%string]
         ++ print_structure n "" true (Cli.show_path a)
         ++ (if Cli.summary a then Cli.summary_lines n else [])
         ++ Cli.export_lines suffix a)%list.
Proof.
  intros Hex Hd Ht Hl Hopen.
  destruct (CliFacts.main_shows_tree suffix fs fuel a t Hex Hd Ht Hl Hopen)
    as (n & w' & Hw & Hrun & Hout & Hcon & _).
  now exists n, w'.
Qed.

(** The theorem at the root [q], with summary and an output name. *)
Lemma X14_witness :
  exists n w',
    get_structure fs_denied
      (Cli.generator_of
         {| Cli.folder := "q"; Cli.output := Some "tree.md";
            Cli.show_path := true; Cli.all := false; Cli.depth := None;
            Cli.no_files := false; Cli.summary := true |}) 2 "q" 0 =
      Some (Some n) /\
    Cli.main Cli.name_suffix fs_denied 2
      {| Cli.folder := "q"; Cli.output := Some "tree.md";
         Cli.show_path := true; Cli.all := false; Cli.depth := None;
         Cli.no_files := false; Cli.summary := true |} Cli.start =
      Some (w', Cli.Return tt) /\
    Cli.stdout w' = Cli.Console /\
    Cli.console w' =
      ([(Text.nl ++ "Analyzing folder: " ++ "q")%string;
        (Text.nl ++ "Folder Structure:" ++ Text.nl)%string]
         ++ print_structure n "" true true
         ++ Cli.summary_lines n
         ++ Cli.export_lines Cli.name_suffix
              {| Cli.folder := "q"; Cli.output := Some "tree.md";
                 Cli.show_path := true; Cli.all := false; Cli.depth := None;
                 Cli.no_files := false; Cli.summary := true |})%list.
Proof.
  apply (X14_main_shows_the_walked_tree Cli.name_suffix fs_denied 2
           {| Cli.folder := "q"; Cli.output := Some "tree.md";
              Cli.show_path := true; Cli.all := false; Cli.depth := None;
              Cli.no_files := false; Cli.summary := true |}
           (TDir [("k", TFail PermissionError); ("f", TOther)])).
  - reflexivity.
  - simpl. repeat split; reflexivity.
  - reflexivity.
  - simpl. lia.
  - exact I.
Defined.

(** X15.  What [main] writes is what it shows: in a run as above, without
    an output name (or with an empty one) nothing is written; with a name
    whose suffix is [.json] in any case the one file written holds the
    value of the very tree that was printed, from which that tree can be
    read back; with any other name the text file (the name itself when its
    suffix is [.txt] in any case, the name followed by [.txt] otherwise)
    holds exactly the lines of the tree printed on the console, and nothing
    else is written. *)
Theorem X15_main_exports_what_it_shows (suffix : string -> string)
  (fs : filesystem) (fuel : nat) (a : Cli.args) (t : fstree) :
  exists_ fs (Cli.folder a) = true ->
  describes fs t (Cli.folder a) -> is_tdir t = true ->
  (levels t <= fuel)%nat ->
  below_limit (Cli.generator_of a) 0 ->
  exists n w',
    get_structure fs (Cli.generator_of a) fuel (Cli.folder a) 0 =
      Some (Some n) /\
    Cli.main suffix fs fuel a Cli.start = Some (w', Cli.Return tt) /\
    reconstruct (Cli.dumped (Some n)) = Some (Some n) /\
    match Cli.output a with
    | None => Cli.disk w' = []
    | Some out =>
        if String.eqb out "" then Cli.disk w' = []
        else if String.eqb (Str.lower (suffix out)) ".json"
        then Cli.disk w' = [(out, Cli.Json (Cli.dumped (Some n)))]
        else
          assoc (Cli.text_name suffix out) (Cli.disk w') =
            Some (Cli.Text (print_structure n "" true (Cli.show_path a))) /\
          forall other, other <> Cli.text_name suffix out ->
            assoc other (Cli.disk w') = None
    end.
Proof.
  intros Hex Hd Ht Hl Hopen.
  destruct (CliFacts.main_shows_tree suffix fs fuel a t Hex Hd Ht Hl Hopen)
    as (n & w' & Hw & Hrun & _ & _ & Hexp).
  exists n, w'. split; [exact Hw|]. split; [exact Hrun|].
  split; [apply reconstruct_export|]. exact Hexp.
Qed.

(** The theorem at the root [q], exported as text under [tree.md]. *)
Lemma X15_witness :
  exists n w',
    get_structure fs_denied
      (Cli.generator_of
         {| Cli.folder := "q"; Cli.output := Some "tree.md";
            Cli.show_path := true; Cli.all := false; Cli.depth := None;
            Cli.no_files := false; Cli.summary := true |}) 2 "q" 0 =
      Some (Some n) /\
    Cli.main Cli.name_suffix fs_denied 2
      {| Cli.folder := "q"; Cli.output := Some "tree.md";
         Cli.show_path := true; Cli.all := false; Cli.depth := None;
         Cli.no_files := false; Cli.summary := true |} Cli.start =
      Some (w', Cli.Return tt) /\
    reconstruct (Cli.dumped (Some n)) = Some (Some n) /\
    (assoc (Cli.text_name Cli.name_suffix "tree.md") (Cli.disk w') =
       Some (Cli.Text (print_structure n "" true true)) /\
     forall other, other <> Cli.text_name Cli.name_suffix "tree.md" ->
       assoc other (Cli.disk w') = None).
Proof.
  apply (X15_main_exports_what_it_shows Cli.name_suffix fs_denied 2
           {| Cli.folder := "q"; Cli.output := Some "tree.md";
              Cli.show_path := true; Cli.all := false; Cli.depth := None;
              Cli.no_files := false; Cli.summary := true |}
           (TDir [("k", TFail PermissionError); ("f", TOther)])).
  - reflexivity.
  - simpl. repeat split; reflexivity.
  - reflexivity.
  - simpl. lia.
  - exact I.
Defined.

(** X16.  The command line and the window differ on a path that exists
    but is not a directory (its listing raises): [main] prints one line
    saying that the path is not a folder, walks nothing and writes nothing;
    the window, which only tests that the path exists, shows it as a
    directory line followed by the one line of the failure, and no
    dialog. *)
Theorem X16_only_main_rejects_a_file (suffix : string -> string)
  (fs : filesystem) (fuel : nat) (a : Cli.args)
  (g : Gui.FolderStructureGUI) (win : Gui.window) (e : exn) :
  Cli.folder a <> "" ->
  exists_ fs (Cli.folder a) = true ->
  isdir fs (Cli.folder a) = false ->
  listdir fs (Cli.folder a) = Raise e ->
  Cli.main suffix fs fuel a Cli.start =
    Some ({| Cli.console :=
               ["Error: '" ++ Cli.folder a ++ "' is not a folder!"];
             Cli.disk := [];
             Cli.stdout := Cli.Console |}, Cli.Return tt) /\
  Gui.generate_structure fs g (S fuel) (Cli.folder a) win =
    Some ({| Gui.output_text :=
               PosixPath.basename (Cli.folder a) ++ "/" ++ Text.nl ++
               "    └── " ++ node_name (error_node e) ++ Text.nl;
             Gui.status_bar := "Done. Folder: " ++ Cli.folder a |},
          Gui.NoDialog).
Proof.
  intros Hne Hex Hdir Hls. split.
  - unfold Cli.main. now rewrite Hex, Hdir.
  - unfold Gui.generate_structure.
    rewrite (proj2 (String.eqb_neq _ _) Hne), Hex. cbn [negb orb].
    cbn [Gui.get_folder_structure]. unfold Gui.get_folder_structure_body.
    rewrite Hls. destruct e as [|msg]; cbn [Text.mul Z.to_nat];
      simpl; rewrite ?string_app_assoc; reflexivity.
Qed.

(** The theorem at the regular file [n.txt]. *)
Lemma X16_witness :
  Cli.main Cli.name_suffix fs_file 0
    {| Cli.folder := "n.txt"; Cli.output := None; Cli.show_path := false;
       Cli.all := false; Cli.depth := None; Cli.no_files := false;
       Cli.summary := false |} Cli.start =
    Some ({| Cli.console := ["Error: '" ++ "n.txt" ++ "' is not a folder!"];
             Cli.disk := [];
             Cli.stdout := Cli.Console |}, Cli.Return tt) /\
  Gui.generate_structure fs_file
    {| Gui.include_hidden := false; Gui.show_paths := false;
       Gui.include_files := true |} 1 "n.txt"
    {| Gui.output_text := ""; Gui.status_bar := "Ready" |} =
    Some ({| Gui.output_text :=
               PosixPath.basename "n.txt" ++ "/" ++ Text.nl ++
               "    └── " ++
               node_name
                 (error_node (OtherException "[Errno 20] Not a directory"))
               ++ Text.nl;
             Gui.status_bar := "Done. Folder: " ++ "n.txt" |},
          Gui.NoDialog).
Proof.
  apply (X16_only_main_rejects_a_file Cli.name_suffix fs_file 0
           {| Cli.folder := "n.txt"; Cli.output := None;
              Cli.show_path := false; Cli.all := false; Cli.depth := None;
              Cli.no_files := false; Cli.summary := false |}
           {| Gui.include_hidden := false; Gui.show_paths := false;
              Gui.include_files := true |}
           {| Gui.output_text := ""; Gui.status_bar := "Ready" |}
           (OtherException "[Errno 20] Not a directory")).
  - discriminate.
  - reflexivity.
  - reflexivity.
  - reflexivity.
Defined.

(* ================================================================== *)
(** * Two more facts: the hidden test and the summary of a directory *)

(** X17.  The hidden test looks at the listed name only: for a name
    without separator, [is_hidden] of the name joined to any root path is
    [True] exactly when the name starts with a dot, so a root or an
    ancestor with a hidden name hides none of its entries, and the window's
    test on the bare name decides the same. *)
Theorem X17_hidden_test_is_on_the_name (root_path item : string) :
  Str.has_sep item = false ->
  is_hidden (PosixPath.join root_path item) = Str.startswith item ".".
Proof. apply is_hidden_join. Qed.

(** The theorem for the entry [a] of the hidden directory [/home/.cfg/]. *)
Lemma X17_witness :
  is_hidden (PosixPath.join "/home/.cfg/" "a") = Str.startswith "a" ".".
Proof.
  apply (X17_hidden_test_is_on_the_name "/home/.cfg/" "a"). reflexivity.
Defined.

Lemma flat_map_count_sum (kind : node -> bool) (cs : list node) :
  List.length (filter kind (flat_map preorder cs)) =
  list_sum (map (count_kind kind) cs).
Proof.
  induction cs as [|c cs IH]; [reflexivity|].
  simpl. now rewrite filter_app, length_app, IH.
Qed.

(** X18.  The summary is additive: the summary of a directory node counts
    one directory more than the summaries of its children count together,
    and as many files and errors as they count together. *)
Theorem X18_summary_is_additive (name path : string)
  (children : list node) :
  get_summary (Directory name path children) =
  {| directories :=
       S (list_sum (map (fun c => directories (get_summary c)) children));
     files := list_sum (map (fun c => files (get_summary c)) children);
     errors := list_sum (map (fun c => errors (get_summary c)) children) |}.
Proof.
  rewrite get_summary_spec, !count_kind_directory, !flat_map_count_sum.
  cbn [is_directory is_file is_error Nat.add].
  f_equal; [f_equal|..]; f_equal; apply map_ext; intros c;
    now rewrite get_summary_spec.
Qed.
